(** * Adaptive chunking engine: classifier, chunkers and orchestrator

    A shallow embedding of [src/main.py].  Python [str] values are Rocq
    [string]s whose characters are code points below 256.  The tokenizer
    ([tiktoken]) and the digest ([hashlib.md5]) are external libraries: the
    engine is parametrised by [count_tokens] and [md5_hexdigest], two total
    functions, and by the clock reading [now].  The regular expressions of
    the source are terms of [re.regex], run by a backtracking matcher that
    follows Python's [re] module: priorities of alternatives and of greedy
    and lazy repetitions, groups, anchors, and the left-to-right scan of
    [findall], [split] and [sub]. *)

From Stdlib Require Import String Ascii List Bool Arith NArith Lia DecimalString DecimalNat FinFun.
Import ListNotations.
Open Scope string_scope.
Open Scope list_scope.
Open Scope nat_scope.

(** ** Python [str] operations *)

Module Str.

Definition newline : ascii := ascii_of_nat 10.
Definition nl : string := String newline EmptyString.
Definition nlnl : string := String newline (String newline EmptyString).

Definition code (c : ascii) : N := N_of_ascii c.

Definition between (lo hi : N) (c : ascii) : bool :=
  (N.leb lo (code c) && N.leb (code c) hi)%bool.

(** [str.isspace] on one character (also [\s] of [re]). *)
Definition is_space (c : ascii) : bool :=
  (between 9 13 c || between 28 32 c || N.eqb (code c) 133 || N.eqb (code c) 160)%bool.

Definition is_digit (c : ascii) : bool := between 48 57 c.

(** [\w] of [re]: alphanumeric or underscore. *)
Definition is_word (c : ascii) : bool :=
  (between 48 57 c || between 65 90 c || between 97 122 c || N.eqb (code c) 95
   || N.eqb (code c) 170 || between 178 179 c || N.eqb (code c) 181
   || between 185 186 c || between 188 190 c || between 192 214 c
   || between 216 246 c || between 248 255 c)%bool.

Definition lower_char (c : ascii) : ascii :=
  if (between 65 90 c || between 192 214 c || between 216 222 c)%bool
  then ascii_of_N (code c + 32) else c.

Fixpoint lower (s : string) : string :=
  match s with
  | EmptyString => EmptyString
  | String c t => String (lower_char c) (lower t)
  end.

Definition is_empty (s : string) : bool :=
  match s with EmptyString => true | _ => false end.

(** Truthiness of a Python string. *)
Definition truthy (s : string) : bool := negb (is_empty s).

Fixpoint lstrip (s : string) : string :=
  match s with
  | EmptyString => EmptyString
  | String c t => if is_space c then lstrip t else s
  end.

Fixpoint rstrip (s : string) : string :=
  match s with
  | EmptyString => EmptyString
  | String c t =>
      let t' := rstrip t in
      if (is_space c && is_empty t')%bool then EmptyString else String c t'
  end.

Definition strip (s : string) : string := rstrip (lstrip s).

(** [s.lstrip('#')]. *)
Fixpoint lstrip_char (x : ascii) (s : string) : string :=
  match s with
  | EmptyString => EmptyString
  | String c t => if Ascii.eqb c x then lstrip_char x t else s
  end.

Definition startswith (p s : string) : bool := String.prefix p s.

(** [needle in s]. *)
Fixpoint contains (needle s : string) : bool :=
  (String.prefix needle s ||
   match s with
   | EmptyString => false
   | String _ t => contains needle t
   end)%bool.

Definition cons_head (c : ascii) (l : list string) : list string :=
  match l with
  | [] => [String c EmptyString]
  | h :: tl => String c h :: tl
  end.

(** [s.split(sep)] for a one-character separator. *)
Fixpoint split_char (sep : ascii) (s : string) : list string :=
  match s with
  | EmptyString => [EmptyString]
  | String c t =>
      if Ascii.eqb c sep then EmptyString :: split_char sep t
      else cons_head c (split_char sep t)
  end.

(** [s.split(sep)] for a non-empty separator: leftmost occurrences, not
    overlapping.  [skip] counts the characters of an occurrence still to
    be passed over. *)
Fixpoint split_from (sep : string) (skip : nat) (s : string) : list string :=
  match s with
  | EmptyString => [EmptyString]
  | String c t =>
      match skip with
      | S k => split_from sep k t
      | O =>
          if String.prefix sep s
          then EmptyString :: split_from sep (String.length sep - 1) t
          else cons_head c (split_from sep 0 t)
      end
  end.

Definition split (sep s : string) : list string := split_from sep 0 s.

(** [sep.join(l)]. *)
Definition join (sep : string) (l : list string) : string := String.concat sep l.

Fixpoint take (n : nat) (s : string) : string :=
  match n, s with
  | S k, String c t => String c (take k t)
  | _, _ => EmptyString
  end.

Fixpoint drop (n : nat) (s : string) : string :=
  match n, s with
  | S k, String _ t => drop k t
  | _, _ => s
  end.

(** [str(i)] for a non-negative integer. *)
Definition of_nat (n : nat) : string := NilEmpty.string_of_uint (Nat.to_uint n).

(** Some character of [s] is not whitespace. *)
Fixpoint has_non_space (s : string) : bool :=
  match s with
  | EmptyString => false
  | String c t => (negb (is_space c) || has_non_space t)%bool
  end.

End Str.

(** ** Python [re]: patterns and the backtracking matcher *)

Module re.

Record flags := { IGNORECASE : bool; MULTILINE : bool; DOTALL : bool }.

Definition no_flags : flags := {| IGNORECASE := false; MULTILINE := false; DOTALL := false |}.
Definition flag_i : flags := {| IGNORECASE := true; MULTILINE := false; DOTALL := false |}.
Definition flag_m : flags := {| IGNORECASE := false; MULTILINE := true; DOTALL := false |}.
Definition flag_ms : flags := {| IGNORECASE := false; MULTILINE := true; DOTALL := true |}.

(** One-character items: a literal character, a range, an escape class,
    the dot, or a bracketed union of these. *)
Inductive cset :=
| c_chr (c : ascii)
| c_range (lo hi : ascii)
| c_space
| c_nspace
| c_digit
| c_word
| c_dot
| c_union (a b : cset).

Fixpoint cset_mem (f : flags) (cs : cset) (c : ascii) : bool :=
  match cs with
  | c_chr x => Ascii.eqb c x
  | c_range lo hi => Str.between (Str.code lo) (Str.code hi) c
  | c_space => Str.is_space c
  | c_nspace => negb (Str.is_space c)
  | c_digit => Str.is_digit c
  | c_word => Str.is_word c
  | c_dot => (DOTALL f || negb (Ascii.eqb c Str.newline))%bool
  | c_union a b => (cset_mem f a c || cset_mem f b c)%bool
  end.

Inductive regex :=
| Lit (s : string)                                  (* literal text *)
| Chars (cs : cset)                                 (* one character *)
| Many (cs : cset) (lo : nat) (hi : option nat)     (* greedy  cs{lo,hi} *)
| Few (cs : cset) (lo : nat) (hi : option nat)      (* lazy    cs{lo,hi}? *)
| Seq (a b : regex)
| Alt (a b : regex)
| Group (n : nat) (a : regex)                       (* capturing group n *)
| Bol                                               (* ^ *)
| Eol                                               (* $ *)
| EndZ                                              (* \Z *)
| WordB                                             (* \b *)
| Behind (cs : cset)                                (* (?<=[cs]) *)
| Ahead (a : regex).                                (* (?=a) *)

Definition Star (cs : cset) : regex := Many cs 0 None.
Definition Plus (cs : cset) : regex := Many cs 1 None.
Definition LazyStar (cs : cset) : regex := Few cs 0 None.

(** [a|b|c|...] over literal words, in the order written. *)
Fixpoint words (l : list string) : regex :=
  match l with
  | [] => Lit EmptyString
  | [w] => Lit w
  | w :: tl => Alt (Lit w) (words tl)
  end.

(** Matcher state: the character before the position ([None] at the start
    of the subject), the text from the position on, the groups set so far. *)
Record mstate := { prev : option ascii; rest : string; groups : list (nat * string) }.

Definition char_eq (f : flags) (a b : ascii) : bool :=
  if IGNORECASE f then Ascii.eqb (Str.lower_char a) (Str.lower_char b) else Ascii.eqb a b.

Fixpoint eat_lit (f : flags) (lit : string) (p : option ascii) (s : string)
  : option (option ascii * string) :=
  match lit with
  | EmptyString => Some (p, s)
  | String a lit' =>
      match s with
      | String c t => if char_eq f a c then eat_lit f lit' (Some c) t else None
      | EmptyString => None
      end
  end.

Definition hi_zero (hi : option nat) : bool :=
  match hi with Some O => true | _ => false end.

Definition hi_pred (hi : option nat) : option nat :=
  match hi with Some h => Some (Nat.pred h) | None => None end.

(** Greedy repetition of a one-character item: as many as allowed first,
    then one fewer at a time. *)
Fixpoint greedy (f : flags) (cs : cset) (lo : nat) (hi : option nat)
    (p : option ascii) (s : string) (g : list (nat * string))
    (k : mstate -> option mstate) : option mstate :=
  let stop := match lo with
              | O => k {| prev := p; rest := s; groups := g |}
              | S _ => None
              end in
  if hi_zero hi then stop
  else match s with
       | String c t =>
           if cset_mem f cs c
           then match greedy f cs (Nat.pred lo) (hi_pred hi) (Some c) t g k with
                | Some r => Some r
                | None => stop
                end
           else stop
       | EmptyString => stop
       end.

(** Lazy repetition: as few as allowed first, then one more at a time. *)
Fixpoint lazy (f : flags) (cs : cset) (lo : nat) (hi : option nat)
    (p : option ascii) (s : string) (g : list (nat * string))
    (k : mstate -> option mstate) : option mstate :=
  let more :=
    if hi_zero hi then None
    else match s with
         | String c t =>
             if cset_mem f cs c
             then lazy f cs (Nat.pred lo) (hi_pred hi) (Some c) t g k
             else None
         | EmptyString => None
         end in
  match lo with
  | O => match k {| prev := p; rest := s; groups := g |} with
         | Some r => Some r
         | None => more
         end
  | S _ => more
  end.

Definition at_bol (f : flags) (st : mstate) : bool :=
  match prev st with
  | None => true
  | Some c => (MULTILINE f && Ascii.eqb c Str.newline)%bool
  end.

Definition at_eol (f : flags) (st : mstate) : bool :=
  match rest st with
  | EmptyString => true
  | String c t =>
      (Ascii.eqb c Str.newline && (MULTILINE f || Str.is_empty t))%bool
  end.

Definition word_opt (o : option ascii) : bool :=
  match o with Some c => Str.is_word c | None => false end.

Definition next (st : mstate) : option ascii :=
  match rest st with String c _ => Some c | EmptyString => None end.

Definition at_wordb (st : mstate) : bool :=
  xorb (word_opt (prev st)) (word_opt (next st)).

(** Text consumed between two states of one run. *)
Definition consumed (st st' : mstate) : string :=
  Str.take (String.length (rest st) - String.length (rest st')) (rest st).

Definition set_group (n : nat) (txt : string) (st : mstate) : mstate :=
  {| prev := prev st; rest := rest st; groups := (n, txt) :: groups st |}.

Definition accept (st : mstate) : option mstate := Some st.

Fixpoint run (f : flags) (r : regex) (st : mstate) (k : mstate -> option mstate)
  : option mstate :=
  match r with
  | Lit s =>
      match eat_lit f s (prev st) (rest st) with
      | Some (p, t) => k {| prev := p; rest := t; groups := groups st |}
      | None => None
      end
  | Chars cs =>
      match rest st with
      | String c t =>
          if cset_mem f cs c
          then k {| prev := Some c; rest := t; groups := groups st |}
          else None
      | EmptyString => None
      end
  | Many cs lo hi => greedy f cs lo hi (prev st) (rest st) (groups st) k
  | Few cs lo hi => lazy f cs lo hi (prev st) (rest st) (groups st) k
  | Seq a b => run f a st (fun st' => run f b st' k)
  | Alt a b =>
      match run f a st k with
      | Some res => Some res
      | None => run f b st k
      end
  | Group n a => run f a st (fun st' => k (set_group n (consumed st st') st'))
  | Bol => if at_bol f st then k st else None
  | Eol => if at_eol f st then k st else None
  | EndZ => if Str.is_empty (rest st) then k st else None
  | WordB => if at_wordb st then k st else None
  | Behind cs =>
      match prev st with
      | Some c => if cset_mem f cs c then k st else None
      | None => None
      end
  | Ahead a =>
      match run f a st accept with
      | Some _ => k st
      | None => None
      end
  end.

(** One match: its text and its groups. *)
Record hit := { h_text : string; h_groups : list (nat * string) }.

Fixpoint lookup (n : nat) (g : list (nat * string)) : option string :=
  match g with
  | [] => None
  | (m, txt) :: tl => if Nat.eqb m n then Some txt else lookup n tl
  end.

(** [m.group(n)]; a group that did not take part reads as the empty text. *)
Definition group (h : hit) (n : nat) : string :=
  match lookup n (h_groups h) with Some txt => txt | None => EmptyString end.

(** Final continuation of a match attempted at [s]; with [must_advance]
    an empty match at the starting position is refused. *)
Definition finish (must_advance : bool) (s : string) (st : mstate) : option mstate :=
  if (must_advance && Nat.eqb (String.length (rest st)) (String.length s))%bool
  then None else Some st.

(** The match at the current position, if any. *)
Definition match_here (f : flags) (r : regex) (must_advance : bool)
    (p : option ascii) (s : string) : option hit :=
  match run f r {| prev := p; rest := s; groups := [] |} (finish must_advance s) with
  | Some st' =>
      Some {| h_text := Str.take (String.length s - String.length (rest st')) s;
              h_groups := groups st' |}
  | None => None
  end.

(** [re.match(r, s)]. *)
Definition match_ (f : flags) (r : regex) (s : string) : option hit :=
  match_here f r false None s.

Definition push_gap (c : ascii) (x : string * list (hit * string))
  : string * list (hit * string) :=
  (String c (fst x), snd x).

(** Left-to-right scan for non-overlapping matches, as [finditer] does.
    The result is the text before the first match and, for every match,
    the match with the text between it and the next one.  [skip] counts
    the characters of the last match still to be passed over. *)
Fixpoint scan (f : flags) (r : regex) (skip : nat) (p : option ascii) (s : string)
  : string * list (hit * string) :=
  match s with
  | EmptyString =>
      match skip with
      | S _ => (EmptyString, [])
      | O =>
          match match_here f r false p EmptyString with
          | Some h => (EmptyString, [(h, EmptyString)])
          | None => (EmptyString, [])
          end
      end
  | String c t =>
      match skip with
      | S k => scan f r k (Some c) t
      | O =>
          match match_here f r false p s with
          | None => push_gap c (scan f r 0 (Some c) t)
          | Some h =>
              match String.length (h_text h) with
              | S k =>
                  let x := scan f r k (Some c) t in
                  (EmptyString, (h, fst x) :: snd x)
              | O =>
                  (* an empty match: the next one may start here too, but
                     must not be empty *)
                  match match_here f r true p s with
                  | Some h' =>
                      let x := scan f r (String.length (h_text h') - 1) (Some c) t in
                      (EmptyString, (h, EmptyString) :: (h', fst x) :: snd x)
                  | None =>
                      let x := scan f r 0 (Some c) t in
                      (EmptyString, (h, String c (fst x)) :: snd x)
                  end
              end
          end
      end
  end.

Definition finditer (f : flags) (r : regex) (s : string) : string * list (hit * string) :=
  scan f r 0 None s.

(** [re.findall(r, s)] for a pattern without groups. *)
Definition findall (f : flags) (r : regex) (s : string) : list string :=
  map (fun x => h_text (fst x)) (snd (finditer f r s)).

(** [len(re.findall(r, s))], also for a pattern with groups. *)
Definition count (f : flags) (r : regex) (s : string) : nat :=
  List.length (snd (finditer f r s)).

(** [re.split(r, s)] for a pattern without groups. *)
Definition split (f : flags) (r : regex) (s : string) : list string :=
  let x := finditer f r s in
  fst x :: map snd (snd x).

(** [re.split(r, s)] for a pattern with one group: the group's text is
    put between the pieces. *)
Definition split1 (f : flags) (r : regex) (s : string) : list string :=
  let x := finditer f r s in
  fst x :: flat_map (fun y => [group (fst y) 1; snd y]) (snd x).

(** [re.sub(r, '', s)]. *)
Definition remove (f : flags) (r : regex) (s : string) : string :=
  let x := finditer f r s in
  (fst x ++ String.concat EmptyString (map snd (snd x)))%string.

End re.

(** ** Data model *)

Inductive DocumentType :=
| TECHNICAL_DOC | SUPPORT_TICKET | API_REFERENCE | POLICY | TUTORIAL | CODE | UNKNOWN.

Inductive ChunkingStrategy := SEMANTIC | CODE_AWARE | HIERARCHICAL | FIXED_SIZE.

Definition DocumentType_value (t : DocumentType) : string :=
  match t with
  | TECHNICAL_DOC => "technical_doc"
  | SUPPORT_TICKET => "support_ticket"
  | API_REFERENCE => "api_reference"
  | POLICY => "policy"
  | TUTORIAL => "tutorial"
  | CODE => "code"
  | UNKNOWN => "unknown"
  end.

Definition ChunkingStrategy_value (s : ChunkingStrategy) : string :=
  match s with
  | SEMANTIC => "semantic"
  | CODE_AWARE => "code_aware"
  | HIERARCHICAL => "hierarchical"
  | FIXED_SIZE => "fixed_size"
  end.

Record ChunkMetadata := {
  chunk_id : string;
  document_id : string;
  chunk_index : nat;
  document_type : DocumentType;
  strategy_used : ChunkingStrategy;
  token_count : nat;
  section_title : option string;
  code_language : option string
}.

(** [[chunk.strip() for chunk in chunks if chunk.strip()]] *)
Definition strip_nonempty (chunks : list string) : list string :=
  map Str.strip (filter (fun chunk => Str.truthy (Str.strip chunk)) chunks).

(** [enumerate(l)] *)
Definition enumerate {A : Type} (l : list A) : list (nat * A) :=
  combine (seq 0 (List.length l)) l.

(** ** DocumentClassifier *)

Module DocumentClassifier.

Definition kw (ws : list string) : re.regex :=
  re.Seq re.WordB (re.Seq (re.Group 1 (re.words ws)) re.WordB).

(** [self.patterns], in the order the dictionary is written; every
    pattern carries [(?i)]. *)
Definition patterns : list (DocumentType * list re.regex) :=
  [ (API_REFERENCE,
      [ kw ["endpoint"; "api"; "rest"; "graphql"; "request"; "response"; "parameter"];
        re.Seq re.WordB
          (re.Seq (re.Group 1 (re.words ["get"; "post"; "put"; "delete"; "patch"]))
             (re.Seq (re.Plus re.c_space) (re.Lit "/")));
        kw ["json"; "xml"; "swagger"; "openapi"];
        kw ["authentication"; "authorization"; "token"] ]);
    (TECHNICAL_DOC,
      [ kw ["architecture"; "design"; "implementation"; "configuration"];
        kw ["system"; "component"; "module"; "service"];
        kw ["requirements"; "specifications"; "technical"] ]);
    (SUPPORT_TICKET,
      [ kw ["issue"; "problem"; "bug"; "error"; "ticket"];
        kw ["reproduce"; "steps"; "workaround"; "solution"];
        kw ["customer"; "user"; "reported"; "priority"] ]);
    (POLICY,
      [ kw ["policy"; "procedure"; "guideline"; "compliance"];
        kw ["must"; "shall"; "should"; "required"; "mandatory"];
        kw ["approval"; "review"; "governance"; "standard"] ]);
    (TUTORIAL,
      [ kw ["tutorial"; "guide"; "how-to"; "step-by-step"];
        kw ["example"; "demo"; "walkthrough"; "getting started"];
        kw ["learn"; "install"; "setup"; "configure"] ]);
    (CODE,
      [ kw ["function"; "class"; "method"; "variable"; "import"];
        kw ["def"; "class"; "if"; "else"; "for"; "while"; "return"];
        kw ["javascript"; "python"; "java"; "c++"; "sql"] ]) ].

(** The filename rules, first match wins. *)
Definition filename_rule (filename : string) : option DocumentType :=
  let filename_lower := Str.lower filename in
  if existsb (fun ext => Str.contains ext filename_lower)
       [".py"; ".js"; ".java"; ".cpp"; ".sql"] then Some CODE
  else if (Str.contains "api" filename_lower || Str.contains "swagger" filename_lower)%bool
  then Some API_REFERENCE
  else if (Str.contains "policy" filename_lower || Str.contains "procedure" filename_lower)%bool
  then Some POLICY
  else if (Str.contains "tutorial" filename_lower || Str.contains "guide" filename_lower)%bool
  then Some TUTORIAL
  else None.

(** The inner loop: the sum of the match counts of a genre's patterns. *)
Definition score (content : string) (pats : list re.regex) : nat :=
  fold_left (fun score pattern => score + re.count re.flag_i pattern content) pats 0.

Definition scores (content : string) : list (DocumentType * nat) :=
  map (fun x => (fst x, score content (snd x))) patterns.

(** [max(scores, key=scores.get)]: an entry replaces the best one so far
    only when its value is strictly larger. *)
Fixpoint max_from (best : DocumentType * nat) (l : list (DocumentType * nat))
  : DocumentType * nat :=
  match l with
  | [] => best
  | x :: tl => if snd best <? snd x then max_from x tl else max_from best tl
  end.

Definition py_max (l : list (DocumentType * nat)) : DocumentType * nat :=
  match l with
  | [] => (UNKNOWN, 0)
  | x :: tl => max_from x tl
  end.

Definition classify (content filename : string) : DocumentType :=
  match filename_rule filename with
  | Some t => t
  | None =>
      let best := py_max (scores content) in
      if 2 <? snd best then fst best else UNKNOWN
  end.

End DocumentClassifier.

(** ** SemanticChunker *)

Module SemanticChunker.

(** [(?m)^(#{1,6}\s+.*|^\d+\.\s+.*|^[A-Z][A-Z\s]+:)] *)
Definition section_pattern : re.regex :=
  re.Seq re.Bol
    (re.Group 1
       (re.Alt
          (re.Seq (re.Many (re.c_chr "#") 1 (Some 6))
             (re.Seq (re.Plus re.c_space) (re.Star re.c_dot)))
          (re.Alt
             (re.Seq re.Bol
                (re.Seq (re.Plus re.c_digit)
                   (re.Seq (re.Lit ".") (re.Seq (re.Plus re.c_space) (re.Star re.c_dot)))))
             (re.Seq re.Bol
                (re.Seq (re.Chars (re.c_range "A" "Z"))
                   (re.Seq (re.Plus (re.c_union (re.c_range "A" "Z") re.c_space))
                      (re.Lit ":"))))))).

(** [(?<=[.!?])\s+] *)
Definition sentence_pattern : re.regex :=
  re.Seq (re.Behind (re.c_union (re.c_chr ".") (re.c_union (re.c_chr "!") (re.c_chr "?"))))
    (re.Plus re.c_space).

(** The loop of [_split_by_sections] over [range(0, len(sections), 2)]. *)
Fixpoint combine_pairs (sections : list string) : list string :=
  match sections with
  | a :: b :: tl => (a ++ b)%string :: combine_pairs tl
  | [a] => [a]
  | [] => []
  end.

Definition _split_by_sections (content : string) : list string :=
  let sections := re.split1 re.flag_m section_pattern content in
  combine_pairs sections.

Section WithTokenizer.
Variable count_tokens : string -> nat.
Variable max_tokens : nat.

(** The loop of [_split_by_sentences], with the two variables it updates. *)
Fixpoint pack_sentences (sentences : list string) (chunks : list string)
    (current_chunk : string) : list string :=
  match sentences with
  | [] => if Str.truthy current_chunk then chunks ++ [current_chunk] else chunks
  | sentence :: tl =>
      let test_chunk :=
        if Str.truthy current_chunk
        then (current_chunk ++ " " ++ sentence)%string else sentence in
      if count_tokens test_chunk <=? max_tokens
      then pack_sentences tl chunks test_chunk
      else
        pack_sentences tl
          (if Str.truthy current_chunk then chunks ++ [current_chunk] else chunks)
          sentence
  end.

Definition _split_by_sentences (content : string) : list string :=
  let sentences := re.split re.no_flags sentence_pattern content in
  pack_sentences sentences [] EmptyString.

Definition chunk (content : string) (doc_type : DocumentType) : list string :=
  let sections := _split_by_sections content in
  let chunks :=
    flat_map (fun section =>
                if count_tokens section <=? max_tokens then [section]
                else _split_by_sentences section) sections in
  strip_nonempty chunks.

End WithTokenizer.

End SemanticChunker.

(** ** CodeAwareChunker *)

Module CodeAwareChunker.

Definition fence : string := "```".

(** [```[\s\S]*?```] *)
Definition fence_pattern : re.regex :=
  re.Seq (re.Lit fence)
    (re.Seq (re.LazyStar (re.c_union re.c_space re.c_nspace)) (re.Lit fence)).

(** [^```.*\n|```$] under [re.MULTILINE] *)
Definition marker_pattern : re.regex :=
  re.Alt
    (re.Seq re.Bol (re.Seq (re.Lit fence) (re.Seq (re.Star re.c_dot) (re.Lit Str.nl))))
    (re.Seq (re.Lit fence) re.Eol).

(** [(?m)^kw\s+\w+.*?(?=^kw\s+|\Z)] under [re.DOTALL] *)
Definition decl_pattern (kw : string) : re.regex :=
  re.Seq re.Bol
    (re.Seq (re.Lit kw)
       (re.Seq (re.Plus re.c_space)
          (re.Seq (re.Plus re.c_word)
             (re.Seq (re.LazyStar re.c_dot)
                (re.Ahead
                   (re.Alt (re.Seq re.Bol (re.Seq (re.Lit kw) (re.Plus re.c_space)))
                      re.EndZ)))))).

Definition patterns : list re.regex :=
  [ decl_pattern "def"; decl_pattern "class"; decl_pattern "function"; decl_pattern "public" ].

Definition _extract_code_blocks (content : string) : list string :=
  re.findall re.no_flags fence_pattern content.

(** The first pattern with a match decides; its matches are the chunks. *)
Fixpoint structure_matches (pats : list re.regex) (code_content : string) : list string :=
  match pats with
  | [] => []
  | pattern :: tl =>
      match re.findall re.flag_ms pattern code_content with
      | [] => structure_matches tl code_content
      | matches => matches
      end
  end.

(** [re.sub(r'^```.*\n|```$', '', code_block, flags=re.MULTILINE)] *)
Definition strip_markers (code_block : string) : string :=
  re.remove re.flag_m marker_pattern code_block.

(** [f"```\n{chunk}\n```"] *)
Definition wrap (chunk : string) : string :=
  (fence ++ Str.nl ++ chunk ++ Str.nl ++ fence)%string.

Section WithTokenizer.
Variable count_tokens : string -> nat.
Variable max_tokens : nat.

(** The line loop of [_split_code_block]. *)
Fixpoint pack_lines (lines : list string) (chunks : list string)
    (current_chunk : string) : list string :=
  match lines with
  | [] => if Str.truthy current_chunk then chunks ++ [wrap current_chunk] else chunks
  | line :: tl =>
      let test_chunk :=
        if Str.truthy current_chunk
        then (current_chunk ++ Str.nl ++ line)%string else line in
      if count_tokens test_chunk <=? max_tokens
      then pack_lines tl chunks test_chunk
      else
        pack_lines tl
          (if Str.truthy current_chunk then chunks ++ [wrap current_chunk] else chunks)
          line
  end.

Definition _split_code_block (code_block : string) : list string :=
  let code_content := strip_markers code_block in
  let chunks := structure_matches patterns code_content in
  match chunks with
  | [] => pack_lines (Str.split_char Str.newline code_content) [] EmptyString
  | _ => map wrap chunks
  end.

Definition _semantic_split (content : string) : list string :=
  SemanticChunker.chunk count_tokens max_tokens content TECHNICAL_DOC.

(** The loop of [chunk] over [enumerate(parts)], from index [i] on. *)
Fixpoint walk (code_blocks : list string) (i : nat) (parts : list string) : list string :=
  match parts with
  | [] => []
  | part :: tl =>
      (if Str.truthy (Str.strip part) then _semantic_split part else [])
      ++ match nth_error code_blocks i with
         | Some code_chunk =>
             if count_tokens code_chunk <=? max_tokens then [code_chunk]
             else _split_code_block code_chunk
         | None => []
         end
      ++ walk code_blocks (S i) tl
  end.

Definition chunk (content : string) (doc_type : DocumentType) : list string :=
  let code_blocks := _extract_code_blocks content in
  let parts := re.split re.no_flags fence_pattern content in
  strip_nonempty (walk code_blocks 0 parts).

End WithTokenizer.

End CodeAwareChunker.

(** ** HierarchicalChunker *)

Module HierarchicalChunker.

(** The dictionaries [{'level': .., 'title': .., 'content': [..]}]. *)
Record section := { level : nat; title : string; content : list string }.

(** [^(#{1,6})\s+(.+)$] *)
Definition header_pattern : re.regex :=
  re.Seq re.Bol
    (re.Seq (re.Group 1 (re.Many (re.c_chr "#") 1 (Some 6)))
       (re.Seq (re.Plus re.c_space)
          (re.Seq (re.Group 2 (re.Plus re.c_dot)) re.Eol))).

Definition add_line (line : string) (s : section) : section :=
  {| level := level s; title := title s; content := content s ++ [line] |}.

Definition introduction : section :=
  {| level := 0; title := "Introduction"; content := [] |}.

(** [structure[-1]['content'].append(line)] *)
Fixpoint append_to_last (line : string) (structure : list section) : list section :=
  match structure with
  | [] => []
  | [s] => [add_line line s]
  | s :: tl => s :: append_to_last line tl
  end.

(** [not structure or structure[-1]['level'] != 0] *)
Definition needs_introduction (structure : list section) : bool :=
  match last (map Some structure) None with
  | None => true
  | Some s => negb (level s =? 0)
  end.

(** One turn of the loop of [_parse_structure]: the state is [structure]
    and [current_section]. *)
Definition parse_line (st : list section * option section) (raw : string)
  : list section * option section :=
  let (structure, current_section) := st in
  let line := Str.strip raw in
  if Str.is_empty line then st
  else
    match re.match_ re.no_flags header_pattern line with
    | Some header_match =>
        let level := String.length (re.group header_match 1) in
        let title := re.group header_match 2 in
        (match current_section with
         | Some cs => structure ++ [cs]
         | None => structure
         end,
         Some {| level := level; title := title; content := [] |})
    | None =>
        match current_section with
        | Some cs => (structure, Some (add_line line cs))
        | None =>
            let structure' :=
              if needs_introduction structure then structure ++ [introduction]
              else structure in
            (append_to_last line structure', None)
        end
    end.

Definition _parse_structure (text : string) : list section :=
  let lines := Str.split_char Str.newline text in
  let (structure, current_section) := fold_left parse_line lines ([], None) in
  match current_section with
  | Some cs => structure ++ [cs]
  | None => structure
  end.

(** [f"# {title}\n\n"] *)
Definition title_prefix (title : string) : string :=
  ("# " ++ title ++ Str.nlnl)%string.

Section WithTokenizer.
Variable count_tokens : string -> nat.
Variable max_tokens : nat.

(** The paragraph loop of [_chunk_section]. *)
Fixpoint pack_parts (title : string) (content_parts : list string)
    (chunks : list string) (current_chunk : string) : list string :=
  match content_parts with
  | [] =>
      if negb (String.eqb current_chunk (title_prefix title))
      then chunks ++ [Str.strip current_chunk] else chunks
  | part :: tl =>
      let test_chunk := (current_chunk ++ part ++ Str.nlnl)%string in
      if count_tokens test_chunk <=? max_tokens
      then pack_parts title tl chunks test_chunk
      else
        pack_parts title tl
          (if negb (String.eqb current_chunk (title_prefix title))
           then chunks ++ [Str.strip current_chunk] else chunks)
          (title_prefix title ++ part ++ Str.nlnl)%string
  end.

Definition _chunk_section (s : section) : list string :=
  let title := title s in
  let content := Str.join Str.nl (content s) in
  let full_content := (title_prefix title ++ content)%string in
  if count_tokens full_content <=? max_tokens then [full_content]
  else
    let content_parts := Str.split Str.nlnl content in
    pack_parts title content_parts [] (title_prefix title).

Definition chunk (text : string) (doc_type : DocumentType) : list string :=
  let structure := _parse_structure text in
  flat_map _chunk_section structure.

End WithTokenizer.

End HierarchicalChunker.

(** ** IntelligentChunker *)

Module IntelligentChunker.

(** An entry of the ['metadata'] list of the returned dictionary. *)
Record MetadataEntry := {
  m_chunk_id : string;
  m_chunk_index : nat;
  m_token_count : nat;
  m_section_title : option string
}.

(** The dictionary returned by [process_document]. *)
Record ProcessingResult := {
  r_document_id : string;
  r_document_type : string;
  r_chunking_strategy : string;
  r_chunks : list string;
  r_metadata : list MetadataEntry;
  r_total_chunks : nat;
  r_processing_timestamp : string
}.

Definition strategy_map (t : DocumentType) : ChunkingStrategy :=
  match t with
  | TECHNICAL_DOC => HIERARCHICAL
  | SUPPORT_TICKET => SEMANTIC
  | API_REFERENCE => CODE_AWARE
  | POLICY => HIERARCHICAL
  | TUTORIAL => HIERARCHICAL
  | CODE => CODE_AWARE
  | UNKNOWN => SEMANTIC
  end.

(** The loop of [_extract_section_title] over the lines of a chunk. *)
Fixpoint first_heading (lines : list string) : option string :=
  match lines with
  | [] => None
  | raw :: tl =>
      let line := Str.strip raw in
      if Str.startswith "#" line
      then Some (Str.strip (Str.lstrip_char "#" line))
      else first_heading tl
  end.

Definition _extract_section_title (chunk : string) : option string :=
  first_heading (Str.split_char Str.newline chunk).

Section WithLibraries.
(** [len(tiktoken.get_encoding("cl100k_base").encode(text))] *)
Variable count_tokens : string -> nat.
(** [hashlib.md5(content.encode()).hexdigest()] *)
Variable md5_hexdigest : string -> string.
(** [datetime.now().isoformat()] at the time of the call *)
Variable now : string.

(** [self.chunkers[strategy].chunk(content, doc_type)] *)
Definition chunkers (strategy : ChunkingStrategy) (content : string)
    (doc_type : DocumentType) : list string :=
  match strategy with
  | SEMANTIC => SemanticChunker.chunk count_tokens 512 content doc_type
  | CODE_AWARE => CodeAwareChunker.chunk count_tokens 512 content doc_type
  | HIERARCHICAL => HierarchicalChunker.chunk count_tokens 512 content doc_type
  | FIXED_SIZE => SemanticChunker.chunk count_tokens 256 content doc_type
  end.

(** [if not doc_id: doc_id = md5(...)[:8]]: an absent and an empty
    identifier are both replaced. *)
Definition resolve_doc_id (content : string) (doc_id : option string) : string :=
  match doc_id with
  | Some d => if Str.truthy d then d else Str.take 8 (md5_hexdigest content)
  | None => Str.take 8 (md5_hexdigest content)
  end.

Definition make_metadata (doc_id : string) (doc_type : DocumentType)
    (strategy : ChunkingStrategy) (x : nat * string) : ChunkMetadata :=
  let (i, chunk) := x in
  {| chunk_id := (doc_id ++ "_chunk_" ++ Str.of_nat i)%string;
     document_id := doc_id;
     chunk_index := i;
     document_type := doc_type;
     strategy_used := strategy;
     token_count := count_tokens chunk;
     section_title := _extract_section_title chunk;
     code_language := None |}.

Definition entry_of (meta : ChunkMetadata) : MetadataEntry :=
  {| m_chunk_id := chunk_id meta;
     m_chunk_index := chunk_index meta;
     m_token_count := token_count meta;
     m_section_title := section_title meta |}.

Definition process_document (content filename : string) (doc_id : option string)
  : ProcessingResult :=
  let doc_id := resolve_doc_id content doc_id in
  let doc_type := DocumentClassifier.classify content filename in
  let strategy := strategy_map doc_type in
  let chunks := chunkers strategy content doc_type in
  let chunk_metadata := map (make_metadata doc_id doc_type strategy) (enumerate chunks) in
  {| r_document_id := doc_id;
     r_document_type := DocumentType_value doc_type;
     r_chunking_strategy := ChunkingStrategy_value strategy;
     r_chunks := chunks;
     r_metadata := map entry_of chunk_metadata;
     r_total_chunks := List.length chunks;
     r_processing_timestamp := now |}.

End WithLibraries.

End IntelligentChunker.

(** ** Auxiliary definitions used in the statements *)

(** Every character of [s] satisfies [p]. *)
Fixpoint all_chars (p : ascii -> bool) (s : string) : bool :=
  match s with
  | EmptyString => true
  | String c t => (p c && all_chars p t)%bool
  end.

(** The pieces and the matches of a scan, put back together in order. *)
Definition reassemble (x : string * list (re.hit * string)) : string :=
  (fst x ++ String.concat EmptyString
             (map (fun y => (re.h_text (fst y) ++ snd y)%string) (snd x)))%string.

(** The running buffer of [HierarchicalChunker._chunk_section] after the
    paragraphs [g] have been appended to the title prefix. *)
Definition buffer (title : string) (g : list string) : string :=
  (HierarchicalChunker.title_prefix title
   ++ String.concat EmptyString (map (fun part => (part ++ Str.nlnl)%string) g))%string.

(** A successful run hands its result over through the continuation, at a
    state further to the right in the subject. *)
Definition handed_over (k : re.mstate -> option re.mstate) (res : re.mstate)
    (s : string) : Prop :=
  exists st', k st' = Some res /\ exists u, s = (u ++ re.rest st')%string.

(** The budget test passed by a packed group of two or more units. *)
Definition within_budget (count_tokens : string -> nat) (max_tokens : nat)
    (text_of : list string -> string) (g : list string) : Prop :=
  2 <= List.length g -> count_tokens (text_of g) <= max_tokens.

(** The group a sentence starts when the running chunk is replaced by it:
    an empty sentence leaves the running chunk empty. *)
Definition start_group (sentence : string) : list string :=
  if Str.truthy sentence then [sentence] else [].

(** A group that stands for a running chunk starts with a non-empty unit. *)
Definition headed (g : list string) : Prop :=
  match g with
  | [] => True
  | s :: _ => Str.truthy s = true
  end.

(** The text is made of newline characters only. *)
Definition only_newlines (s : string) : bool :=
  all_chars (fun c => Ascii.eqb c Str.newline) s.

(** The parser of the hierarchical chunker holds a section, finished or
    current. *)
Definition holds_section
    (st : list HierarchicalChunker.section * option HierarchicalChunker.section) : Prop :=
  fst st <> [] \/ snd st <> None.

(** A call either returns a value or raises. *)
Inductive outcome (A : Type) :=
| Returns (a : A)
| Raises (kind : string).
Arguments Returns {A} a.
Arguments Raises {A} kind.

(** A call of [process_document]: the body has no validation step and no
    [raise]; with a total tokenizer every call returns. *)
Definition call_process_document (count_tokens : string -> nat)
    (md5_hexdigest : string -> string) (now : string)
    (content filename : string) (doc_id : option string)
  : outcome IntelligentChunker.ProcessingResult :=
  Returns (IntelligentChunker.process_document count_tokens md5_hexdigest now
             content filename doc_id).

(** Instances of the two libraries used to run the engine on concrete
    documents: a tokenizer with one token per character, and a digest
    table holding the MD5 digests of the documents [""] and ["hello"]. *)
Definition char_tokens (s : string) : nat := String.length s.

Definition md5_table (s : string) : string :=
  if String.eqb s EmptyString then "d41d8cd98f00b204e9800998ecf8427e"
  else if String.eqb s "hello" then "5d41402abc4b2a76b9719d911017c592"
  else "00000000000000000000000000000000".

Fixpoint repeat_string (s : string) (n : nat) : string :=
  match n with
  | O => EmptyString
  | S k => (s ++ repeat_string s k)%string
  end.

(** The units that pairing up the result of a split with one group gives:
    every match is joined to the piece before it, and the piece after the
    last match stands alone. *)
Fixpoint join_to_previous (piece : string) (l : list (re.hit * string)) : list string :=
  match l with
  | [] => [piece]
  | (h, piece') :: tl => (piece ++ re.h_text h)%string :: join_to_previous piece' tl
  end.

(** The character before the position once [u] has been consumed. *)
Fixpoint prev_after (p : option ascii) (u : string) : option ascii :=
  match u with
  | EmptyString => p
  | String c u' => prev_after (Some c) u'
  end.

Definition not_newline (c : ascii) : bool := negb (Ascii.eqb c Str.newline).

(** A line as the parser of the hierarchical chunker stores it: not empty,
    trimmed, and without a newline. *)
Definition line_ok (l : string) : Prop :=
  l <> "" /\ Str.strip l = l /\ all_chars not_newline l = true.

(** A well-formed section: a level from 0 to 6, level 0 only for the
    section titled Introduction, a stored title and stored body lines. *)
Definition section_ok (s : HierarchicalChunker.section) : Prop :=
  HierarchicalChunker.level s <= 6
  /\ (HierarchicalChunker.level s = 0 -> HierarchicalChunker.title s = "Introduction")
  /\ line_ok (HierarchicalChunker.title s)
  /\ Forall line_ok (HierarchicalChunker.content s).

(** [f"# {title}\n\n{content}"], the full content of a section. *)
Definition section_text (s : HierarchicalChunker.section) : string :=
  (HierarchicalChunker.title_prefix (HierarchicalChunker.title s)
   ++ Str.join Str.nl (HierarchicalChunker.content s))%string.

(** The state of the parser of the hierarchical chunker is well formed:
    sections are well formed, only the first finished section can have
    level 0, and without a current section at most the introduction has
    been opened. *)
Definition parser_ok
    (st : list HierarchicalChunker.section * option HierarchicalChunker.section) : Prop :=
  Forall section_ok (fst st)
  /\ Forall (fun s => HierarchicalChunker.level s = 0 -> HierarchicalChunker.content s <> [])
       (fst st)
  /\ Forall (fun s => 1 <= HierarchicalChunker.level s) (tl (fst st))
  /\ match snd st with
     | Some cs => section_ok cs /\ 1 <= HierarchicalChunker.level cs
     | None => List.length (fst st) <= 1
               /\ Forall (fun s => HierarchicalChunker.level s = 0) (fst st)
     end.

(** The text is empty or starts with a character other than a newline. *)
Definition starts_ok (b : string) : Prop :=
  match b with
  | EmptyString => True
  | String c _ => not_newline c = true
  end.

(** The one chunk that the hierarchical chunker returns for a parsed
    section: the full content when the section has a body; for a section
    without body the title prefix, or the bare heading line when the prefix
    is over the budget. *)
Definition section_chunk (count_tokens : string -> nat) (max_tokens : nat)
    (s : HierarchicalChunker.section) : string :=
  match HierarchicalChunker.content s with
  | [] =>
      if count_tokens (HierarchicalChunker.title_prefix (HierarchicalChunker.title s))
         <=? max_tokens
      then HierarchicalChunker.title_prefix (HierarchicalChunker.title s)
      else ("# " ++ HierarchicalChunker.title s)%string
  | _ => section_text s
  end.

(** The text without its whitespace characters. *)
Fixpoint visible (s : string) : string :=
  match s with
  | EmptyString => EmptyString
  | String c t => if Str.is_space c then visible t else String c (visible t)
  end.

(** The sections held by a state of the loop of [_parse_structure], the
    one being filled last. *)
Definition all_sections
    (st : list HierarchicalChunker.section * option HierarchicalChunker.section)
  : list HierarchicalChunker.section :=
  fst st ++ match snd st with Some cs => [cs] | None => [] end.

(** Level and title read from a trimmed line, when it is a heading. *)
Definition heading_of (line : string) : option (nat * string) :=
  match re.match_ re.no_flags HierarchicalChunker.header_pattern line with
  | Some header_match =>
      Some (String.length (re.group header_match 1), re.group header_match 2)
  | None => None
  end.

(** What a line of the text gives to the bodies of the sections: itself,
    trimmed, unless it is blank or a heading. *)
Definition body_line (raw : string) : list string :=
  let line := Str.strip raw in
  if Str.is_empty line then []
  else match heading_of line with Some _ => [] | None => [line] end.

(** The heading that a line of the text holds, if any. *)
Definition heading_line (raw : string) : list (nat * string) :=
  let line := Str.strip raw in
  if Str.is_empty line then []
  else match heading_of line with Some h => [h] | None => [] end.

(** Level and title of a section opened by a heading (level 0 marks the
    introduction, which no heading opens). *)
Definition headings (s : HierarchicalChunker.section) : list (nat * string) :=
  if HierarchicalChunker.level s =? 0 then []
  else [(HierarchicalChunker.level s, HierarchicalChunker.title s)].

(** The chunks that the code-aware chunker returns for a prose part, for a
    fenced block and for a block with the prose part after it. *)
Definition prose_chunks (count_tokens : string -> nat) (max_tokens : nat)
    (part : string) : list string :=
  SemanticChunker.chunk count_tokens max_tokens part TECHNICAL_DOC.

Definition block_chunks (count_tokens : string -> nat) (max_tokens : nat)
    (code_chunk : string) : list string :=
  if count_tokens code_chunk <=? max_tokens then [code_chunk]
  else strip_nonempty (CodeAwareChunker._split_code_block count_tokens max_tokens code_chunk).

Definition slot_chunks (count_tokens : string -> nat) (max_tokens : nat)
    (y : re.hit * string) : list string :=
  block_chunks count_tokens max_tokens (re.h_text (fst y))
  ++ prose_chunks count_tokens max_tokens (snd y).

(** A fenced block that leaves no chunk: it is over the budget and nothing
    but newlines is left once its fence lines are removed. *)
Definition block_vanishes (count_tokens : string -> nat) (max_tokens : nat)
    (code_chunk : string) : Prop :=
  max_tokens < count_tokens code_chunk
  /\ only_newlines (CodeAwareChunker.strip_markers code_chunk) = true.








(** ** The introspection endpoints of the API (main.py) *)

Module Api.

(** [[dt.value for dt in DocumentType]], in the order of the enumeration. *)
Definition get_document_types : list string :=
  map DocumentType_value
    [TECHNICAL_DOC; SUPPORT_TICKET; API_REFERENCE; POLICY; TUTORIAL; CODE; UNKNOWN].

(** [[cs.value for cs in ChunkingStrategy]] *)
Definition get_chunking_strategies : list string :=
  map ChunkingStrategy_value [SEMANTIC; CODE_AWARE; HIERARCHICAL; FIXED_SIZE].

End Api.

(** ** The dashboard (app.py): the computations on a result *)

Module App.

(** The division in [display_metrics]:
    [sum(chunk['token_count'] for chunk in result['metadata']) / len(result['metadata'])].
    The call returns the dividend and the divisor of the true division, or
    raises when the divisor is zero. *)
Definition avg_tokens (metadata : list IntelligentChunker.MetadataEntry)
  : outcome (nat * nat) :=
  let total := list_sum (map IntelligentChunker.m_token_count metadata) in
  match List.length metadata with
  | O => Raises "ZeroDivisionError"
  | n => Returns (total, n)
  end.

(** [f"CHUNK {i+1}:\n{chunk}"] *)
Definition labelled (x : nat * string) : string :=
  ("CHUNK " ++ Str.of_nat (fst x + 1) ++ ":" ++ Str.nl ++ snd x)%string.

(** The text export:
    ["\n\n" + "="*50 + "\n\n".join([f"CHUNK {i+1}:\n{chunk}" for i, chunk in enumerate(chunks)])] *)
Definition chunks_text (chunks : list string) : string :=
  (Str.nlnl ++ repeat_string "=" 50
   ++ Str.join Str.nlnl (map labelled (enumerate chunks)))%string.

End App.

(** * Properties *)

(** ** Facts about strings *)

Lemma append_empty_r (s : string) : (s ++ "")%string = s.
Proof. induction s as [|c s IH]; simpl; [reflexivity | now rewrite IH]. Qed.

Lemma append_assoc (a b c : string) : ((a ++ b) ++ c)%string = (a ++ b ++ c)%string.
Proof. induction a as [|x a IH]; simpl; [reflexivity | now rewrite IH]. Qed.

Lemma length_append (a b : string) :
  String.length (a ++ b) = String.length a + String.length b.
Proof. induction a as [|x a IH]; simpl; [reflexivity | now rewrite IH]. Qed.

Lemma take_empty (n : nat) : Str.take n "" = "".
Proof. destruct n; reflexivity. Qed.

Lemma take_append_length (u t : string) :
  Str.take (String.length (u ++ t) - String.length t) (u ++ t) = u.
Proof.
  rewrite length_append.
  replace (String.length u + String.length t - String.length t) with (String.length u) by lia.
  induction u as [|c u IH]; simpl; [now destruct t | now rewrite IH].
Qed.

Lemma drop_append_length (u t : string) : Str.drop (String.length u) (u ++ t) = t.
Proof. induction u as [|c u IH]; simpl; [now destruct t | exact IH]. Qed.

Lemma concat_empty_app (l1 l2 : list string) :
  String.concat "" (l1 ++ l2) = (String.concat "" l1 ++ String.concat "" l2)%string.
Proof.
  induction l1 as [|a l1 IH]; simpl; [reflexivity|].
  destruct l1 as [|b l1].
  - simpl. destruct l2 as [|c l2]; simpl; [now rewrite append_empty_r | reflexivity].
  - simpl in *. now rewrite IH, append_assoc.
Qed.

Lemma concat_empty_cons (a : string) (l : list string) :
  String.concat "" (a :: l) = (a ++ String.concat "" l)%string.
Proof. apply (concat_empty_app [a] l). Qed.

Lemma has_non_space_append (a b : string) :
  Str.has_non_space (a ++ b) = (Str.has_non_space a || Str.has_non_space b)%bool.
Proof.
  induction a as [|c a IH]; simpl; [reflexivity|].
  now rewrite IH, orb_assoc.
Qed.

Lemma all_space_no_non_space (s : string) :
  all_chars Str.is_space s = true -> Str.has_non_space s = false.
Proof.
  induction s as [|c s IH]; simpl; [reflexivity|].
  intros H. apply andb_true_iff in H as [Hc Hs].
  now rewrite Hc, (IH Hs).
Qed.

Lemma has_non_space_lstrip (s : string) :
  Str.has_non_space (Str.lstrip s) = Str.has_non_space s.
Proof.
  induction s as [|c s IH]; simpl; [reflexivity|].
  destruct (Str.is_space c) eqn:Hc; simpl; [exact IH | now rewrite Hc].
Qed.

Lemma has_non_space_rstrip (s : string) :
  Str.has_non_space (Str.rstrip s) = Str.has_non_space s.
Proof.
  induction s as [|c s IH]; simpl; [reflexivity|].
  destruct (Str.is_space c) eqn:Hc; simpl.
  - destruct (Str.rstrip s) eqn:Hr; simpl in *; [now rewrite <- IH | now rewrite Hc, IH].
  - now rewrite Hc.
Qed.

Lemma has_non_space_strip (s : string) :
  Str.has_non_space (Str.strip s) = Str.has_non_space s.
Proof. unfold Str.strip. now rewrite has_non_space_rstrip, has_non_space_lstrip. Qed.

Lemma has_non_space_truthy (s : string) :
  Str.has_non_space s = true -> Str.truthy s = true.
Proof. now destruct s. Qed.

Lemma lstrip_head (s : string) :
  Str.lstrip s = "" \/ Str.has_non_space (Str.lstrip s) = true.
Proof.
  induction s as [|c s IH]; simpl; [now left|].
  destruct (Str.is_space c) eqn:Hc; [exact IH|]. right. simpl. now rewrite Hc.
Qed.

(** [strip] leaves something exactly when the text is not blank. *)
Lemma truthy_strip (s : string) :
  Str.truthy (Str.strip s) = Str.has_non_space s.
Proof.
  destruct (Str.has_non_space s) eqn:H.
  - apply has_non_space_truthy. now rewrite has_non_space_strip.
  - unfold Str.strip. destruct (lstrip_head s) as [-> | Hl]; [reflexivity|].
    rewrite has_non_space_lstrip in Hl. congruence.
Qed.

(** ** Facts about the matcher *)

Lemma greedy_through f cs k res :
  forall s lo hi p g,
    re.greedy f cs lo hi p s g k = Some res ->
    exists u t p',
      s = (u ++ t)%string /\ all_chars (re.cset_mem f cs) u = true /\
      lo <= String.length u /\
      k {| re.prev := p'; re.rest := t; re.groups := g |} = Some res.
Proof.
  induction s as [|c s IH]; intros lo hi p g H; simpl in H.
  - assert (Hstop : match lo with
                    | 0 => k {| re.prev := p; re.rest := ""; re.groups := g |}
                    | S _ => None end = Some res)
      by (destruct (re.hi_zero hi); exact H).
    destruct lo; [|discriminate].
    exists "", "", p. repeat split; auto.
  - assert (Hcases :
      (re.cset_mem f cs c = true /\
          re.greedy f cs (Nat.pred lo) (re.hi_pred hi) (Some c) s g k = Some res) \/
      match lo with
      | 0 => k {| re.prev := p; re.rest := String c s; re.groups := g |}
      | S _ => None end = Some res).
    { destruct (re.hi_zero hi); [now right|].
      destruct (re.cset_mem f cs c) eqn:Hc; [|now right].
      destruct (re.greedy f cs (Nat.pred lo) (re.hi_pred hi) (Some c) s g k) eqn:Hg.
      - left. split; [reflexivity|]. now rewrite <- H.
      - now right. }
    destruct Hcases as [[Hc Hg] | Hstop].
    + destruct (IH _ _ _ _ Hg) as (u & t & p' & -> & Hall & Hlo & Hk).
      exists (String c u), t, p'. simpl. rewrite Hc, Hall.
      repeat split; auto. lia.
    + destruct lo; [|discriminate].
      exists "", (String c s), p. repeat split; auto.
Qed.

Lemma lazy_through f cs k res :
  forall s lo hi p g,
    re.lazy f cs lo hi p s g k = Some res ->
    exists u t p',
      s = (u ++ t)%string /\ all_chars (re.cset_mem f cs) u = true /\
      lo <= String.length u /\
      k {| re.prev := p'; re.rest := t; re.groups := g |} = Some res.
Proof.
  induction s as [|c s IH]; intros lo hi p g H; simpl in H.
  - assert (Hmore : (if re.hi_zero hi then None else None) = @None re.mstate)
      by (now destruct (re.hi_zero hi)).
    rewrite Hmore in H.
    destruct lo; [|discriminate].
    destruct (k {| re.prev := p; re.rest := ""; re.groups := g |}) eqn:Hk; [|discriminate].
    exists "", "", p. repeat split; auto. now rewrite Hk.
  - set (more := if re.hi_zero hi then None
                 else if re.cset_mem f cs c
                      then re.lazy f cs (Nat.pred lo) (re.hi_pred hi) (Some c) s g k
                      else None) in H.
    assert (Hmore : more = Some res ->
                    exists u t p',
                      String c s = (u ++ t)%string /\
                      all_chars (re.cset_mem f cs) u = true /\
                      lo <= String.length u /\
                      k {| re.prev := p'; re.rest := t; re.groups := g |} = Some res).
    { unfold more. destruct (re.hi_zero hi); [discriminate|].
      destruct (re.cset_mem f cs c) eqn:Hc; [|discriminate].
      intros Hl. destruct (IH _ _ _ _ Hl) as (u & t & p' & -> & Hall & Hlo & Hk).
      exists (String c u), t, p'. simpl. rewrite Hc, Hall.
      repeat split; auto. lia. }
    destruct lo.
    + destruct (k {| re.prev := p; re.rest := String c s; re.groups := g |}) eqn:Hk.
      * exists "", (String c s), p. repeat split; auto. now rewrite Hk.
      * apply Hmore in H. destruct H as (u & t & p' & E & Hall & _ & Hk').
        exists u, t, p'. repeat split; auto. lia.
    + now apply Hmore.
Qed.

Lemma eat_lit_through f lit :
  forall p s p' t,
    re.eat_lit f lit p s = Some (p', t) ->
    exists u, s = (u ++ t)%string /\ String.length u = String.length lit /\
              (re.IGNORECASE f = false -> u = lit).
Proof.
  induction lit as [|a lit IH]; intros p s p' t H; simpl in H.
  - injection H as <- <-. exists "". repeat split; auto.
  - destruct s as [|c s]; [discriminate|].
    destruct (re.char_eq f a c) eqn:Hc; [|discriminate].
    destruct (IH _ _ _ _ H) as (u & -> & Hlen & Hu).
    exists (String c u). simpl. repeat split; auto.
    intros Hf. rewrite (Hu Hf). f_equal.
    unfold re.char_eq in Hc. rewrite Hf in Hc.
    apply Ascii.eqb_eq in Hc. now subst.
Qed.

Lemma run_through f r :
  forall st k res, re.run f r st k = Some res -> handed_over k res (re.rest st).
Proof.
  unfold handed_over.
  induction r as [lit|cs|cs lo hi|cs lo hi|a IHa b IHb|a IHa b IHb|n a IHa| | | | |cs|a IHa];
    intros st k res H; simpl in H.
  - destruct (re.eat_lit f lit (re.prev st) (re.rest st)) as [[p t]|] eqn:He; [|discriminate].
    destruct (eat_lit_through _ _ _ _ _ _ He) as (u & E & _).
    eexists. split; [exact H|]. exists u. exact E.
  - destruct (re.rest st) as [|c t] eqn:Hr; [discriminate|].
    destruct (re.cset_mem f cs c); [|discriminate].
    eexists. split; [exact H|]. exists (String c ""). reflexivity.
  - destruct (greedy_through _ _ _ _ _ _ _ _ _ H) as (u & t & p' & E & _ & _ & Hk).
    eexists. split; [exact Hk|]. exists u. exact E.
  - destruct (lazy_through _ _ _ _ _ _ _ _ _ H) as (u & t & p' & E & _ & _ & Hk).
    eexists. split; [exact Hk|]. exists u. exact E.
  - destruct (IHa _ _ _ H) as (st1 & H1 & u1 & E1).
    destruct (IHb _ _ _ H1) as (st2 & H2 & u2 & E2).
    exists st2. split; [exact H2|]. exists (u1 ++ u2)%string.
    now rewrite E1, E2, append_assoc.
  - destruct (re.run f a st k) eqn:Ha.
    + injection H as <-. now apply IHa.
    + now apply IHb.
  - destruct (IHa _ _ _ H) as (st1 & H1 & u1 & E1).
    eexists. split; [exact H1|]. exists u1. exact E1.
  - destruct (re.at_bol f st); [|discriminate].
    exists st. split; [exact H|]. now exists "".
  - destruct (re.at_eol f st); [|discriminate].
    exists st. split; [exact H|]. now exists "".
  - destruct (Str.is_empty (re.rest st)); [|discriminate].
    exists st. split; [exact H|]. now exists "".
  - destruct (re.at_wordb st); [|discriminate].
    exists st. split; [exact H|]. now exists "".
  - destruct (re.prev st) as [c|]; [|discriminate].
    destruct (re.cset_mem f cs c); [|discriminate].
    exists st. split; [exact H|]. now exists "".
  - destruct (re.run f a st re.accept); [|discriminate].
    exists st. split; [exact H|]. now exists "".
Qed.

(** A match at the head of [s] is a prefix of [s]; its groups are those of
    the final state. *)
Lemma match_here_prefix f r ma p s h :
  re.match_here f r ma p s = Some h ->
  exists t, s = (re.h_text h ++ t)%string /\
            (ma = true -> re.h_text h <> "").
Proof.
  unfold re.match_here.
  destruct (re.run f r _ _) as [st'|] eqn:Hrun; [|discriminate].
  intros [= <-]. simpl.
  destruct (run_through _ _ _ _ _ Hrun) as (st1 & Hfin & u & E).
  unfold re.finish in Hfin. simpl in E.
  destruct (ma && _)%bool eqn:Hma; [discriminate|].
  injection Hfin as ->. subst s.
  exists (re.rest st'). rewrite !take_append_length.
  split; [reflexivity|].
  intros ->. simpl in Hma. apply Nat.eqb_neq in Hma.
  intros ->. now apply Hma.
Qed.

Lemma scan_reassemble f r :
  forall s skip p, reassemble (re.scan f r skip p s) = Str.drop skip s.
Proof.
  unfold reassemble.
  induction s as [|c s IH]; intros skip p; simpl.
  - destruct skip; [|reflexivity].
    destruct (re.match_here f r false p "") as [h|] eqn:Hm; [|reflexivity].
    destruct (match_here_prefix _ _ _ _ _ _ Hm) as (t & E & _).
    simpl. destruct (re.h_text h); [reflexivity | discriminate].
  - destruct skip as [|k]; [|apply IH].
    destruct (re.match_here f r false p (String c s)) as [h|] eqn:Hm.
    + destruct (match_here_prefix _ _ _ _ _ _ Hm) as (t & E & _).
      destruct (String.length (re.h_text h)) as [|k] eqn:Hlen.
      * destruct (re.h_text h) as [|x u] eqn:Hu; [|discriminate].
        destruct (re.match_here f r true p (String c s)) as [h'|] eqn:Hm'.
        -- destruct (match_here_prefix _ _ _ _ _ _ Hm') as (t' & E' & Hne).
           specialize (Hne eq_refl).
           destruct (re.h_text h') as [|x' u'] eqn:Hu'; [congruence|].
           simpl in E'. injection E' as <- ->.
           cbn [map fst snd]. rewrite !concat_empty_cons. cbn [fst snd].
           replace (String.length (String c u') - 1) with (String.length u')
             by (simpl; lia).
           rewrite Hu, Hu'. simpl. f_equal. rewrite append_assoc.
           specialize (IH (String.length u') (Some c)). simpl in IH.
           rewrite IH, drop_append_length. reflexivity.
        -- cbn [map fst snd]. rewrite !concat_empty_cons. cbn [fst snd].
           rewrite Hu. simpl. f_equal. apply (IH 0 (Some c)).
      * destruct (re.h_text h) as [|x u] eqn:Hu; [discriminate|].
        simpl in E. injection E as <- ->. simpl in Hlen. injection Hlen as <-.
        cbn [map fst snd]. rewrite !concat_empty_cons. cbn [fst snd].
        rewrite Hu. simpl. f_equal.
        rewrite append_assoc.
        specialize (IH (String.length u) (Some c)). simpl in IH.
        rewrite IH, drop_append_length. reflexivity.
    + unfold re.push_gap. simpl. f_equal. apply (IH 0 (Some c)).
Qed.

(** Every match reported by a scan was found by [match_here]. *)
Lemma scan_hits f r (P : re.hit -> Prop) :
  (forall ma p s h, re.match_here f r ma p s = Some h -> P h) ->
  forall s skip p, Forall (fun y => P (fst y)) (snd (re.scan f r skip p s)).
Proof.
  intros HP. induction s as [|c s IH]; intros skip p; simpl.
  - destruct skip; [|constructor].
    destruct (re.match_here f r false p "") as [h|] eqn:Hm; repeat constructor.
    eapply HP, Hm.
  - destruct skip as [|k]; [|apply IH].
    destruct (re.match_here f r false p (String c s)) as [h|] eqn:Hm.
    + destruct (String.length (re.h_text h)).
      * destruct (re.match_here f r true p (String c s)) as [h'|] eqn:Hm'; simpl.
        -- constructor; [eapply HP, Hm|]. constructor; [eapply HP, Hm'|]. apply IH.
        -- constructor; [eapply HP, Hm|]. apply IH.
      * simpl. constructor; [eapply HP, Hm|]. apply IH.
    + apply IH.
Qed.

(** ** Section splitting (SemanticChunker._split_by_sections) *)

(** A pattern of the shape [^(...)]: group 1 is the whole match. *)
Lemma whole_match_group f body ma p s h :
  re.match_here f (re.Seq re.Bol (re.Group 1 body)) ma p s = Some h ->
  re.group h 1 = re.h_text h.
Proof.
  unfold re.match_here. simpl.
  destruct (re.at_bol f _); [|discriminate].
  destruct (re.run f body _ _) as [st'|] eqn:Hrun; [|discriminate].
  intros [= <-].
  destruct (run_through _ _ _ _ _ Hrun) as (st1 & Hfin & _).
  unfold re.finish in Hfin.
  destruct (ma && _)%bool; [discriminate|].
  injection Hfin as <-.
  unfold re.group. simpl. reflexivity.
Qed.

Lemma split1_reassemble f r s :
  Forall (fun y => re.group (fst y) 1 = re.h_text (fst y)) (snd (re.finditer f r s)) ->
  String.concat "" (re.split1 f r s) = s.
Proof.
  intros Hall. unfold re.split1.
  rewrite concat_empty_cons.
  transitivity (reassemble (re.finditer f r s)); [|apply (scan_reassemble f r s 0 None)].
  unfold reassemble. f_equal.
  induction Hall as [|y l Hy _ IH]; [reflexivity|].
  cbn [flat_map map app]. rewrite !concat_empty_cons, IH, Hy.
  now rewrite append_assoc.
Qed.

Lemma combine_pairs_concat (l : list string) :
  String.concat "" (SemanticChunker.combine_pairs l) = String.concat "" l.
Proof.
  assert (H : forall l,
             String.concat "" (SemanticChunker.combine_pairs l) = String.concat "" l /\
             forall a, String.concat "" (SemanticChunker.combine_pairs (a :: l))
                       = String.concat "" (a :: l)).
  { clear l. induction l as [|b l [IH1 IH2]].
    - split; [reflexivity | intros a; reflexivity].
    - split; [apply IH2|]. intros a.
      cbn [SemanticChunker.combine_pairs].
      rewrite !concat_empty_cons, IH1. apply append_assoc. }
  apply H.
Qed.

Lemma sections_reassemble (content : string) :
  String.concat "" (SemanticChunker._split_by_sections content) = content.
Proof.
  unfold SemanticChunker._split_by_sections.
  rewrite combine_pairs_concat.
  apply split1_reassemble.
  apply (scan_hits re.flag_m SemanticChunker.section_pattern
           (fun h => re.group h 1 = re.h_text h)).
  intros ma p s h. apply whole_match_group.
Qed.

(** C10.  The sections returned by [_split_by_sections], concatenated in
    order, are the original content: section splitting neither loses nor
    duplicates text. *)
Theorem split_by_sections_concat (content : string) :
  String.concat "" (SemanticChunker._split_by_sections content) = content.
Proof.
  (* pieces and delimiters of the split reassemble to the content, and the
     pairing loop keeps their concatenation *)
  apply sections_reassemble.
Qed.

(** ** The orchestrator (IntelligentChunker.process_document) *)

Lemma enumerate_fst {A : Type} (l : list A) :
  forall a, map fst (combine (seq a (List.length l)) l) = seq a (List.length l).
Proof. induction l as [|x l IH]; intros a; simpl; [reflexivity | now rewrite IH]. Qed.

Lemma enumerate_snd {A : Type} (l : list A) :
  forall a, map snd (combine (seq a (List.length l)) l) = l.
Proof. induction l as [|x l IH]; intros a; simpl; [reflexivity | now rewrite IH]. Qed.

(** C1.  The result has as many metadata entries as chunks, [total_chunks]
    is that number, the chunk indices are 0, 1, ..., total_chunks - 1 in
    this order, and the i-th entry describes the i-th chunk. *)
Theorem process_document_metadata_dense
    (count_tokens : string -> nat) (md5_hexdigest : string -> string) (now : string)
    (content filename : string) (doc_id : option string) :
  let r := IntelligentChunker.process_document count_tokens md5_hexdigest now
             content filename doc_id in
  List.length (IntelligentChunker.r_chunks r) = List.length (IntelligentChunker.r_metadata r)
  /\ List.length (IntelligentChunker.r_metadata r) = IntelligentChunker.r_total_chunks r
  /\ map IntelligentChunker.m_chunk_index (IntelligentChunker.r_metadata r)
     = seq 0 (IntelligentChunker.r_total_chunks r)
  /\ map IntelligentChunker.m_token_count (IntelligentChunker.r_metadata r)
     = map count_tokens (IntelligentChunker.r_chunks r).
Proof.
  cbn zeta. unfold IntelligentChunker.process_document. cbn [IntelligentChunker.r_chunks
    IntelligentChunker.r_metadata IntelligentChunker.r_total_chunks].
  set (chunks := IntelligentChunker.chunkers count_tokens _ content _).
  set (mk := IntelligentChunker.make_metadata count_tokens _ _ _).
  assert (Hidx : forall x, IntelligentChunker.m_chunk_index (IntelligentChunker.entry_of (mk x)) = fst x)
    by (intros [i c]; reflexivity).
  assert (Htok : forall x, IntelligentChunker.m_token_count (IntelligentChunker.entry_of (mk x))
                           = count_tokens (snd x))
    by (intros [i c]; reflexivity).
  unfold enumerate. rewrite !length_map, length_combine, length_seq, Nat.min_id.
  repeat split.
  - rewrite !map_map. rewrite (map_ext _ fst) by exact Hidx. apply enumerate_fst.
  - rewrite !map_map. rewrite (map_ext _ (fun x => count_tokens (snd x))) by exact Htok.
    rewrite <- (map_map snd count_tokens). now rewrite enumerate_snd.
Qed.

(** A document of the API genre without fences: the code-aware strategy
    hands the text to the semantic chunker. *)
Example process_document_api_scenario :
  let r := IntelligentChunker.process_document char_tokens md5_table "2026-01-01T00:00:00"
             ("# Title" ++ Str.nlnl
              ++ "Some api endpoint description with REST request handling.")
             "" (Some "doc") in
  IntelligentChunker.r_document_type r = "api_reference"
  /\ IntelligentChunker.r_chunking_strategy r = "code_aware"
  /\ IntelligentChunker.r_chunks r
     = ["# Title"; "Some api endpoint description with REST request handling."]
  /\ map IntelligentChunker.m_chunk_id (IntelligentChunker.r_metadata r)
     = ["doc_chunk_0"; "doc_chunk_1"]
  /\ map IntelligentChunker.m_section_title (IntelligentChunker.r_metadata r)
     = [Some "Title"; None].
Proof. repeat split. Qed.

(** C8 fails as stated: an identifier supplied as the empty string is
    replaced by the hash prefix. *)
Lemma supplied_empty_id_is_replaced :
  IntelligentChunker.r_document_id
    (IntelligentChunker.process_document char_tokens md5_table "2026-01-01T00:00:00"
       "hello" "" (Some "")) = "5d41402a"
  /\ IntelligentChunker.r_document_id
       (IntelligentChunker.process_document char_tokens md5_table "2026-01-01T00:00:00"
          "hello" "" (Some "")) <> "".
Proof. split; [reflexivity | discriminate]. Qed.

(** C8, amended.  A supplied non-empty identifier is kept; an absent or
    empty one is replaced by the first 8 characters of the content digest,
    which depends on the content alone. *)
Theorem document_id_supplied_or_derived
    (count_tokens : string -> nat) (md5_hexdigest : string -> string)
    (content : string) :
  (forall now filename d, d <> "" ->
     IntelligentChunker.r_document_id
       (IntelligentChunker.process_document count_tokens md5_hexdigest now
          content filename (Some d)) = d)
  /\ (forall now filename,
        IntelligentChunker.r_document_id
          (IntelligentChunker.process_document count_tokens md5_hexdigest now
             content filename None) = Str.take 8 (md5_hexdigest content))
  /\ (forall now filename,
        IntelligentChunker.r_document_id
          (IntelligentChunker.process_document count_tokens md5_hexdigest now
             content filename (Some "")) = Str.take 8 (md5_hexdigest content))
  /\ (forall now now' filename filename',
        IntelligentChunker.r_document_id
          (IntelligentChunker.process_document count_tokens md5_hexdigest now
             content filename None)
        = IntelligentChunker.r_document_id
            (IntelligentChunker.process_document count_tokens md5_hexdigest now'
               content filename' None)).
Proof.
  repeat split; intros; try reflexivity.
  simpl. unfold IntelligentChunker.resolve_doc_id.
  destruct d; [congruence | reflexivity].
Qed.

Lemma document_id_supplied_or_derived_witness :
  IntelligentChunker.r_document_id
    (IntelligentChunker.process_document char_tokens md5_table "2026-01-01T00:00:00"
       "hello" "notes.txt" (Some "doc-1")) = "doc-1".
Proof.
  apply (proj1 (document_id_supplied_or_derived char_tokens md5_table "hello")).
  discriminate.
Defined.

(** ** The empty document *)

Lemma semantic_chunk_empty count_tokens max_tokens doc_type :
  SemanticChunker.chunk count_tokens max_tokens "" doc_type = [].
Proof.
  unfold SemanticChunker.chunk.
  change (SemanticChunker._split_by_sections "") with [""].
  cbn [flat_map].
  destruct (count_tokens "" <=? max_tokens) eqn:H; [reflexivity|].
  unfold SemanticChunker._split_by_sentences.
  change (re.split re.no_flags SemanticChunker.sentence_pattern "") with [""].
  cbn [SemanticChunker.pack_sentences Str.truthy Str.is_empty negb].
  rewrite H. reflexivity.
Qed.

Lemma code_aware_chunk_empty count_tokens max_tokens doc_type :
  CodeAwareChunker.chunk count_tokens max_tokens "" doc_type = [].
Proof. reflexivity. Qed.

Lemma hierarchical_chunk_empty count_tokens max_tokens doc_type :
  HierarchicalChunker.chunk count_tokens max_tokens "" doc_type = [].
Proof. reflexivity. Qed.

Lemma chunkers_empty count_tokens strategy doc_type :
  IntelligentChunker.chunkers count_tokens strategy "" doc_type = [].
Proof.
  destruct strategy; simpl.
  - apply semantic_chunk_empty.
  - apply code_aware_chunk_empty.
  - apply hierarchical_chunk_empty.
  - apply semantic_chunk_empty.
Qed.

(** C4 fails as stated: on the empty document the call returns a result,
    with no chunk. *)
Lemma empty_content_returns_a_result :
  call_process_document char_tokens md5_table "2026-01-01T00:00:00" "" "" None
  = Returns {| IntelligentChunker.r_document_id := "d41d8cd9";
               IntelligentChunker.r_document_type := "unknown";
               IntelligentChunker.r_chunking_strategy := "semantic";
               IntelligentChunker.r_chunks := [];
               IntelligentChunker.r_metadata := [];
               IntelligentChunker.r_total_chunks := 0;
               IntelligentChunker.r_processing_timestamp := "2026-01-01T00:00:00" |}
  /\ call_process_document char_tokens md5_table "2026-01-01T00:00:00" "" "" None
     <> Raises "InvalidInput".
Proof. split; [reflexivity | discriminate]. Qed.

(** C4, amended.  On the empty document the call raises nothing: it
    returns a result with no chunk, no metadata entry and
    [total_chunks = 0], whatever the filename and the identifier. *)
Theorem empty_content_yields_empty_result
    (count_tokens : string -> nat) (md5_hexdigest : string -> string) (now : string)
    (filename : string) (doc_id : option string) :
  exists r,
    call_process_document count_tokens md5_hexdigest now "" filename doc_id = Returns r
    /\ IntelligentChunker.r_chunks r = []
    /\ IntelligentChunker.r_metadata r = []
    /\ IntelligentChunker.r_total_chunks r = 0.
Proof.
  eexists. split; [reflexivity|].
  unfold IntelligentChunker.process_document.
  cbn [IntelligentChunker.r_chunks IntelligentChunker.r_metadata
       IntelligentChunker.r_total_chunks].
  rewrite chunkers_empty. repeat split.
Qed.

(** ** The classifier (DocumentClassifier.classify) *)

Lemma score_is_sum content pats :
  DocumentClassifier.score content pats
  = list_sum (map (fun pattern => re.count re.flag_i pattern content) pats).
Proof.
  unfold DocumentClassifier.score.
  assert (H : forall l a,
             fold_left (fun score pattern => score + re.count re.flag_i pattern content) l a
             = a + list_sum (map (fun pattern => re.count re.flag_i pattern content) l)).
  { induction l as [|p l IH]; intros a; simpl; [lia|]. rewrite IH. lia. }
  apply (H pats 0).
Qed.

(** [max_from] returns the first entry with the largest value: [seen] are
    the entries before the best one so far, [mid] those passed over since. *)
Lemma max_from_first_max (l : list (DocumentType * nat)) :
  forall best seen mid,
    (forall x, In x seen -> snd x < snd best) ->
    (forall x, In x mid -> snd x <= snd best) ->
    exists pre post,
      seen ++ best :: mid ++ l = pre ++ DocumentClassifier.max_from best l :: post
      /\ (forall x, In x pre -> snd x < snd (DocumentClassifier.max_from best l))
      /\ (forall x, In x post -> snd x <= snd (DocumentClassifier.max_from best l)).
Proof.
  induction l as [|y l IH]; intros best seen mid Hseen Hmid; simpl.
  - exists seen, mid. rewrite app_nil_r. auto.
  - destruct (snd best <? snd y) eqn:Hlt.
    + apply Nat.ltb_lt in Hlt.
      destruct (IH y (seen ++ best :: mid) []) as (pre & post & E & Hpre & Hpost).
      { intros x Hx. apply in_app_or in Hx as [Hx | [<- | Hx]].
        - specialize (Hseen x Hx). lia.
        - exact Hlt.
        - specialize (Hmid x Hx). lia. }
      { intros x []. }
      exists pre, post. rewrite <- E. rewrite <- app_assoc. auto.
    + apply Nat.ltb_ge in Hlt.
      destruct (IH best seen (mid ++ [y])) as (pre & post & E & Hpre & Hpost).
      { exact Hseen. }
      { intros x Hx. apply in_app_or in Hx as [Hx | [<- | []]]; auto. }
      exists pre, post. rewrite <- E. rewrite <- (app_assoc mid). auto.
Qed.

(** The score table of a document: for every genre of the pattern table, in
    the order of the table, the total number of matches of its patterns. *)
Lemma scores_table content :
  DocumentClassifier.scores content
  = map (fun x => (fst x, list_sum (map (fun pattern => re.count re.flag_i pattern content)
                                      (snd x))))
      DocumentClassifier.patterns.
Proof.
  unfold DocumentClassifier.scores. apply map_ext. intros x.
  now rewrite score_is_sum.
Qed.

(** C6.  When no filename rule applies, the genres are scored in the order
    of the pattern table; [classify] splits the score table at the first
    entry with the largest score and answers that genre, or UNKNOWN when
    that score is at most 2. *)
Theorem classify_first_maximum (content filename : string) :
  DocumentClassifier.filename_rule filename = None ->
  map fst (DocumentClassifier.scores content)
  = [API_REFERENCE; TECHNICAL_DOC; SUPPORT_TICKET; POLICY; TUTORIAL; CODE]
  /\ (forall genre n, In (genre, n) (DocumentClassifier.scores content) ->
        exists pats, In (genre, pats) DocumentClassifier.patterns
                     /\ n = list_sum (map (fun pattern => re.count re.flag_i pattern content) pats))
  /\ exists pre genre n post,
       DocumentClassifier.scores content = pre ++ (genre, n) :: post
       /\ (forall x, In x pre -> snd x < n)
       /\ (forall x, In x post -> snd x <= n)
       /\ DocumentClassifier.classify content filename
          = if n <=? 2 then UNKNOWN else genre.
Proof.
  intros Hfile. split; [reflexivity|]. split.
  - intros genre n Hin. rewrite scores_table in Hin.
    apply in_map_iff in Hin as ([g pats] & [= <- <-] & Hin).
    exists pats. split; [exact Hin | reflexivity].
  - unfold DocumentClassifier.classify. rewrite Hfile.
    destruct (DocumentClassifier.scores content) as [|x tl] eqn:Hs.
    + discriminate Hs.
    + cbn [DocumentClassifier.py_max].
      destruct (max_from_first_max tl x [] []) as (pre & post & E & Hpre & Hpost);
        try (intros ? []).
      destruct (DocumentClassifier.max_from x tl) as [genre n] eqn:Hmax.
      exists pre, genre, n, post. simpl in *.
      repeat split; auto.
      destruct (2 <? n) eqn:H2; destruct (n <=? 2) eqn:H2'; try reflexivity.
      * apply Nat.ltb_lt in H2. apply Nat.leb_le in H2'. lia.
      * apply Nat.ltb_ge in H2. apply Nat.leb_gt in H2'. lia.
Qed.

Lemma classify_first_maximum_witness :
  map fst (DocumentClassifier.scores "api rest json system design module")
  = [API_REFERENCE; TECHNICAL_DOC; SUPPORT_TICKET; POLICY; TUTORIAL; CODE]
  /\ (forall genre n,
        In (genre, n) (DocumentClassifier.scores "api rest json system design module") ->
        exists pats, In (genre, pats) DocumentClassifier.patterns
                     /\ n = list_sum (map (fun pattern =>
                                             re.count re.flag_i pattern
                                               "api rest json system design module") pats))
  /\ exists pre genre n post,
       DocumentClassifier.scores "api rest json system design module"
       = pre ++ (genre, n) :: post
       /\ (forall x, In x pre -> snd x < n)
       /\ (forall x, In x post -> snd x <= n)
       /\ DocumentClassifier.classify "api rest json system design module" "notes.txt"
          = if n <=? 2 then UNKNOWN else genre.
Proof.
  apply (classify_first_maximum "api rest json system design module" "notes.txt").
  reflexivity.
Defined.

(** A tie: API_REFERENCE and TECHNICAL_DOC both score 3; the pattern table
    lists API_REFERENCE first, and it wins. *)
Example classify_tie :
  DocumentClassifier.scores "api rest json system design module"
  = [(API_REFERENCE, 3); (TECHNICAL_DOC, 3); (SUPPORT_TICKET, 0);
     (POLICY, 0); (TUTORIAL, 0); (CODE, 0)]
  /\ DocumentClassifier.classify "api rest json system design module" "notes.txt"
     = API_REFERENCE.
Proof. split; reflexivity. Qed.

(** The low-confidence guard: a best score of 2 gives UNKNOWN. *)
Example classify_low_score :
  DocumentClassifier.classify "api rest" "notes.txt" = UNKNOWN.
Proof. reflexivity. Qed.

(** ** Headers and their bodies *)

(** C3: the code at a document with two headed sections.  Each header is
    joined to the text before it, not to the text after it: ["# B"] ends
    the unit that carries the body of ["# A"], and its own body stands
    alone. *)
Theorem split_by_sections_joins_header_to_preceding_text :
  SemanticChunker._split_by_sections
    ("# A" ++ Str.nl ++ "body a" ++ Str.nl ++ "# B" ++ Str.nl ++ "body b")
  = [ "# A";
      (Str.nl ++ "body a" ++ Str.nl ++ "# B")%string;
      (Str.nl ++ "body b")%string ]
  /\ re.split1 re.flag_m SemanticChunker.section_pattern
       ("# A" ++ Str.nl ++ "body a" ++ Str.nl ++ "# B" ++ Str.nl ++ "body b")
     = [ ""; "# A"; (Str.nl ++ "body a" ++ Str.nl)%string; "# B"; (Str.nl ++ "body b")%string ].
Proof. split; reflexivity. Qed.

(** ** Title-only sections of the hierarchical chunker *)

(** C9: the code at a document made of one heading.  Within the budget the
    section is returned through the early return: the chunk is the title
    prefix itself, with its two trailing newlines. *)
Theorem hierarchical_title_only_section (count_tokens : string -> nat) (max_tokens : nat)
    (doc_type : DocumentType) :
  HierarchicalChunker.chunk count_tokens max_tokens "# Title" doc_type
  = (if count_tokens (HierarchicalChunker.title_prefix "Title") <=? max_tokens
     then [HierarchicalChunker.title_prefix "Title"]
     else ["# Title"])
  /\ HierarchicalChunker.title_prefix "Title" = ("# Title" ++ Str.nlnl)%string
  /\ Str.strip (HierarchicalChunker.title_prefix "Title")
     <> HierarchicalChunker.title_prefix "Title".
Proof.
  split; [|split; [reflexivity | discriminate]].
  unfold HierarchicalChunker.chunk.
  change (HierarchicalChunker._parse_structure "# Title")
    with [ {| HierarchicalChunker.level := 1;
              HierarchicalChunker.title := "Title";
              HierarchicalChunker.content := [] |} ].
  cbn [flat_map]. unfold HierarchicalChunker._chunk_section.
  cbn [HierarchicalChunker.title HierarchicalChunker.content Str.join String.concat].
  rewrite append_empty_r, app_nil_r.
  destruct (count_tokens (HierarchicalChunker.title_prefix "Title") <=? max_tokens);
    [reflexivity|].
  change (Str.split Str.nlnl "") with [""].
  cbn [HierarchicalChunker.pack_parts].
  destruct (count_tokens _ <=? max_tokens); reflexivity.
Qed.

Example process_document_title_only :
  IntelligentChunker.r_chunks
    (IntelligentChunker.process_document char_tokens md5_table "2026-01-01T00:00:00"
       "# Title" "policy.md" None)
  = [("# Title" ++ Str.nlnl)%string].
Proof. reflexivity. Qed.

(** ** Token budget of the packing loops *)

Lemma join_snoc (sep : string) (g : list string) (s : string) :
  g <> [] -> Str.join sep (g ++ [s]) = (Str.join sep g ++ sep ++ s)%string.
Proof.
  unfold Str.join. induction g as [|a g IH]; [congruence|]. intros _.
  destruct g as [|b g]; [reflexivity|].
  cbn [app String.concat] in *. rewrite IH by discriminate.
  now rewrite !append_assoc.
Qed.

Lemma truthy_join (sep s : string) (g : list string) :
  Str.truthy s = true -> Str.truthy (Str.join sep (s :: g)) = true.
Proof.
  destruct s as [|c s]; [discriminate|]. intros _.
  unfold Str.join. simpl. now destruct g.
Qed.


Lemma join_start_group (sep s : string) : Str.join sep (start_group s) = s.
Proof. unfold start_group. now destruct s. Qed.

Lemma filter_start_group (a tl : list string) (s : string) :
  filter Str.truthy (a ++ start_group s ++ tl) = filter Str.truthy (a ++ s :: tl).
Proof.
  rewrite !filter_app. f_equal. unfold start_group.
  destruct (Str.truthy s) eqn:Hs; simpl; now rewrite ?Hs.
Qed.

Section SentencePacking.
Variable count_tokens : string -> nat.
Variable max_tokens : nat.

(** The loop of [_split_by_sentences] packs consecutive sentences into
    groups; [groups] are the groups flushed so far and [g] is the group
    of the running chunk. *)
Lemma pack_sentences_groups :
  forall sentences chunks current_chunk groups g,
    chunks = map (Str.join " ") groups ->
    current_chunk = Str.join " " g ->
    headed g ->
    Forall (fun g => g <> []) groups ->
    Forall (within_budget count_tokens max_tokens (Str.join " ")) groups ->
    within_budget count_tokens max_tokens (Str.join " ") g ->
    exists groups',
      SemanticChunker.pack_sentences count_tokens max_tokens sentences chunks current_chunk
      = map (Str.join " ") groups'
      /\ Forall (fun g => g <> []) groups'
      /\ Forall (within_budget count_tokens max_tokens (Str.join " ")) groups'
      /\ filter Str.truthy (concat groups')
         = filter Str.truthy (concat groups ++ g ++ sentences).
Proof.
  induction sentences as [|s tl IH]; intros chunks cur groups g Hch Hcur Hhead Hne Hok Hg;
    cbn [SemanticChunker.pack_sentences].
  - destruct g as [|s0 g0].
    + subst cur. cbn. exists groups. rewrite !app_nil_r. auto.
    + assert (Ht : Str.truthy cur = true)
        by (subst cur; apply truthy_join; exact Hhead).
      rewrite Ht.
      exists (groups ++ [s0 :: g0]). subst. rewrite map_app. cbn [map].
      repeat split.
      * apply Forall_app. split; [exact Hne | repeat constructor; discriminate].
      * apply Forall_app. split; [exact Hok | repeat constructor; exact Hg].
      * rewrite concat_app. cbn [concat]. now rewrite !app_nil_r.
  - destruct g as [|s0 g0].
    + subst cur. cbn [Str.join String.concat Str.truthy Str.is_empty negb].
      assert (Hnext : exists groups',
                 SemanticChunker.pack_sentences count_tokens max_tokens tl chunks s
                 = map (Str.join " ") groups'
                 /\ Forall (fun g => g <> []) groups'
                 /\ Forall (within_budget count_tokens max_tokens (Str.join " ")) groups'
                 /\ filter Str.truthy (concat groups')
                    = filter Str.truthy (concat groups ++ start_group s ++ tl)).
      { apply IH; auto.
        - now rewrite join_start_group.
        - unfold start_group. destruct (Str.truthy s) eqn:Hs; simpl; auto.
        - unfold within_budget, start_group. destruct (Str.truthy s); simpl; lia. }
      destruct Hnext as (groups' & E & H1 & H2 & H3).
      exists groups'. rewrite filter_start_group in H3. cbn [app].
      destruct (count_tokens s <=? max_tokens); auto.
    + assert (Ht : Str.truthy cur = true)
        by (subst cur; apply truthy_join; exact Hhead).
      rewrite Ht.
      assert (Etest : (cur ++ " " ++ s)%string = Str.join " " ((s0 :: g0) ++ [s]))
        by (rewrite join_snoc by discriminate; now subst cur).
      rewrite Etest.
      destruct (count_tokens (Str.join " " ((s0 :: g0) ++ [s])) <=? max_tokens) eqn:Hfit.
      * destruct (IH chunks (Str.join " " ((s0 :: g0) ++ [s])) groups ((s0 :: g0) ++ [s]))
          as (groups' & E & H1 & H2 & H3); auto.
        { intros _. now apply Nat.leb_le. }
        exists groups'. rewrite <- app_assoc in H3. auto.
      * destruct (IH (chunks ++ [cur]) s (groups ++ [s0 :: g0]) (start_group s))
          as (groups' & E & H1 & H2 & H3).
        { subst. now rewrite map_app. }
        { now rewrite join_start_group. }
        { unfold start_group. destruct (Str.truthy s) eqn:Hs; simpl; auto. }
        { apply Forall_app. split; [exact Hne | repeat constructor; discriminate]. }
        { apply Forall_app. split; [exact Hok | repeat constructor; exact Hg]. }
        { unfold within_budget, start_group. destruct (Str.truthy s); simpl; lia. }
        exists groups'. rewrite filter_start_group in H3.
        rewrite concat_app in H3. cbn [concat] in H3.
        rewrite app_nil_r, <- app_assoc in H3. auto.
Qed.

End SentencePacking.

Lemma buffer_nil (title : string) : buffer title [] = HierarchicalChunker.title_prefix title.
Proof. unfold buffer. cbn [map String.concat]. apply append_empty_r. Qed.

Lemma buffer_snoc (title : string) (g : list string) (part : string) :
  buffer title (g ++ [part]) = (buffer title g ++ part ++ Str.nlnl)%string.
Proof.
  unfold buffer. rewrite map_app, concat_empty_app. cbn [map String.concat].
  now rewrite append_assoc.
Qed.

Lemma buffer_is_prefix (title : string) (g : list string) :
  String.eqb (buffer title g) (HierarchicalChunker.title_prefix title) = true <-> g = [].
Proof.
  split.
  - intros H. apply String.eqb_eq in H. destruct g as [|p g]; [reflexivity|].
    exfalso. apply (f_equal String.length) in H. unfold buffer in H.
    cbn [map] in H. rewrite concat_empty_cons, !length_append in H.
    simpl in H. lia.
  - intros ->. rewrite buffer_nil. apply String.eqb_refl.
Qed.

Section ParagraphPacking.
Variable count_tokens : string -> nat.
Variable max_tokens : nat.
Variable title : string.

(** The loop of [_chunk_section] packs consecutive paragraphs into
    groups; every chunk is the trimmed buffer of its group. *)
Lemma pack_parts_groups :
  forall content_parts chunks current_chunk groups g,
    chunks = map (fun g => Str.strip (buffer title g)) groups ->
    current_chunk = buffer title g ->
    Forall (fun g => g <> []) groups ->
    Forall (within_budget count_tokens max_tokens (buffer title)) groups ->
    within_budget count_tokens max_tokens (buffer title) g ->
    exists groups',
      HierarchicalChunker.pack_parts count_tokens max_tokens title content_parts
        chunks current_chunk
      = map (fun g => Str.strip (buffer title g)) groups'
      /\ Forall (fun g => g <> []) groups'
      /\ Forall (within_budget count_tokens max_tokens (buffer title)) groups'
      /\ concat groups' = concat groups ++ g ++ content_parts.
Proof.
  induction content_parts as [|part tl IH];
    intros chunks cur groups g Hch Hcur Hne Hok Hg;
    cbn [HierarchicalChunker.pack_parts].
  - subst cur. destruct g as [|p g0].
    + rewrite (proj2 (buffer_is_prefix title []) eq_refl). cbn.
      exists groups. rewrite !app_nil_r. auto.
    + destruct (String.eqb (buffer title (p :: g0)) _) eqn:He.
      { apply buffer_is_prefix in He. discriminate. }
      cbn [negb]. exists (groups ++ [p :: g0]). subst chunks.
      rewrite map_app. cbn [map]. repeat split.
      * apply Forall_app. split; [exact Hne | repeat constructor; discriminate].
      * apply Forall_app. split; [exact Hok | repeat constructor; exact Hg].
      * rewrite concat_app. cbn [concat]. now rewrite !app_nil_r.
  - assert (Etest : (cur ++ part ++ Str.nlnl)%string = buffer title (g ++ [part]))
      by (subst cur; now rewrite buffer_snoc).
    rewrite Etest.
    destruct (count_tokens (buffer title (g ++ [part])) <=? max_tokens) eqn:Hfit.
    + destruct (IH chunks (buffer title (g ++ [part])) groups (g ++ [part]))
        as (groups' & E & H1 & H2 & H3); auto.
      { intros _. now apply Nat.leb_le. }
      exists groups'. rewrite <- app_assoc in H3. auto.
    + assert (Enew : (HierarchicalChunker.title_prefix title ++ part ++ Str.nlnl)%string
                     = buffer title [part])
        by (unfold buffer; cbn [map String.concat]; reflexivity).
      rewrite Enew. subst cur.
      assert (Hone : within_budget count_tokens max_tokens (buffer title) [part]) by (unfold within_budget; simpl; lia).
      destruct g as [|p g0].
      * rewrite (proj2 (buffer_is_prefix title []) eq_refl). cbn [negb].
        destruct (IH chunks (buffer title [part]) groups [part])
          as (groups' & E & H1 & H2 & H3); auto.
        exists groups'. auto.
      * destruct (String.eqb (buffer title (p :: g0)) _) eqn:He.
        { apply buffer_is_prefix in He. discriminate. }
        cbn [negb].
        destruct (IH (chunks ++ [Str.strip (buffer title (p :: g0))])
                    (buffer title [part]) (groups ++ [p :: g0]) [part])
          as (groups' & E & H1 & H2 & H3); auto.
        { subst chunks. now rewrite map_app. }
        { apply Forall_app. split; [exact Hne | repeat constructor; discriminate]. }
        { apply Forall_app. split; [exact Hok | repeat constructor; exact Hg]. }
        exists groups'. rewrite concat_app in H3. cbn [concat] in H3.
        rewrite app_nil_r, <- app_assoc in H3. auto.
Qed.

End ParagraphPacking.




(** The groups of [_split_by_sentences]: no tokenizer assumption. *)
Lemma split_by_sentences_groups (count_tokens : string -> nat) (max_tokens : nat) content :
  exists groups,
    SemanticChunker._split_by_sentences count_tokens max_tokens content
    = map (Str.join " ") groups
    /\ Forall (fun g => g <> []) groups
    /\ filter Str.truthy (concat groups)
       = filter Str.truthy (re.split re.no_flags SemanticChunker.sentence_pattern content)
    /\ Forall (within_budget count_tokens max_tokens (Str.join " ")) groups.
Proof.
  unfold SemanticChunker._split_by_sentences.
  destruct (pack_sentences_groups count_tokens max_tokens
              (re.split re.no_flags SemanticChunker.sentence_pattern content)
              [] "" [] []) as (groups & E & H1 & H2 & H3);
    try reflexivity; try constructor.
  { unfold within_budget. simpl. lia. }
  exists groups. auto.
Qed.


(** The two loops at work, one token per character and a budget of 24:
    two short sentences share a chunk and the long one stands alone and
    whole; likewise for paragraphs. *)
Example split_by_sentences_run :
  SemanticChunker._split_by_sentences char_tokens 24
    "One two. Three four. This sentence is longer than the budget. End."
  = ["One two. Three four."; "This sentence is longer than the budget."; "End."].
Proof. reflexivity. Qed.

Example chunk_section_run :
  HierarchicalChunker._chunk_section char_tokens 24
    {| HierarchicalChunker.level := 1;
       HierarchicalChunker.title := "T";
       HierarchicalChunker.content :=
         ["aaaa"; ""; "bbbb"; ""; "a paragraph longer than the budget"; ""; "cc"] |}
  = [ ("# T" ++ Str.nlnl ++ "aaaa" ++ Str.nlnl ++ "bbbb")%string;
      ("# T" ++ Str.nlnl ++ "a paragraph longer than the budget")%string;
      ("# T" ++ Str.nlnl ++ "cc")%string ].
Proof. reflexivity. Qed.

(** ** Fenced code blocks (CodeAwareChunker) *)

Lemma rstrip_ends_non_space (a : string) (d : ascii) :
  Str.is_space d = false ->
  Str.rstrip (a ++ String d "") = (a ++ String d "")%string.
Proof.
  intros Hd. induction a as [|c a IH]; simpl.
  - now rewrite Hd.
  - rewrite IH. destruct a; simpl; now rewrite andb_false_r.
Qed.

(** A text that starts and ends with a character that is not whitespace is
    left alone by [strip]. *)
Lemma strip_fixed (c d : ascii) (a : string) :
  Str.is_space c = false -> Str.is_space d = false ->
  Str.strip (String c (a ++ String d "")) = String c (a ++ String d "").
Proof.
  intros Hc Hd. unfold Str.strip. simpl Str.lstrip. rewrite Hc.
  apply (rstrip_ends_non_space (String c a) d Hd).
Qed.

(** A match of the fence pattern is an opening fence, some text, and a
    closing fence. *)
Lemma fence_match_shape ma p s h :
  re.match_here re.no_flags CodeAwareChunker.fence_pattern ma p s = Some h ->
  exists inner,
    re.h_text h = (CodeAwareChunker.fence ++ inner ++ CodeAwareChunker.fence)%string.
Proof.
  unfold re.match_here, CodeAwareChunker.fence_pattern, re.LazyStar.
  cbn [re.run re.prev re.rest re.groups].
  destruct (re.eat_lit _ CodeAwareChunker.fence p s) as [[p1 t1]|] eqn:H1; [|discriminate].
  destruct (re.lazy _ _ _ _ _ _ _ _) as [st'|] eqn:H2; [|discriminate].
  intros [= <-]. cbn [re.h_text].
  destruct (eat_lit_through _ _ _ _ _ _ H1) as (u1 & E1 & _ & Hu1).
  specialize (Hu1 eq_refl). subst u1.
  destruct (lazy_through _ _ _ _ _ _ _ _ _ H2) as (inner & t2 & p2 & E2 & _ & _ & Hk).
  cbn [re.prev re.rest re.groups] in Hk.
  destruct (re.eat_lit _ CodeAwareChunker.fence p2 t2) as [[p3 t3]|] eqn:H3; [|discriminate].
  destruct (eat_lit_through _ _ _ _ _ _ H3) as (u3 & E3 & _ & Hu3).
  specialize (Hu3 eq_refl). subst u3.
  unfold re.finish in Hk. destruct (ma && _)%bool; [discriminate|].
  injection Hk as <-. cbn [re.rest].
  exists inner. subst s t1 t2.
  replace (CodeAwareChunker.fence ++ inner ++ CodeAwareChunker.fence ++ t3)%string
    with ((CodeAwareChunker.fence ++ inner ++ CodeAwareChunker.fence) ++ t3)%string
    by (now rewrite !append_assoc).
  apply take_append_length.
Qed.

Lemma fenced_text_fixed (inner : string) :
  let b := (CodeAwareChunker.fence ++ inner ++ CodeAwareChunker.fence)%string in
  Str.strip b = b /\ Str.truthy b = true /\ Str.has_non_space b = true.
Proof.
  cbn zeta. split; [|split; reflexivity].
  change (CodeAwareChunker.fence ++ inner ++ CodeAwareChunker.fence)%string
    with (String "`" ("``" ++ inner ++ "``" ++ String "`" "")).
  rewrite <- !append_assoc.
  apply strip_fixed; reflexivity.
Qed.

(** The blocks of a document are fenced texts. *)
Lemma extract_code_blocks_fenced content :
  Forall (fun b => exists inner,
              b = (CodeAwareChunker.fence ++ inner ++ CodeAwareChunker.fence)%string)
    (CodeAwareChunker._extract_code_blocks content).
Proof.
  unfold CodeAwareChunker._extract_code_blocks, re.findall, re.finditer.
  apply Forall_map.
  apply (scan_hits re.no_flags CodeAwareChunker.fence_pattern
           (fun h => exists inner,
                re.h_text h = (CodeAwareChunker.fence ++ inner ++ CodeAwareChunker.fence)%string)).
  intros ma p s h. apply fence_match_shape.
Qed.

Lemma parts_one_more_than_blocks content :
  List.length (re.split re.no_flags CodeAwareChunker.fence_pattern content)
  = S (List.length (CodeAwareChunker._extract_code_blocks content)).
Proof.
  unfold re.split, CodeAwareChunker._extract_code_blocks, re.findall.
  cbn [List.length]. now rewrite !length_map.
Qed.

Lemma strip_nonempty_keeps (l : list string) (c : string) :
  In c l -> Str.strip c = c -> Str.truthy c = true -> In c (strip_nonempty l).
Proof.
  intros Hin Hs Ht. unfold strip_nonempty.
  rewrite <- Hs at 1. apply in_map. apply filter_In. split; [exact Hin|].
  now rewrite Hs.
Qed.

Section CodeAware.
Variable count_tokens : string -> nat.
Variable max_tokens : nat.

(** The block at index [j] is emitted whole when it fits the budget. *)
Lemma walk_emits_fitting_block code_blocks b :
  count_tokens b <= max_tokens ->
  forall parts i j,
    nth_error code_blocks j = Some b ->
    i <= j -> j < i + List.length parts ->
    In b (CodeAwareChunker.walk count_tokens max_tokens code_blocks i parts).
Proof.
  intros Hfit. induction parts as [|part tl IH]; intros i j Hj Hle Hlt; simpl in Hlt.
  - lia.
  - cbn [CodeAwareChunker.walk]. apply in_or_app. right. apply in_or_app.
    destruct (Nat.eq_dec i j) as [->|Hne].
    + left. rewrite Hj. apply Nat.leb_le in Hfit. rewrite Hfit. now left.
    + right. apply (IH (S i) j Hj); lia.
Qed.

End CodeAware.

(** C2 fails as stated: a block over the budget is split at its function
    definitions, and no emitted chunk holds its internal text.  (The split
    does not consult the tokenizer: any count above the budget for the
    block gives these chunks.) *)
Lemma oversized_block_is_split :
  let inner := (Str.nl ++ "def a():" ++ Str.nl ++ "  pass" ++ Str.nl
                ++ "def b():" ++ Str.nl ++ "  pass" ++ Str.nl)%string in
  let content := (CodeAwareChunker.fence ++ inner ++ CodeAwareChunker.fence)%string in
  CodeAwareChunker._extract_code_blocks content = [content]
  /\ CodeAwareChunker.chunk char_tokens 5 content CODE
     = [ (CodeAwareChunker.fence ++ Str.nl ++ "def a():" ++ Str.nl ++ "  pass" ++ Str.nl
          ++ Str.nl ++ CodeAwareChunker.fence)%string;
         (CodeAwareChunker.fence ++ Str.nl ++ "def b():" ++ Str.nl ++ "  pass" ++ Str.nl
          ++ Str.nl ++ CodeAwareChunker.fence)%string ]
  /\ forallb (fun c => negb (Str.contains inner c))
       (CodeAwareChunker.chunk char_tokens 5 content CODE) = true.
Proof. repeat split. Qed.

(** ** Documents that are not blank yield a chunk *)

Lemma strip_nonempty_not_blank (l : list string) (c : string) :
  In c (strip_nonempty l) -> Str.has_non_space c = true.
Proof.
  unfold strip_nonempty. intros H.
  apply in_map_iff in H as (c0 & <- & H). apply filter_In in H as [_ H].
  rewrite has_non_space_strip. now rewrite truthy_strip in H.
Qed.

Lemma strip_nonempty_inhabited (l : list string) (c : string) :
  In c l -> Str.has_non_space c = true -> strip_nonempty l <> [].
Proof.
  intros Hin Hc Hnil.
  assert (H : In (Str.strip c) (strip_nonempty l)).
  { unfold strip_nonempty. apply in_map. apply filter_In. split; [exact Hin|].
    now rewrite truthy_strip. }
  rewrite Hnil in H. destruct H.
Qed.

Lemma concat_has_non_space (l : list string) :
  Str.has_non_space (String.concat "" l) = true ->
  exists s, In s l /\ Str.has_non_space s = true.
Proof.
  induction l as [|a l IH]; [discriminate|].
  rewrite concat_empty_cons, has_non_space_append. intros H.
  apply orb_true_iff in H as [H | H].
  - exists a. split; [now left | exact H].
  - destruct (IH H) as (s & Hin & Hs). exists s. split; [now right | exact Hs].
Qed.

Lemma join_has_non_space (sep s : string) (g : list string) :
  In s g -> Str.has_non_space s = true -> Str.has_non_space (Str.join sep g) = true.
Proof.
  unfold Str.join. induction g as [|a g IH]; [intros []|].
  intros Hin Hs. destruct g as [|b g].
  - destruct Hin as [<- | []]. exact Hs.
  - change (String.concat sep (a :: b :: g))
      with (a ++ sep ++ String.concat sep (b :: g))%string.
    rewrite !has_non_space_append.
    destruct Hin as [<- | Hin].
    + now rewrite Hs.
    + rewrite (IH Hin Hs). now rewrite !orb_true_r.
Qed.

Lemma all_chars_ext (p q : ascii -> bool) (s : string) :
  (forall c, p c = q c) -> all_chars p s = all_chars q s.
Proof. intros H. induction s as [|c s IH]; simpl; [reflexivity | now rewrite H, IH]. Qed.

(** What the sentence pattern matches is whitespace. *)
Lemma sentence_match_space ma p s h :
  re.match_here re.no_flags SemanticChunker.sentence_pattern ma p s = Some h ->
  all_chars Str.is_space (re.h_text h) = true.
Proof.
  unfold re.match_here, SemanticChunker.sentence_pattern, re.Plus.
  cbn [re.run re.prev re.rest re.groups].
  destruct p as [c|]; [|discriminate].
  destruct (re.cset_mem _ _ c); [|discriminate].
  destruct (re.greedy _ _ _ _ _ _ _ _) as [st'|] eqn:Hg; [|discriminate].
  intros [= <-]. cbn [re.h_text].
  destruct (greedy_through _ _ _ _ _ _ _ _ _ Hg) as (u & t & p' & -> & Hall & _ & Hk).
  unfold re.finish in Hk. destruct (ma && _)%bool; [discriminate|].
  injection Hk as <-. cbn [re.rest]. rewrite take_append_length.
  rewrite <- Hall. apply all_chars_ext. reflexivity.
Qed.

(** When the matches are whitespace, a text that is not blank has a piece
    that is not blank. *)
Lemma pieces_keep_non_space (x : string * list (re.hit * string)) :
  Forall (fun y => all_chars Str.is_space (re.h_text (fst y)) = true) (snd x) ->
  Str.has_non_space (reassemble x) = true ->
  exists piece, In piece (fst x :: map snd (snd x)) /\ Str.has_non_space piece = true.
Proof.
  destruct x as [g0 l]. unfold reassemble. cbn [fst snd].
  rewrite has_non_space_append. intros Hall H.
  apply orb_true_iff in H as [H | H].
  - exists g0. split; [now left | exact H].
  - induction Hall as [|y l Hy _ IH]; [discriminate|].
    cbn [map] in H. rewrite concat_empty_cons, !has_non_space_append in H.
    rewrite (all_space_no_non_space _ Hy) in H. cbn [orb] in H.
    apply orb_true_iff in H as [H | H].
    + exists (snd y). split; [right; now left | exact H].
    + destruct (IH H) as (piece & [<- | Hin] & Hp).
      * exists g0. split; [now left | exact Hp].
      * exists piece. split; [right; now right | exact Hp].
Qed.

Lemma sentences_keep_non_space (section : string) :
  Str.has_non_space section = true ->
  exists sentence,
    In sentence (re.split re.no_flags SemanticChunker.sentence_pattern section)
    /\ Str.has_non_space sentence = true.
Proof.
  intros H. apply pieces_keep_non_space.
  - apply (scan_hits re.no_flags SemanticChunker.sentence_pattern
             (fun h => all_chars Str.is_space (re.h_text h) = true)).
    intros ma p s h. apply sentence_match_space.
  - unfold re.finditer. now rewrite (scan_reassemble _ _ section 0 None).
Qed.

Section NotBlank.
Variable count_tokens : string -> nat.
Variable max_tokens : nat.

Lemma split_by_sentences_keeps_non_space (section : string) :
  Str.has_non_space section = true ->
  exists c, In c (SemanticChunker._split_by_sentences count_tokens max_tokens section)
            /\ Str.has_non_space c = true.
Proof.
  intros H. destruct (sentences_keep_non_space section H) as (s0 & Hin & Hs0).
  unfold SemanticChunker._split_by_sentences.
  destruct (pack_sentences_groups count_tokens max_tokens
              (re.split re.no_flags SemanticChunker.sentence_pattern section)
              [] "" [] []) as (groups & E & _ & _ & Hfil);
    try reflexivity; try constructor.
  { unfold within_budget. simpl. lia. }
  cbn [concat app] in Hfil.
  assert (Hg : In s0 (concat groups)).
  { eapply (proj1 (filter_In Str.truthy s0 _)). rewrite Hfil.
    apply filter_In. split; [exact Hin | now apply has_non_space_truthy]. }
  apply in_concat in Hg as (g & Hg & Hs).
  exists (Str.join " " g). split.
  - rewrite E. now apply in_map.
  - now apply (join_has_non_space " " s0).
Qed.

Lemma semantic_chunk_inhabited (content : string) (doc_type : DocumentType) :
  Str.has_non_space content = true ->
  SemanticChunker.chunk count_tokens max_tokens content doc_type <> [].
Proof.
  intros H. unfold SemanticChunker.chunk.
  rewrite <- (sections_reassemble content) in H.
  destruct (concat_has_non_space _ H) as (section & Hin & Hs).
  destruct (count_tokens section <=? max_tokens) eqn:Hfit.
  - apply (strip_nonempty_inhabited _ section); [|exact Hs].
    apply in_flat_map. exists section. split; [exact Hin|]. rewrite Hfit. now left.
  - destruct (split_by_sentences_keeps_non_space section Hs) as (c & Hc & Hns).
    apply (strip_nonempty_inhabited _ c); [|exact Hns].
    apply in_flat_map. exists section. split; [exact Hin|]. now rewrite Hfit.
Qed.

End NotBlank.

Lemma split_char_inhabited (sep : ascii) (s : string) :
  exists h tl, Str.split_char sep s = h :: tl.
Proof.
  induction s as [|c s (h & tl & IH)]; simpl; [now exists "", []|].
  destruct (Ascii.eqb c sep); [now eexists; eexists|].
  rewrite IH. now exists (String c h), tl.
Qed.

Lemma lines_keep_non_space (s : string) :
  Str.has_non_space s = true ->
  exists line, In line (Str.split_char Str.newline s) /\ Str.has_non_space line = true.
Proof.
  induction s as [|c s IH]; [discriminate|]. simpl.
  destruct (Ascii.eqb c Str.newline) eqn:Hc.
  - apply Ascii.eqb_eq in Hc. subst c. cbn [negb orb]. intros H.
    destruct (IH H) as (line & Hin & Hl). exists line. split; [now right | exact Hl].
  - destruct (split_char_inhabited Str.newline s) as (h & tl & E). rewrite E in *.
    cbn [Str.cons_head]. intros H.
    destruct (negb (Str.is_space c)) eqn:Hs.
    + exists (String c h). split; [now left | simpl; now rewrite Hs].
    + cbn [orb] in H. destruct (IH H) as (line & [Hh | Hin] & Hl).
      * exists (String c h). split; [now left|].
        simpl. rewrite Hh, Hl. apply orb_true_r.
      * exists line. split; [now right | exact Hl].
Qed.

Lemma lines_keep_text (s : string) :
  only_newlines s = false ->
  exists line, In line (Str.split_char Str.newline s) /\ Str.truthy line = true.
Proof.
  unfold only_newlines.
  induction s as [|c s IH]; [discriminate|]. simpl.
  destruct (Ascii.eqb c Str.newline) eqn:Hc.
  - cbn [andb]. intros H.
    destruct (IH H) as (line & Hin & Hl). exists line. split; [now right | exact Hl].
  - destruct (split_char_inhabited Str.newline s) as (h & tl & E). rewrite E.
    intros _. exists (String c h). split; [now left | reflexivity].
Qed.

(** *** The hierarchical chunker *)

Lemma append_to_last_inhabited line structure :
  structure <> [] -> HierarchicalChunker.append_to_last line structure <> [].
Proof. destruct structure as [|s [|s' tl]]; simpl; congruence. Qed.

Lemma parse_line_keeps st raw :
  holds_section st -> holds_section (HierarchicalChunker.parse_line st raw).
Proof.
  destruct st as [structure current]. unfold holds_section, HierarchicalChunker.parse_line.
  intros H.
  destruct (Str.is_empty (Str.strip raw)); [exact H|].
  destruct (re.match_ _ _ _); [right; discriminate|].
  destruct current as [cs|]; [right; discriminate|].
  left. cbn [fst snd] in *. apply append_to_last_inhabited.
  destruct (HierarchicalChunker.needs_introduction structure).
  - now destruct structure.
  - destruct H; congruence.
Qed.

Lemma parse_line_starts st raw :
  Str.truthy (Str.strip raw) = true ->
  holds_section (HierarchicalChunker.parse_line st raw).
Proof.
  destruct st as [structure current]. unfold holds_section, HierarchicalChunker.parse_line.
  unfold Str.truthy. intros H. apply negb_true_iff in H. rewrite H.
  destruct (re.match_ _ _ _); [right; discriminate|].
  destruct current as [cs|]; [right; discriminate|].
  left. cbn [fst]. apply append_to_last_inhabited.
  destruct (HierarchicalChunker.needs_introduction structure) eqn:Hn.
  - now destruct structure.
  - destruct structure; [discriminate Hn | discriminate].
Qed.

Lemma parse_lines_keep lines :
  forall st, holds_section st ->
             holds_section (fold_left HierarchicalChunker.parse_line lines st).
Proof.
  induction lines as [|l tl IH]; intros st H; simpl; [exact H|].
  apply IH. now apply parse_line_keeps.
Qed.

Lemma parse_lines_start lines :
  forall st line,
    In line lines -> Str.truthy (Str.strip line) = true ->
    holds_section (fold_left HierarchicalChunker.parse_line lines st).
Proof.
  induction lines as [|l tl IH]; intros st line Hin Hl; [destruct Hin|].
  simpl. destruct Hin as [-> | Hin].
  - apply parse_lines_keep. now apply parse_line_starts.
  - now apply (IH _ line).
Qed.

Lemma parse_structure_inhabited (text : string) :
  Str.has_non_space text = true -> HierarchicalChunker._parse_structure text <> [].
Proof.
  intros H. destruct (lines_keep_non_space text H) as (line & Hin & Hl).
  unfold HierarchicalChunker._parse_structure.
  pose proof (parse_lines_start (Str.split_char Str.newline text) ([], None) line Hin) as Hst.
  rewrite truthy_strip in Hst. specialize (Hst Hl).
  destruct (fold_left _ _ _) as [structure [cs|]].
  - now destruct structure.
  - destruct Hst as [Hst | Hst]; [exact Hst | now elim Hst].
Qed.

Lemma split_from_inhabited (sep : string) (s : string) :
  forall skip, Str.split_from sep skip s <> [].
Proof.
  induction s as [|c s IH]; intros skip; cbn [Str.split_from]; [discriminate|].
  destruct skip; [|apply IH].
  destruct (String.prefix sep (String c s)); [discriminate|].
  destruct (Str.split_from sep 0 s); discriminate.
Qed.

Lemma chunk_section_inhabited count_tokens max_tokens s :
  HierarchicalChunker._chunk_section count_tokens max_tokens s <> [].
Proof.
  unfold HierarchicalChunker._chunk_section.
  destruct (count_tokens _ <=? max_tokens); [discriminate|].
  set (parts := Str.split Str.nlnl _).
  destruct (pack_parts_groups count_tokens max_tokens (HierarchicalChunker.title s)
              parts [] (HierarchicalChunker.title_prefix (HierarchicalChunker.title s)) [] [])
    as (groups & E & _ & _ & Hc); try reflexivity; try constructor.
  { now rewrite buffer_nil. }
  { unfold within_budget. simpl. lia. }
  rewrite E. cbn [concat app] in Hc.
  destruct groups; [|discriminate].
  exfalso. apply (split_from_inhabited Str.nlnl
                    (Str.join Str.nl (HierarchicalChunker.content s)) 0).
  symmetry. exact Hc.
Qed.

Lemma hierarchical_chunk_inhabited count_tokens max_tokens (text : string)
    (doc_type : DocumentType) :
  Str.has_non_space text = true ->
  HierarchicalChunker.chunk count_tokens max_tokens text doc_type <> [].
Proof.
  intros H. unfold HierarchicalChunker.chunk.
  pose proof (parse_structure_inhabited text H) as Hs.
  destruct (HierarchicalChunker._parse_structure text) as [|s tl]; [congruence|].
  cbn [flat_map].
  pose proof (chunk_section_inhabited count_tokens max_tokens s) as Hc.
  destruct (HierarchicalChunker._chunk_section count_tokens max_tokens s);
    [congruence | discriminate].
Qed.

(** *** The code-aware chunker *)

Lemma wrap_not_blank (c : string) : Str.has_non_space (CodeAwareChunker.wrap c) = true.
Proof. reflexivity. Qed.

Section CodeBlocks.
Variable count_tokens : string -> nat.
Variable max_tokens : nat.

Lemma pack_lines_inhabited :
  forall lines chunks current_chunk,
    chunks <> [] \/ Str.truthy current_chunk = true
    \/ (exists line, In line lines /\ Str.truthy line = true) ->
    CodeAwareChunker.pack_lines count_tokens max_tokens lines chunks current_chunk <> [].
Proof.
  induction lines as [|l tl IH]; intros chunks cur H; cbn [CodeAwareChunker.pack_lines].
  - destruct (Str.truthy cur) eqn:Hc.
    + destruct chunks; discriminate.
    + destruct H as [H | [H | (line & [] & _)]]; [exact H | discriminate].
  - destruct (Str.truthy cur) eqn:Hc.
    + destruct (count_tokens _ <=? max_tokens); apply IH.
      * right. left. destruct cur; [discriminate | reflexivity].
      * left. destruct chunks; discriminate.
    + assert (Hnext : chunks <> [] \/ Str.truthy l = true
                      \/ (exists line, In line tl /\ Str.truthy line = true)).
      { destruct H as [H | [H | (line & [<- | Hin] & Hl)]]; auto.
        - congruence.
        - right. right. now exists line. }
      destruct (count_tokens _ <=? max_tokens); now apply IH.
Qed.

Lemma pack_lines_not_blank :
  forall lines chunks current_chunk,
    Forall (fun c => Str.has_non_space c = true) chunks ->
    Forall (fun c => Str.has_non_space c = true)
      (CodeAwareChunker.pack_lines count_tokens max_tokens lines chunks current_chunk).
Proof.
  induction lines as [|l tl IH]; intros chunks cur H; cbn [CodeAwareChunker.pack_lines].
  - destruct (Str.truthy cur); [|exact H].
    apply Forall_app. split; [exact H | repeat constructor].
  - destruct (count_tokens _ <=? max_tokens); apply IH; [exact H|].
    destruct (Str.truthy cur); [|exact H].
    apply Forall_app. split; [exact H | repeat constructor].
Qed.

Lemma split_code_block_not_blank (b : string) :
  Forall (fun c => Str.has_non_space c = true)
    (CodeAwareChunker._split_code_block count_tokens max_tokens b).
Proof.
  unfold CodeAwareChunker._split_code_block.
  destruct (CodeAwareChunker.structure_matches _ _) as [|m ms].
  - apply pack_lines_not_blank. constructor.
  - apply Forall_map. apply Forall_forall. intros c _. apply wrap_not_blank.
Qed.

(** A block over the budget yields a chunk unless nothing but newlines
    is left once its fence lines are removed. *)
Lemma split_code_block_inhabited (b : string) :
  only_newlines (CodeAwareChunker.strip_markers b) = false ->
  CodeAwareChunker._split_code_block count_tokens max_tokens b <> [].
Proof.
  intros H. unfold CodeAwareChunker._split_code_block.
  destruct (CodeAwareChunker.structure_matches _ _) as [|m ms]; [|discriminate].
  apply pack_lines_inhabited. right. right. now apply lines_keep_text.
Qed.

Lemma code_aware_chunk_inhabited (content : string) (doc_type : DocumentType) :
  Str.has_non_space content = true ->
  (forall b, In b (CodeAwareChunker._extract_code_blocks content) ->
             max_tokens < count_tokens b ->
             only_newlines (CodeAwareChunker.strip_markers b) = false) ->
  CodeAwareChunker.chunk count_tokens max_tokens content doc_type <> [].
Proof.
  intros Hns Hblocks.
  pose proof (extract_code_blocks_fenced content) as Hfenced.
  unfold CodeAwareChunker.chunk.
  revert Hblocks Hfenced.
  unfold CodeAwareChunker._extract_code_blocks, re.findall, re.split.
  pose proof (scan_reassemble re.no_flags CodeAwareChunker.fence_pattern content 0 None)
    as Hre.
  fold (re.finditer re.no_flags CodeAwareChunker.fence_pattern content) in Hre.
  destruct (re.finditer re.no_flags CodeAwareChunker.fence_pattern content) as [g0 hits].
  cbn [fst snd]. intros Hblocks Hfenced.
  destruct hits as [|[h1 g1] hits].
  - (* no fenced block: the document is one prose segment *)
    unfold reassemble in Hre. cbn in Hre. rewrite append_empty_r in Hre. subst g0.
    cbn [map CodeAwareChunker.walk nth_error]. rewrite truthy_strip, Hns, !app_nil_r.
    unfold CodeAwareChunker._semantic_split.
    pose proof (semantic_chunk_inhabited count_tokens max_tokens content TECHNICAL_DOC Hns)
      as Hsem.
    destruct (SemanticChunker.chunk count_tokens max_tokens content TECHNICAL_DOC)
      as [|c cs] eqn:E;
      [congruence|].
    apply (strip_nonempty_inhabited _ c); [now left|].
    apply (strip_nonempty_not_blank
             (flat_map (fun section =>
                          if count_tokens section <=? max_tokens then [section]
                          else SemanticChunker._split_by_sentences count_tokens max_tokens
                                 section)
                (SemanticChunker._split_by_sections content))).
    fold (SemanticChunker.chunk count_tokens max_tokens content TECHNICAL_DOC).
    rewrite E. now left.
  - (* the first block is emitted whole or split *)
    cbn [map fst snd] in *.
    set (b1 := re.h_text h1) in *.
    assert (Hb1 : Str.has_non_space b1 = true).
    { apply Forall_inv in Hfenced. destruct Hfenced as (inner & ->).
      apply fenced_text_fixed. }
    cbn [CodeAwareChunker.walk nth_error].
    destruct (count_tokens b1 <=? max_tokens) eqn:Hfit.
    + apply (strip_nonempty_inhabited _ b1); [|exact Hb1].
      apply in_or_app. right. now left.
    + apply Nat.leb_gt in Hfit.
      pose proof (split_code_block_inhabited b1 (Hblocks b1 (or_introl eq_refl) Hfit)) as Hne.
      pose proof (split_code_block_not_blank b1) as Hnb.
      destruct (CodeAwareChunker._split_code_block count_tokens max_tokens b1) as [|c cs];
        [congruence|].
      apply (strip_nonempty_inhabited _ c); [|now apply Forall_inv in Hnb].
      apply in_or_app. right. now left.
Qed.

End CodeBlocks.

(** C7 fails as stated: a fenced block over the budget whose text is all
    on the opening fence line leaves nothing once the fence lines are
    removed, and the document yields no chunk.  (The fence line holds 600
    one-letter words; the block is over the budget of 512.) *)
Lemma oversized_fence_line_yields_no_chunk :
  let content := (CodeAwareChunker.fence ++ repeat_string " a" 600 ++ Str.nl
                  ++ CodeAwareChunker.fence)%string in
  Str.has_non_space content = true
  /\ IntelligentChunker.r_chunking_strategy
       (IntelligentChunker.process_document char_tokens md5_table "2026-01-01T00:00:00"
          content "notes.py" None) = "code_aware"
  /\ IntelligentChunker.r_total_chunks
       (IntelligentChunker.process_document char_tokens md5_table "2026-01-01T00:00:00"
          content "notes.py" None) = 0
  /\ IntelligentChunker.r_chunks
       (IntelligentChunker.process_document char_tokens md5_table "2026-01-01T00:00:00"
          content "notes.py" None) = [].
Proof. repeat split; vm_compute; reflexivity. Qed.

Lemma buffer_not_blank (title : string) (g : list string) :
  Str.has_non_space (buffer title g) = true.
Proof. reflexivity. Qed.

Lemma hierarchical_chunks_not_blank count_tokens max_tokens (text : string)
    (doc_type : DocumentType) :
  Forall (fun c => Str.has_non_space c = true)
    (HierarchicalChunker.chunk count_tokens max_tokens text doc_type).
Proof.
  unfold HierarchicalChunker.chunk. apply Forall_flat_map, Forall_forall. intros s _.
  unfold HierarchicalChunker._chunk_section.
  destruct (count_tokens _ <=? max_tokens); [repeat constructor|].
  destruct (pack_parts_groups count_tokens max_tokens (HierarchicalChunker.title s)
              (Str.split Str.nlnl (Str.join Str.nl (HierarchicalChunker.content s))) []
              (HierarchicalChunker.title_prefix (HierarchicalChunker.title s)) [] [])
    as (groups & E & _ & _ & _); try reflexivity; try constructor.
  { now rewrite buffer_nil. }
  { unfold within_budget. simpl. lia. }
  rewrite E. apply Forall_map, Forall_forall. intros g _.
  rewrite has_non_space_strip. apply buffer_not_blank.
Qed.

(** * Further properties of the engine *)

(** ** Trimming and lower-casing *)

Lemma lower_char_involutive (c : ascii) :
  Str.lower_char (Str.lower_char c) = Str.lower_char c.
Proof. destruct c as [[] [] [] [] [] [] [] []]; reflexivity. Qed.

Lemma lower_involutive (s : string) : Str.lower (Str.lower s) = Str.lower s.
Proof.
  induction s as [|c s IH]; simpl; [reflexivity|].
  now rewrite lower_char_involutive, IH.
Qed.

Lemma lstrip_involutive (s : string) : Str.lstrip (Str.lstrip s) = Str.lstrip s.
Proof.
  induction s as [|c s IH]; simpl; [reflexivity|].
  destruct (Str.is_space c) eqn:Hc; [exact IH|]. simpl. now rewrite Hc.
Qed.

Lemma rstrip_involutive (s : string) : Str.rstrip (Str.rstrip s) = Str.rstrip s.
Proof.
  induction s as [|c s IH]; simpl; [reflexivity|].
  destruct (Str.is_space c && Str.is_empty (Str.rstrip s))%bool eqn:Hc; [reflexivity|].
  simpl. now rewrite IH, Hc.
Qed.

Lemma lstrip_rstrip (s : string) : Str.lstrip (Str.rstrip s) = Str.rstrip (Str.lstrip s).
Proof.
  induction s as [|c s IH]; simpl; [reflexivity|].
  destruct (Str.is_space c) eqn:Hc; simpl.
  - destruct (Str.rstrip s) eqn:Hr; simpl.
    + now rewrite <- IH.
    + now rewrite Hc, <- IH.
  - now rewrite Hc.
Qed.

Lemma strip_involutive (s : string) : Str.strip (Str.strip s) = Str.strip s.
Proof.
  unfold Str.strip.
  now rewrite lstrip_rstrip, rstrip_involutive, lstrip_involutive.
Qed.

Lemma strip_nonempty_trimmed (l : list string) (c : string) :
  In c (strip_nonempty l) -> Str.strip c = c.
Proof.
  unfold strip_nonempty. intros H. apply in_map_iff in H as (c0 & <- & _).
  apply strip_involutive.
Qed.

Lemma strip_nonempty_fixed (l : list string) :
  (forall c, In c l -> Str.strip c = c /\ Str.truthy c = true) ->
  strip_nonempty l = l.
Proof.
  unfold strip_nonempty. induction l as [|a l IH]; intros H; [reflexivity|].
  destruct (H a (or_introl eq_refl)) as [Hs Ht].
  cbn [filter]. rewrite Hs, Ht. cbn [map]. rewrite Hs. f_equal.
  apply IH. intros c Hc. apply H. now right.
Qed.

Lemma strip_nonempty_involutive (l : list string) :
  strip_nonempty (strip_nonempty l) = strip_nonempty l.
Proof.
  apply strip_nonempty_fixed. intros c Hc. split.
  - now apply (strip_nonempty_trimmed l).
  - apply has_non_space_truthy. now apply (strip_nonempty_not_blank l).
Qed.

(** ** Chunks of the semantic and the code-aware chunker are trimmed *)

(** X1.  Every chunk returned by the semantic chunker and by the
    code-aware chunker is trimmed (stripping it again changes nothing) and
    holds a character that is not whitespace. *)
Theorem chunks_are_trimmed_and_not_blank
    (count_tokens : string -> nat) (max_tokens : nat)
    (content : string) (doc_type : DocumentType) (c : string) :
  In c (SemanticChunker.chunk count_tokens max_tokens content doc_type)
  \/ In c (CodeAwareChunker.chunk count_tokens max_tokens content doc_type) ->
  Str.strip c = c /\ Str.has_non_space c = true /\ c <> "".
Proof.
  intros H.
  assert (Hin : exists l, In c (strip_nonempty l)).
  { destruct H as [H | H]; eexists; exact H. }
  destruct Hin as (l & Hin).
  pose proof (strip_nonempty_not_blank l c Hin) as Hns.
  repeat split; [now apply (strip_nonempty_trimmed l) | exact Hns |].
  intros ->. discriminate Hns.
Qed.

Lemma chunks_are_trimmed_and_not_blank_witness :
  Str.strip "Some prose." = "Some prose."
  /\ Str.has_non_space "Some prose." = true /\ "Some prose." <> "".
Proof.
  apply (chunks_are_trimmed_and_not_blank char_tokens 512
           ("  Some prose.  " ++ Str.nl) UNKNOWN).
  left. vm_compute. now left.
Defined.

(** ** Chunk identifiers *)

Lemma append_cancel_l (a x y : string) : (a ++ x)%string = (a ++ y)%string -> x = y.
Proof. induction a as [|c a IH]; simpl; [auto | intros [= H]; auto]. Qed.

Lemma of_nat_injective (i j : nat) : Str.of_nat i = Str.of_nat j -> i = j.
Proof.
  unfold Str.of_nat. intros H.
  apply Unsigned.to_uint_inj.
  assert (E : Some (Nat.to_uint i) = Some (Nat.to_uint j))
    by (rewrite <- !NilEmpty.usu; now rewrite H).
  now injection E.
Qed.

(** X2.  The chunk identifiers of a result are the document identifier
    followed by [_chunk_] and the decimal index, and no two chunks of a
    result share an identifier. *)
Theorem chunk_ids_are_unique
    (count_tokens : string -> nat) (md5_hexdigest : string -> string) (now : string)
    (content filename : string) (doc_id : option string) :
  let r := IntelligentChunker.process_document count_tokens md5_hexdigest now
             content filename doc_id in
  map IntelligentChunker.m_chunk_id (IntelligentChunker.r_metadata r)
  = map (fun i => (IntelligentChunker.r_document_id r ++ "_chunk_" ++ Str.of_nat i)%string)
      (seq 0 (IntelligentChunker.r_total_chunks r))
  /\ NoDup (map IntelligentChunker.m_chunk_id (IntelligentChunker.r_metadata r)).
Proof.
  cbn zeta.
  assert (E : map IntelligentChunker.m_chunk_id
                (IntelligentChunker.r_metadata
                   (IntelligentChunker.process_document count_tokens md5_hexdigest now
                      content filename doc_id))
              = map (fun i => (IntelligentChunker.resolve_doc_id md5_hexdigest content doc_id
                               ++ "_chunk_" ++ Str.of_nat i)%string)
                  (seq 0 (List.length
                            (IntelligentChunker.chunkers count_tokens
                               (IntelligentChunker.strategy_map
                                  (DocumentClassifier.classify content filename))
                               content (DocumentClassifier.classify content filename))))).
  { unfold IntelligentChunker.process_document. cbn [IntelligentChunker.r_metadata].
    unfold enumerate. rewrite !map_map.
    rewrite <- (enumerate_fst (IntelligentChunker.chunkers _ _ _ _) 0) at 2.
    rewrite map_map. apply map_ext. intros [i c]. reflexivity. }
  split; [exact E|]. rewrite E.
  apply Injective_map_NoDup; [|apply seq_NoDup].
  intros i j H. apply append_cancel_l, append_cancel_l in H. now apply of_nat_injective.
Qed.

(** ** Genre and strategy labels of a result *)

(** X3.  The labels of a result are always one row of the strategy table;
    in particular the fixed-size strategy is never used, although a chunker
    is registered for it. *)
Theorem result_labels_follow_strategy_table
    (count_tokens : string -> nat) (md5_hexdigest : string -> string) (now : string)
    (content filename : string) (doc_id : option string) :
  let r := IntelligentChunker.process_document count_tokens md5_hexdigest now
             content filename doc_id in
  In (IntelligentChunker.r_document_type r, IntelligentChunker.r_chunking_strategy r)
    [ ("technical_doc", "hierarchical"); ("support_ticket", "semantic");
      ("api_reference", "code_aware"); ("policy", "hierarchical");
      ("tutorial", "hierarchical"); ("code", "code_aware"); ("unknown", "semantic") ]
  /\ IntelligentChunker.r_chunking_strategy r <> "fixed_size".
Proof.
  cbn zeta. unfold IntelligentChunker.process_document.
  cbn [IntelligentChunker.r_document_type IntelligentChunker.r_chunking_strategy].
  destruct (DocumentClassifier.classify content filename); cbn;
    (split; [tauto | discriminate]).
Qed.

(** X4.  The genre and the strategy named in a result are among the values
    listed by the two introspection endpoints, and neither endpoint lists a
    value twice. *)
Theorem result_labels_are_listed
    (count_tokens : string -> nat) (md5_hexdigest : string -> string) (now : string)
    (content filename : string) (doc_id : option string) :
  let r := IntelligentChunker.process_document count_tokens md5_hexdigest now
             content filename doc_id in
  In (IntelligentChunker.r_document_type r) Api.get_document_types
  /\ In (IntelligentChunker.r_chunking_strategy r) Api.get_chunking_strategies
  /\ NoDup Api.get_document_types
  /\ NoDup Api.get_chunking_strategies.
Proof.
  cbn zeta. unfold IntelligentChunker.process_document.
  cbn [IntelligentChunker.r_document_type IntelligentChunker.r_chunking_strategy].
  repeat split.
  - destruct (DocumentClassifier.classify content filename); cbn; tauto.
  - destruct (DocumentClassifier.classify content filename); cbn; tauto.
  - repeat (constructor; [cbn; intuition discriminate|]). constructor.
  - repeat (constructor; [cbn; intuition discriminate|]). constructor.
Qed.

(** ** The classifier: filename rules and the low-confidence guard *)

(** X5.  The filename is read without regard to letter case: a filename and
    its lower-case form give the same genre, whatever the content. *)
Theorem classify_ignores_filename_case (content filename : string) :
  DocumentClassifier.classify content filename
  = DocumentClassifier.classify content (Str.lower filename).
Proof.
  unfold DocumentClassifier.classify, DocumentClassifier.filename_rule.
  now rewrite lower_involutive.
Qed.

Lemma filename_rule_values (filename : string) (t : DocumentType) :
  DocumentClassifier.filename_rule filename = Some t ->
  t = CODE \/ t = API_REFERENCE \/ t = POLICY \/ t = TUTORIAL.
Proof.
  unfold DocumentClassifier.filename_rule.
  repeat match goal with
         | |- context [if ?b then _ else _] => destruct b
         end; intros [= <-]; auto.
Qed.

Lemma max_from_bounds (l : list (DocumentType * nat)) :
  forall best,
    In (DocumentClassifier.max_from best l) (best :: l)
    /\ Forall (fun x => snd x <= snd (DocumentClassifier.max_from best l)) (best :: l).
Proof.
  intros best.
  destruct (max_from_first_max l best [] []) as (pre & post & E & Hpre & Hpost);
    try (intros ? []).
  cbn [app] in E. rewrite E. split.
  - apply in_or_app. right. now left.
  - apply Forall_app. split; [|constructor; [lia|]]; apply Forall_forall; intros x Hx.
    + specialize (Hpre x Hx). lia.
    + now apply Hpost.
Qed.

(** X6.  [classify] answers UNKNOWN exactly when no filename rule applies
    and no genre scores more than 2 on the content. *)
Theorem classify_unknown_iff (content filename : string) :
  DocumentClassifier.classify content filename = UNKNOWN
  <-> DocumentClassifier.filename_rule filename = None
      /\ Forall (fun x => snd x <= 2) (DocumentClassifier.scores content).
Proof.
  unfold DocumentClassifier.classify.
  destruct (DocumentClassifier.filename_rule filename) as [t|] eqn:Hf.
  - split; [|intros [[=] _]]. intros ->.
    destruct (filename_rule_values _ _ Hf) as [H | [H | [H | H]]]; discriminate H.
  - assert (Hkeys : map fst (DocumentClassifier.scores content)
                    = [API_REFERENCE; TECHNICAL_DOC; SUPPORT_TICKET; POLICY; TUTORIAL; CODE])
      by reflexivity.
    destruct (DocumentClassifier.scores content) as [|x tl] eqn:Hs; [discriminate Hkeys|].
    cbn [DocumentClassifier.py_max].
    destruct (max_from_bounds tl x) as [Hin Hall].
    destruct (2 <? snd (DocumentClassifier.max_from x tl)) eqn:Hlt.
    + apply Nat.ltb_lt in Hlt. split.
      * intros Hu. exfalso.
        apply (in_map fst) in Hin. rewrite Hkeys, Hu in Hin.
        cbn in Hin. intuition discriminate.
      * intros [_ Hle]. rewrite Forall_forall in Hle. specialize (Hle _ Hin). lia.
    + apply Nat.ltb_ge in Hlt. split; [|reflexivity]. intros _. split; [reflexivity|].
      eapply Forall_impl; [|exact Hall]. cbn. intros a Ha. lia.
Qed.

Lemma classify_unknown_iff_witness :
  DocumentClassifier.classify "hello there" "notes.txt" = UNKNOWN.
Proof.
  apply (proj2 (classify_unknown_iff "hello there" "notes.txt")).
  split; [reflexivity|]. vm_compute. repeat constructor.
Defined.

(** ** The sections of the semantic chunker *)

Lemma section_hits_whole (content : string) :
  Forall (fun y => re.group (fst y) 1 = re.h_text (fst y))
    (snd (re.finditer re.flag_m SemanticChunker.section_pattern content)).
Proof.
  apply (scan_hits re.flag_m SemanticChunker.section_pattern
           (fun h => re.group h 1 = re.h_text h)).
  intros ma p s h. apply whole_match_group.
Qed.

Lemma combine_pairs_join_to_previous (piece : string) (l : list (re.hit * string)) :
  Forall (fun y => re.group (fst y) 1 = re.h_text (fst y)) l ->
  SemanticChunker.combine_pairs
    (piece :: flat_map (fun y => [re.group (fst y) 1; snd y]) l)
  = join_to_previous piece l.
Proof.
  intros H. revert piece. induction H as [|[h g] l Hy _ IH]; intros piece; [reflexivity|].
  cbn [flat_map app SemanticChunker.combine_pairs join_to_previous fst snd] in *.
  now rewrite Hy, IH.
Qed.

Lemma join_to_previous_length (piece : string) (l : list (re.hit * string)) :
  List.length (join_to_previous piece l) = S (List.length l).
Proof.
  revert piece. induction l as [|[h g] l IH]; intros piece; simpl; [reflexivity|].
  now rewrite IH.
Qed.

Lemma sections_join_to_previous (content : string) :
  SemanticChunker._split_by_sections content
  = join_to_previous
      (fst (re.finditer re.flag_m SemanticChunker.section_pattern content))
      (snd (re.finditer re.flag_m SemanticChunker.section_pattern content)).
Proof.
  unfold SemanticChunker._split_by_sections, re.split1.
  apply combine_pairs_join_to_previous, section_hits_whole.
Qed.

(** X7.  A content with n headers is split into n + 1 sections: every
    header closes the section that holds the text before it, and the text
    after the last header is the last section. *)
Theorem split_by_sections_shape (content : string) :
  let x := re.finditer re.flag_m SemanticChunker.section_pattern content in
  SemanticChunker._split_by_sections content = join_to_previous (fst x) (snd x)
  /\ List.length (SemanticChunker._split_by_sections content)
     = S (re.count re.flag_m SemanticChunker.section_pattern content).
Proof.
  cbn zeta. split; [apply sections_join_to_previous|].
  rewrite sections_join_to_previous. apply join_to_previous_length.
Qed.

Lemma no_header_one_section (content : string) :
  re.count re.flag_m SemanticChunker.section_pattern content = 0 ->
  SemanticChunker._split_by_sections content = [content].
Proof.
  intros H0. rewrite sections_join_to_previous.
  pose proof (scan_reassemble re.flag_m SemanticChunker.section_pattern content 0 None) as R.
  unfold re.count in H0. unfold re.finditer in *.
  destruct (re.scan re.flag_m SemanticChunker.section_pattern 0 None content) as [g0 hits].
  cbn [fst snd] in *. destruct hits; [|discriminate].
  unfold reassemble in R. cbn in R. rewrite append_empty_r in R. now subst.
Qed.

(** X8.  A content without any header that is within the budget and not
    blank comes back from the semantic chunker as one chunk, the trimmed
    content. *)
Theorem plain_prose_is_one_chunk
    (count_tokens : string -> nat) (max_tokens : nat)
    (content : string) (doc_type : DocumentType) :
  re.count re.flag_m SemanticChunker.section_pattern content = 0 ->
  count_tokens content <= max_tokens ->
  Str.has_non_space content = true ->
  SemanticChunker.chunk count_tokens max_tokens content doc_type = [Str.strip content].
Proof.
  intros H0 Hfit Hns. unfold SemanticChunker.chunk.
  rewrite (no_header_one_section content H0). cbn [flat_map].
  apply Nat.leb_le in Hfit. rewrite Hfit. cbn [app].
  unfold strip_nonempty. cbn [filter]. now rewrite truthy_strip, Hns.
Qed.

Lemma plain_prose_is_one_chunk_witness :
  SemanticChunker.chunk char_tokens 512 "  Just one plain sentence, no heading.  " UNKNOWN
  = ["Just one plain sentence, no heading."].
Proof.
  apply (plain_prose_is_one_chunk char_tokens 512
           "  Just one plain sentence, no heading.  " UNKNOWN).
  - reflexivity.
  - unfold char_tokens. simpl. lia.
  - reflexivity.
Defined.

(** ** Blank text and text without fences *)

Lemma strip_nonempty_all_blank (l : list string) :
  (forall c, In c l -> Str.has_non_space c = false) -> strip_nonempty l = [].
Proof.
  unfold strip_nonempty. induction l as [|a l IH]; intros H; [reflexivity|].
  cbn [filter]. rewrite truthy_strip, (H a (or_introl eq_refl)).
  apply IH. intros c Hc. apply H. now right.
Qed.

Lemma concat_blank (l : list string) :
  Str.has_non_space (String.concat "" l) = false ->
  forall s, In s l -> Str.has_non_space s = false.
Proof.
  induction l as [|a l IH]; intros H s Hs; [destruct Hs|].
  rewrite concat_empty_cons, has_non_space_append in H.
  apply orb_false_iff in H as [Ha Hl].
  destruct Hs as [<- | Hs]; [exact Ha | now apply IH].
Qed.

Lemma join_blank (sep : string) (g : list string) :
  Str.has_non_space sep = false ->
  (forall s, In s g -> Str.has_non_space s = false) ->
  Str.has_non_space (Str.join sep g) = false.
Proof.
  intros Hsep. unfold Str.join. induction g as [|a g IH]; intros H; [reflexivity|].
  destruct g as [|b g]; [apply H; now left|].
  change (String.concat sep (a :: b :: g))
    with (a ++ sep ++ String.concat sep (b :: g))%string.
  rewrite !has_non_space_append, Hsep, (H a (or_introl eq_refl)), IH; [reflexivity|].
  intros s Hs. apply H. now right.
Qed.

Lemma pieces_blank (x : string * list (re.hit * string)) :
  Str.has_non_space (reassemble x) = false ->
  forall piece, In piece (fst x :: map snd (snd x)) -> Str.has_non_space piece = false.
Proof.
  destruct x as [g0 l]. unfold reassemble. cbn [fst snd].
  rewrite has_non_space_append. intros H. apply orb_false_iff in H as [H0 Hl].
  intros piece [<- | Hin]; [exact H0|].
  induction l as [|y l IH]; [destruct Hin|].
  cbn [map] in *. rewrite concat_empty_cons, !has_non_space_append in Hl.
  apply orb_false_iff in Hl as [Hy Hl]. apply orb_false_iff in Hy as [_ Hy].
  destruct Hin as [<- | Hin]; [exact Hy | now apply IH].
Qed.

Lemma split_by_sentences_blank count_tokens max_tokens (section : string) :
  Str.has_non_space section = false ->
  forall c, In c (SemanticChunker._split_by_sentences count_tokens max_tokens section) ->
            Str.has_non_space c = false.
Proof.
  intros Hb c Hc.
  destruct (split_by_sentences_groups count_tokens max_tokens section)
    as (groups & E & _ & Hfil & _).
  rewrite E in Hc. apply in_map_iff in Hc as (g & <- & Hg).
  apply join_blank; [reflexivity|]. intros s Hs.
  destruct (Str.truthy s) eqn:Ht; [|now destruct s].
  assert (Hin : In s (filter Str.truthy (concat groups))).
  { apply filter_In. split; [|exact Ht]. apply in_concat. now exists g. }
  rewrite Hfil in Hin. apply filter_In in Hin as [Hin _].
  apply (pieces_blank (re.finditer re.no_flags SemanticChunker.sentence_pattern section));
    [|exact Hin].
  unfold re.finditer. now rewrite scan_reassemble.
Qed.

Lemma semantic_chunk_blank count_tokens max_tokens (content : string) doc_type :
  Str.has_non_space content = false ->
  SemanticChunker.chunk count_tokens max_tokens content doc_type = [].
Proof.
  intros Hb. unfold SemanticChunker.chunk. apply strip_nonempty_all_blank.
  intros c Hc. apply in_flat_map in Hc as (section & Hsec & Hc).
  assert (Hs : Str.has_non_space section = false).
  { apply (concat_blank (SemanticChunker._split_by_sections content)); [|exact Hsec].
    now rewrite sections_reassemble. }
  destruct (count_tokens section <=? max_tokens).
  - destruct Hc as [<- | []]. exact Hs.
  - now apply (split_by_sentences_blank count_tokens max_tokens section).
Qed.

Lemma code_aware_no_fence
    (count_tokens : string -> nat) (max_tokens : nat)
    (content : string) (doc_type doc_type' : DocumentType) :
  CodeAwareChunker._extract_code_blocks content = [] ->
  CodeAwareChunker.chunk count_tokens max_tokens content doc_type
  = SemanticChunker.chunk count_tokens max_tokens content doc_type'.
Proof.
  unfold CodeAwareChunker.chunk, CodeAwareChunker._extract_code_blocks, re.findall, re.split.
  pose proof (scan_reassemble re.no_flags CodeAwareChunker.fence_pattern content 0 None) as R.
  fold (re.finditer re.no_flags CodeAwareChunker.fence_pattern content) in R.
  destruct (re.finditer re.no_flags CodeAwareChunker.fence_pattern content) as [g0 hits].
  cbn [fst snd]. intros Hnil. destruct hits; [|discriminate].
  unfold reassemble in R. cbn in R. rewrite append_empty_r in R. subst g0.
  cbn [map CodeAwareChunker.walk nth_error]. rewrite !app_nil_r, truthy_strip.
  unfold CodeAwareChunker._semantic_split.
  destruct (Str.has_non_space content) eqn:Hns.
  - change (SemanticChunker.chunk count_tokens max_tokens content TECHNICAL_DOC)
      with (SemanticChunker.chunk count_tokens max_tokens content doc_type').
    unfold SemanticChunker.chunk. apply strip_nonempty_involutive.
  - now rewrite semantic_chunk_blank.
Qed.

(** X9.  On a content without a fenced code block the code-aware chunker
    returns what the semantic chunker returns for the same budget. *)
Theorem code_aware_without_fences_is_semantic
    (count_tokens : string -> nat) (max_tokens : nat)
    (content : string) (doc_type doc_type' : DocumentType) :
  CodeAwareChunker._extract_code_blocks content = [] ->
  CodeAwareChunker.chunk count_tokens max_tokens content doc_type
  = SemanticChunker.chunk count_tokens max_tokens content doc_type'.
Proof. apply code_aware_no_fence. Qed.

Lemma code_aware_without_fences_is_semantic_witness :
  CodeAwareChunker.chunk char_tokens 512 "# Title" API_REFERENCE
  = SemanticChunker.chunk char_tokens 512 "# Title" UNKNOWN.
Proof.
  apply (code_aware_without_fences_is_semantic char_tokens 512 "# Title").
  reflexivity.
Defined.

Lemma lines_blank (s : string) :
  Str.has_non_space s = false ->
  forall line, In line (Str.split_char Str.newline s) -> Str.has_non_space line = false.
Proof.
  induction s as [|c s IH]; simpl.
  - intros _ line [<- | []]. reflexivity.
  - intros H. apply orb_false_iff in H as [Hc Hs].
    destruct (Ascii.eqb c Str.newline).
    + intros line [<- | Hin]; [reflexivity | now apply IH].
    + destruct (split_char_inhabited Str.newline s) as (h & tl & E). rewrite E in *.
      cbn [Str.cons_head]. intros line [<- | Hin].
      * simpl. rewrite Hc. apply (IH Hs). now left.
      * apply (IH Hs). now right.
Qed.

Lemma parse_lines_blank (lines : list string) :
  (forall line, In line lines -> Str.has_non_space line = false) ->
  forall st, fold_left HierarchicalChunker.parse_line lines st = st.
Proof.
  induction lines as [|l tl IH]; intros H st; simpl; [reflexivity|].
  assert (E : HierarchicalChunker.parse_line st l = st).
  { destruct st as [structure current]. unfold HierarchicalChunker.parse_line.
    assert (Hl : Str.truthy (Str.strip l) = false)
      by (rewrite truthy_strip; apply H; now left).
    unfold Str.truthy in Hl. apply negb_false_iff in Hl. now rewrite Hl. }
  rewrite E. apply IH. intros line Hin. apply H. now right.
Qed.

Lemma hierarchical_chunk_blank count_tokens max_tokens (text : string) doc_type :
  Str.has_non_space text = false ->
  HierarchicalChunker.chunk count_tokens max_tokens text doc_type = [].
Proof.
  intros Hb. unfold HierarchicalChunker.chunk, HierarchicalChunker._parse_structure.
  now rewrite (parse_lines_blank _ (lines_blank text Hb)).
Qed.

Lemma blank_has_no_fence (content : string) :
  Str.has_non_space content = false -> CodeAwareChunker._extract_code_blocks content = [].
Proof.
  intros Hb. pose proof (extract_code_blocks_fenced content) as Hf.
  unfold CodeAwareChunker._extract_code_blocks, re.findall in *.
  pose proof (scan_reassemble re.no_flags CodeAwareChunker.fence_pattern content 0 None) as R.
  fold (re.finditer re.no_flags CodeAwareChunker.fence_pattern content) in R.
  destruct (re.finditer re.no_flags CodeAwareChunker.fence_pattern content) as [g0 hits].
  cbn [fst snd] in *. destruct hits as [|[h g] hits]; [reflexivity|]. exfalso.
  apply Forall_inv in Hf. cbn [fst] in Hf. destruct Hf as (inner & Hh).
  change (Str.drop 0 content) with content in R.
  rewrite <- R in Hb. unfold reassemble in Hb. cbn [fst snd map] in Hb.
  rewrite concat_empty_cons, !has_non_space_append, Hh in Hb.
  destruct (fenced_text_fixed inner) as (_ & _ & Hns). cbn zeta in Hns.
  rewrite Hns in Hb. cbn in Hb. now rewrite orb_true_r in Hb.
Qed.

Lemma chunkers_blank (count_tokens : string -> nat) (strategy : ChunkingStrategy)
    (content : string) (doc_type : DocumentType) :
  Str.has_non_space content = false ->
  IntelligentChunker.chunkers count_tokens strategy content doc_type = [].
Proof.
  intros Hb. destruct strategy; cbn [IntelligentChunker.chunkers].
  - now apply semantic_chunk_blank.
  - rewrite (code_aware_no_fence count_tokens 512 content _ UNKNOWN
               (blank_has_no_fence content Hb)).
    now apply semantic_chunk_blank.
  - now apply hierarchical_chunk_blank.
  - now apply semantic_chunk_blank.
Qed.

(** X10.  A content made of whitespace only (the empty content included)
    yields a result without chunks under every strategy; no error is
    raised. *)
Theorem blank_document_yields_no_chunk
    (count_tokens : string -> nat) (md5_hexdigest : string -> string) (now : string)
    (content filename : string) (doc_id : option string) :
  Str.has_non_space content = false ->
  exists r,
    call_process_document count_tokens md5_hexdigest now content filename doc_id = Returns r
    /\ IntelligentChunker.r_chunks r = []
    /\ IntelligentChunker.r_metadata r = []
    /\ IntelligentChunker.r_total_chunks r = 0.
Proof.
  intros Hb. eexists. split; [reflexivity|].
  unfold IntelligentChunker.process_document.
  cbn [IntelligentChunker.r_chunks IntelligentChunker.r_metadata
       IntelligentChunker.r_total_chunks].
  rewrite (chunkers_blank count_tokens _ content _ Hb). repeat split.
Qed.

Lemma blank_document_yields_no_chunk_witness :
  exists r,
    call_process_document char_tokens md5_table "2026-01-01T00:00:00"
      ("  " ++ Str.nl ++ " ") "notes.md" None = Returns r
    /\ IntelligentChunker.r_chunks r = []
    /\ IntelligentChunker.r_metadata r = []
    /\ IntelligentChunker.r_total_chunks r = 0.
Proof.
  apply (blank_document_yields_no_chunk char_tokens md5_table "2026-01-01T00:00:00").
  reflexivity.
Defined.

(** ** More facts about the matcher: bounds and priority of greedy repetition *)

Lemma greedy_through_bounded f cs k res :
  forall s lo hi p g,
    re.greedy f cs lo hi p s g k = Some res ->
    exists u t,
      s = (u ++ t)%string /\ all_chars (re.cset_mem f cs) u = true /\
      lo <= String.length u /\
      (forall h, hi = Some h -> String.length u <= h) /\
      k {| re.prev := prev_after p u; re.rest := t; re.groups := g |} = Some res.
Proof.
  induction s as [|c s IH]; intros lo hi p g H; simpl in H.
  - assert (Hstop : match lo with
                    | 0 => k {| re.prev := p; re.rest := ""; re.groups := g |}
                    | S _ => None end = Some res)
      by (destruct (re.hi_zero hi); exact H).
    destruct lo; [|discriminate].
    exists "", "". repeat split; auto. intros h _. simpl. lia.
  - assert (Hcases :
      (re.hi_zero hi = false /\ re.cset_mem f cs c = true /\
          re.greedy f cs (Nat.pred lo) (re.hi_pred hi) (Some c) s g k = Some res) \/
      match lo with
      | 0 => k {| re.prev := p; re.rest := String c s; re.groups := g |}
      | S _ => None end = Some res).
    { destruct (re.hi_zero hi); [now right|].
      destruct (re.cset_mem f cs c) eqn:Hc; [|now right].
      destruct (re.greedy f cs (Nat.pred lo) (re.hi_pred hi) (Some c) s g k) eqn:Hg.
      - left. repeat split. now rewrite <- H.
      - now right. }
    destruct Hcases as [(Hz & Hc & Hg) | Hstop].
    + destruct (IH _ _ _ _ Hg) as (u & t & -> & Hall & Hlo & Hhi & Hk).
      exists (String c u), t. simpl. rewrite Hc, Hall.
      repeat split; auto; [lia|].
      intros h ->. destruct h as [|h]; [discriminate Hz|].
      specialize (Hhi h eq_refl). lia.
    + destruct lo; [|discriminate].
      exists "", (String c s). repeat split; auto. intros h _. simpl. lia.
Qed.

(** With no upper bound, the longest run is tried first: when the
    continuation succeeds after it, that is the result. *)
Lemma greedy_takes_longest f cs k res :
  forall u t lo p g,
    all_chars (re.cset_mem f cs) u = true ->
    match t with String c _ => re.cset_mem f cs c = false | EmptyString => True end ->
    lo <= String.length u ->
    k {| re.prev := prev_after p u; re.rest := t; re.groups := g |} = Some res ->
    re.greedy f cs lo None p (u ++ t) g k = Some res.
Proof.
  induction u as [|c u IH]; intros t lo p g Hall Ht Hlo Hk; simpl in *.
  - assert (lo = 0) by lia. subst lo.
    destruct t as [|c t]; simpl; [exact Hk|]. now rewrite Ht.
  - apply andb_true_iff in Hall as [Hc Hall]. rewrite Hc.
    rewrite (IH t (Nat.pred lo) (Some c) g Hall Ht); [reflexivity | lia | exact Hk].
Qed.

Lemma take_all (s : string) : Str.take (String.length s) s = s.
Proof. induction s as [|c s IH]; simpl; [reflexivity | now rewrite IH]. Qed.

Lemma lstrip_split (s : string) :
  exists ws, s = (ws ++ Str.lstrip s)%string /\ all_chars Str.is_space ws = true.
Proof.
  induction s as [|c s (ws & E & Hws)]; simpl; [now exists ""|].
  destruct (Str.is_space c) eqn:Hc.
  - exists (String c ws). simpl. rewrite Hc, Hws. now rewrite <- E.
  - now exists "".
Qed.

Lemma lstrip_starts (s : string) :
  match Str.lstrip s with String c _ => Str.is_space c = false | EmptyString => True end.
Proof.
  induction s as [|c s IH]; simpl; [exact I|].
  destruct (Str.is_space c) eqn:Hc; [exact IH | exact Hc].
Qed.

Lemma rstrip_suffix (a b : string) :
  Str.rstrip (a ++ b) = (a ++ b)%string -> Str.rstrip b = b.
Proof.
  induction a as [|c a IH]; simpl; [auto|].
  destruct (Str.is_space c && Str.is_empty (Str.rstrip (a ++ b)))%bool; [discriminate|].
  intros [= H]. now apply IH.
Qed.

Lemma rstrip_blank (s : string) :
  all_chars Str.is_space s = true -> Str.rstrip s = "".
Proof.
  induction s as [|c s IH]; simpl; [reflexivity|].
  intros H. apply andb_true_iff in H as [Hc Hs]. now rewrite (IH Hs), Hc.
Qed.

Lemma all_chars_append_true (p : ascii -> bool) (a b : string) :
  all_chars p (a ++ b) = true <-> all_chars p a = true /\ all_chars p b = true.
Proof.
  induction a as [|c a IH]; simpl; [tauto|].
  rewrite !andb_true_iff, IH. tauto.
Qed.

(** ** The heading lines of the hierarchical chunker *)

(** What [re.match(r'^(#{1,6})\s+(.+)$', line)] gives on a trimmed line
    without newline: one to six hashes, and as title the rest of the line
    with the whitespace after the hashes dropped. *)
Lemma header_match_spec (line : string) (hm : re.hit) :
  re.match_ re.no_flags HierarchicalChunker.header_pattern line = Some hm ->
  Str.rstrip line = line ->
  all_chars not_newline line = true ->
  exists hashes rest,
    line = (hashes ++ rest)%string
    /\ re.group hm 1 = hashes
    /\ 1 <= String.length hashes <= 6
    /\ re.group hm 2 = Str.lstrip rest
    /\ line_ok (Str.lstrip rest).
Proof.
  unfold re.match_, re.match_here, HierarchicalChunker.header_pattern, re.Plus.
  cbn [re.run re.prev re.rest re.groups re.at_bol].
  destruct (re.greedy _ _ _ _ _ _ _ _) as [res|] eqn:Hrun; [|discriminate].
  intros [= <-] Hfix Hnl. unfold re.group. cbn [re.h_groups].
  destruct (greedy_through_bounded _ _ _ _ _ _ _ _ _ Hrun)
    as (hashes & rest & -> & _ & Hlo & Hhi & Hk).
  specialize (Hhi 6 eq_refl). clear Hrun.
  cbn [re.set_group re.prev re.rest re.groups] in Hk.
  assert (Ec1 : re.consumed
                  {| re.prev := None; re.rest := hashes ++ rest; re.groups := [] |}
                  {| re.prev := prev_after None hashes; re.rest := rest; re.groups := [] |}
                = hashes)
    by (unfold re.consumed; cbn [re.rest]; apply take_append_length).
  rewrite Ec1 in Hk. clear Ec1.
  (* the whitespace after the hashes and the title behind it *)
  destruct (lstrip_split rest) as (ws & Erest & Hws).
  pose proof (lstrip_starts rest) as Hstart.
  assert (Hrest : Str.rstrip rest = rest) by (now apply (rstrip_suffix hashes)).
  rewrite all_chars_append_true in Hnl. destruct Hnl as [_ Hnlrest].
  assert (Hnltitle : all_chars not_newline (Str.lstrip rest) = true).
  { rewrite Erest in Hnlrest. rewrite all_chars_append_true in Hnlrest. apply Hnlrest. }
  assert (Hrest1 : exists c t, rest = String c t /\ Str.is_space c = true).
  { destruct (greedy_through _ _ _ _ _ _ _ _ _ Hk) as (u & t & p' & E & Hall & Hl & _).
    destruct u as [|c u]; [simpl in Hl; lia|].
    simpl in Hall. apply andb_true_iff in Hall as [Hc _].
    exists c, (u ++ t)%string. now rewrite E. }
  destruct Hrest1 as (c0 & t0 & Ec & Hc0).
  assert (Htitle : Str.lstrip rest <> "").
  { intros E0. rewrite E0, append_empty_r in Erest. rewrite <- Erest in Hws.
    rewrite (rstrip_blank _ Hws) in Hrest. rewrite Ec in Hrest. discriminate. }
  assert (Hwslen : 1 <= String.length ws).
  { destruct ws as [|w ws]; [|simpl; lia]. simpl in Erest.
    rewrite <- Erest in Hstart. rewrite Ec in Hstart. congruence. }
  (* the longest whitespace run is tried first and the rest of the line
     matches [(.+)$] *)
  set (g1 := [(1, hashes)]) in *.
  set (res' := {| re.prev := prev_after (prev_after (prev_after None hashes) ws)
                               (Str.lstrip rest);
                  re.rest := "";
                  re.groups := (2, Str.lstrip rest) :: g1 |}).
  assert (Hfirst :
    re.greedy re.no_flags re.c_space 1 None (prev_after None hashes)
      (ws ++ Str.lstrip rest) g1
      (fun st' =>
         re.greedy re.no_flags re.c_dot 1 None (re.prev st') (re.rest st') (re.groups st')
           (fun st'0 =>
              if re.at_eol re.no_flags
                   (re.set_group 2 (re.consumed st' st'0) st'0)
              then re.finish false (hashes ++ rest)
                     (re.set_group 2 (re.consumed st' st'0) st'0)
              else None)) = Some res').
  { apply greedy_takes_longest; [exact Hws | exact Hstart | exact Hwslen |].
    cbn [re.prev re.rest re.groups].
    rewrite <- (append_empty_r (Str.lstrip rest)) at 1.
    apply greedy_takes_longest.
    - rewrite <- Hnltitle. apply all_chars_ext. intros c. reflexivity.
    - exact I.
    - destruct (Str.lstrip rest); [congruence | simpl; lia].
    - unfold re.consumed, re.finish.
      cbn [re.set_group re.prev re.rest re.groups re.at_eol String.length andb].
      rewrite Nat.sub_0_r, take_all. reflexivity. }
  rewrite <- Erest in Hfirst. rewrite Hfirst in Hk. injection Hk as <-.
  exists hashes, rest. cbn [re.groups re.lookup Nat.eqb].
  repeat split; auto; try lia.
  unfold Str.strip. rewrite lstrip_involutive.
  apply (rstrip_suffix ws). now rewrite <- Erest.
Qed.

Lemma split_char_no_newline (s : string) :
  Forall (fun line => all_chars not_newline line = true) (Str.split_char Str.newline s).
Proof.
  induction s as [|c s IH]; simpl; [repeat constructor|].
  destruct (Ascii.eqb c Str.newline) eqn:Hc; [constructor; [reflexivity | exact IH]|].
  destruct (Str.split_char Str.newline s) as [|h tl]; cbn [Str.cons_head].
  - repeat constructor. simpl. unfold not_newline at 1. now rewrite Hc.
  - inversion IH as [|? ? Hh Htl]; subst. constructor; [|exact Htl].
    simpl. unfold not_newline at 1. now rewrite Hc, Hh.
Qed.

Lemma all_chars_lstrip (p : ascii -> bool) (s : string) :
  all_chars p s = true -> all_chars p (Str.lstrip s) = true.
Proof.
  induction s as [|c s IH]; simpl; [auto|].
  intros H. destruct (Str.is_space c); [|exact H].
  apply andb_true_iff in H as [_ H]. now apply IH.
Qed.

Lemma all_chars_rstrip (p : ascii -> bool) (s : string) :
  all_chars p s = true -> all_chars p (Str.rstrip s) = true.
Proof.
  induction s as [|c s IH]; simpl; [auto|].
  intros H. apply andb_true_iff in H as [Hc H].
  destruct (Str.is_space c && Str.is_empty (Str.rstrip s))%bool; [reflexivity|].
  simpl. now rewrite Hc, IH.
Qed.

Lemma strip_line_ok (raw : string) :
  all_chars not_newline raw = true ->
  Str.is_empty (Str.strip raw) = false ->
  line_ok (Str.strip raw).
Proof.
  intros Hnl Hne. repeat split.
  - intros E. now rewrite E in Hne.
  - apply strip_involutive.
  - unfold Str.strip. now apply all_chars_rstrip, all_chars_lstrip.
Qed.

Lemma introduction_ok : section_ok HierarchicalChunker.introduction.
Proof. repeat split; cbn; auto; try lia. discriminate. Qed.

Lemma add_line_ok (line : string) (s : HierarchicalChunker.section) :
  line_ok line -> section_ok s -> section_ok (HierarchicalChunker.add_line line s).
Proof.
  intros Hl (H1 & H2 & H3 & H4). repeat split; cbn; auto.
  - apply H3.
  - apply H3.
  - apply H3.
  - apply Forall_app. split; [exact H4 | constructor; [exact Hl | constructor]].
Qed.

Lemma tl_app_levels (structure : list HierarchicalChunker.section)
    (cs : HierarchicalChunker.section) :
  Forall (fun s => 1 <= HierarchicalChunker.level s) (tl structure) ->
  1 <= HierarchicalChunker.level cs ->
  Forall (fun s => 1 <= HierarchicalChunker.level s) (tl (structure ++ [cs])).
Proof.
  intros H Hcs. destruct structure as [|s tl]; cbn; [constructor|].
  apply Forall_app. split; [exact H | now repeat constructor].
Qed.

Lemma parse_line_ok st raw :
  all_chars not_newline raw = true ->
  parser_ok st -> parser_ok (HierarchicalChunker.parse_line st raw).
Proof.
  intros Hnl. destruct st as [structure current]. unfold parser_ok. cbn [fst snd].
  intros (Hs & Hintro & Htl & Hcur). unfold HierarchicalChunker.parse_line.
  destruct (Str.is_empty (Str.strip raw)) eqn:Hne; [cbn [fst snd]; auto|].
  pose proof (strip_line_ok raw Hnl Hne) as Hline.
  destruct (re.match_ re.no_flags HierarchicalChunker.header_pattern (Str.strip raw))
    as [hm|] eqn:Hm.
  - destruct (header_match_spec _ _ Hm) as (hashes & rest & E & -> & Hlev & -> & Htitle).
    { unfold Str.strip. apply rstrip_involutive. }
    { apply Hline. }
    assert (Hnew : section_ok
                     {| HierarchicalChunker.level := String.length hashes;
                        HierarchicalChunker.title := Str.lstrip rest;
                        HierarchicalChunker.content := [] |}).
    { repeat split; cbn; try apply Htitle; try lia; constructor. }
    cbn [fst snd]. destruct current as [cs|].
    + destruct Hcur as [Hcs Hlcs]. split; [|split; [|split; [|split]]].
      * apply Forall_app. split; [exact Hs | constructor; [exact Hcs | constructor]].
      * apply Forall_app. split; [exact Hintro|].
        constructor; [intros E0; lia | constructor].
      * now apply tl_app_levels.
      * exact Hnew.
      * cbn. lia.
    + split; [exact Hs | split; [exact Hintro | split; [exact Htl | split]]];
        [exact Hnew | cbn; lia].
  - destruct current as [cs|]; cbn [fst snd].
    + destruct Hcur as [Hcs Hlcs].
      split; [exact Hs | split; [exact Hintro | split; [exact Htl | split]]];
        [now apply add_line_ok | exact Hlcs].
    + destruct Hcur as [Hlen Hzero].
      destruct structure as [|s [|s' tl]]; [| |cbn in Hlen; lia].
      * cbn [HierarchicalChunker.needs_introduction map last app
             HierarchicalChunker.append_to_last tl List.length].
        split; [|split; [|split; [|split]]].
        -- constructor; [|constructor]. apply add_line_ok; [exact Hline|].
           apply introduction_ok.
        -- constructor; [|constructor]. intros _. discriminate.
        -- constructor.
        -- lia.
        -- constructor; [reflexivity | constructor].
      * apply Forall_inv in Hzero. apply Forall_inv in Hs.
        unfold HierarchicalChunker.needs_introduction. cbn [map last].
        rewrite Hzero. cbn [Nat.eqb negb HierarchicalChunker.append_to_last tl List.length].
        split; [|split; [|split; [|split]]].
        -- constructor; [|constructor]. now apply add_line_ok.
        -- constructor; [|constructor]. intros _. cbn.
           now destruct (HierarchicalChunker.content s).
        -- constructor.
        -- lia.
        -- constructor; [exact Hzero | constructor].
Qed.

Lemma parse_lines_ok lines :
  Forall (fun line => all_chars not_newline line = true) lines ->
  forall st, parser_ok st -> parser_ok (fold_left HierarchicalChunker.parse_line lines st).
Proof.
  induction 1 as [|l tl Hl _ IH]; intros st Hst; simpl; [exact Hst|].
  apply IH. now apply parse_line_ok.
Qed.

Lemma parse_structure_ok (text : string) :
  let sections := HierarchicalChunker._parse_structure text in
  Forall section_ok sections
  /\ Forall (fun s => HierarchicalChunker.level s = 0 -> HierarchicalChunker.content s <> [])
       sections
  /\ Forall (fun s => 1 <= HierarchicalChunker.level s) (tl sections).
Proof.
  cbn zeta. unfold HierarchicalChunker._parse_structure.
  pose proof (parse_lines_ok _ (split_char_no_newline text) ([], None)) as H.
  destruct (fold_left _ _ _) as [structure current].
  destruct H as (Hs & Hintro & Htl & Hcur).
  { unfold parser_ok. cbn. repeat split; auto; constructor. }
  cbn [fst snd] in *. destruct current as [cs|]; [|auto].
  destruct Hcur as [Hcs Hlcs]. split; [|split].
  - apply Forall_app. split; [exact Hs | constructor; [exact Hcs | constructor]].
  - apply Forall_app. split; [exact Hintro|].
    constructor; [intros E0; lia | constructor].
  - now apply tl_app_levels.
Qed.

(** X11.  The sections parsed from a document are well formed: levels go
    from 0 to 6; level 0 belongs to the section titled Introduction, which
    can only come first and is never empty; titles and body lines are
    trimmed, not empty and hold no newline. *)
Theorem parse_structure_well_formed (text : string) :
  let sections := HierarchicalChunker._parse_structure text in
  Forall (fun s =>
            HierarchicalChunker.level s <= 6
            /\ (HierarchicalChunker.level s = 0 ->
                HierarchicalChunker.title s = "Introduction"
                /\ HierarchicalChunker.content s <> [])
            /\ line_ok (HierarchicalChunker.title s)
            /\ Forall line_ok (HierarchicalChunker.content s)) sections
  /\ Forall (fun s => 1 <= HierarchicalChunker.level s) (tl sections).
Proof.
  cbn zeta. destruct (parse_structure_ok text) as (Hs & Hintro & Htl).
  split; [|exact Htl].
  rewrite Forall_forall in *. intros s Hin.
  destruct (Hs s Hin) as (H1 & H2 & H3 & H4). repeat split; auto; apply H3.
Qed.

(** ** One chunk per section *)

Lemma split_without_separator (sep s : string) :
  Str.contains sep s = false -> Str.split sep s = [s].
Proof.
  unfold Str.split. induction s as [|c s IH]; [reflexivity|].
  cbn [Str.contains Str.split_from]. intros H. apply orb_false_iff in H as [Hp Hc].
  rewrite Hp, (IH Hc). reflexivity.
Qed.

Lemma prefix_cons (a b : ascii) (s1 s2 : string) :
  String.prefix (String a s1) (String b s2)
  = if ascii_dec a b then String.prefix s1 s2 else false.
Proof. reflexivity. Qed.

Lemma prefix_nlnl_not_newline (c : ascii) (t : string) :
  not_newline c = true -> String.prefix Str.nlnl (String c t) = false.
Proof.
  unfold not_newline, Str.nlnl. intros H. rewrite prefix_cons.
  destruct (ascii_dec Str.newline c) as [<-|]; [|reflexivity].
  now rewrite Ascii.eqb_refl in H.
Qed.

Lemma no_blank_line_append (a b : string) :
  all_chars not_newline a = true -> starts_ok b ->
  Str.contains Str.nlnl b = false ->
  Str.contains Str.nlnl (a ++ Str.nl ++ b) = false.
Proof.
  intros Ha Hb Hc. induction a as [|c a IH].
  - change ("" ++ Str.nl ++ b)%string with (String Str.newline b).
    cbn [Str.contains]. rewrite Hc, orb_false_r.
    unfold Str.nlnl. rewrite prefix_cons.
    destruct (ascii_dec Str.newline Str.newline); [|reflexivity].
    destruct b as [|d b]; [reflexivity|]. rewrite prefix_cons.
    destruct (ascii_dec Str.newline d) as [<-|]; [|reflexivity].
    unfold starts_ok, not_newline in Hb. now rewrite Ascii.eqb_refl in Hb.
  - cbn in Ha. apply andb_true_iff in Ha as [Hc0 Ha].
    change ((String c a) ++ Str.nl ++ b)%string with (String c (a ++ Str.nl ++ b)).
    cbn [Str.contains]. rewrite (IH Ha), orb_false_r.
    now apply prefix_nlnl_not_newline.
Qed.

Lemma line_ok_starts (l : string) : line_ok l -> starts_ok l.
Proof.
  intros (Hne & _ & Hnl). destruct l as [|c l]; [exact I|].
  cbn in *. now apply andb_true_iff in Hnl as [Hc _].
Qed.

Lemma line_ok_rstrip (l : string) : line_ok l -> Str.rstrip l = l.
Proof.
  intros (_ & Hs & _). rewrite <- Hs at 1. unfold Str.strip. rewrite rstrip_involutive.
  exact Hs.
Qed.

Lemma body_has_no_blank_line (lines : list string) :
  Forall line_ok lines ->
  Str.contains Str.nlnl (Str.join Str.nl lines) = false
  /\ starts_ok (Str.join Str.nl lines).
Proof.
  unfold Str.join. induction 1 as [|l tl Hl Htl [IH1 IH2]]; [split; [reflexivity | exact I]|].
  destruct tl as [|l' tl].
  - cbn [String.concat]. split; [|now apply line_ok_starts].
    destruct Hl as (_ & _ & Hnl). clear -Hnl.
    induction l as [|c l IH]; [reflexivity|].
    cbn in Hnl. apply andb_true_iff in Hnl as [Hc Hnl].
    cbn [Str.contains]. rewrite (IH Hnl), orb_false_r.
    now apply prefix_nlnl_not_newline.
  - change (String.concat Str.nl (l :: l' :: tl))
      with (l ++ Str.nl ++ String.concat Str.nl (l' :: tl))%string.
    split.
    + apply no_blank_line_append; auto. apply Hl.
    + pose proof (line_ok_starts l Hl) as Hst. destruct Hl as (Hne & _).
      destruct l as [|c l]; [congruence | exact Hst].
Qed.

Lemma rstrip_append_fixed (a b : string) :
  Str.rstrip b = b -> b <> "" -> Str.rstrip (a ++ b) = (a ++ b)%string.
Proof.
  intros Hb Hne. induction a as [|c a IH]; simpl; [exact Hb|].
  rewrite IH. destruct (a ++ b)%string eqn:E; [|now rewrite andb_false_r].
  destruct a; simpl in E; [congruence | discriminate].
Qed.

Lemma rstrip_append_blank (a b : string) :
  all_chars Str.is_space b = true -> Str.rstrip (a ++ b) = Str.rstrip a.
Proof.
  intros Hb. induction a as [|c a IH]; simpl; [now apply rstrip_blank|].
  now rewrite IH.
Qed.

Lemma body_trimmed (lines : list string) :
  Forall line_ok lines -> lines <> [] ->
  Str.rstrip (Str.join Str.nl lines) = Str.join Str.nl lines
  /\ Str.join Str.nl lines <> "".
Proof.
  unfold Str.join. induction 1 as [|l tl Hl Htl IH]; [congruence|]. intros _.
  destruct tl as [|l' tl].
  - cbn [String.concat]. split; [now apply line_ok_rstrip | apply Hl].
  - change (String.concat Str.nl (l :: l' :: tl))
      with (l ++ Str.nl ++ String.concat Str.nl (l' :: tl))%string.
    destruct IH as [IH1 IH2]; [discriminate|]. split.
    + rewrite <- append_assoc. now apply rstrip_append_fixed.
    + destruct Hl as (Hne & _). destruct l; [congruence | discriminate].
Qed.

Lemma heading_text_trimmed (title body : string) :
  Str.rstrip body = body -> body <> "" ->
  Str.strip ("# " ++ title ++ body) = ("# " ++ title ++ body)%string.
Proof.
  intros Hb Hne. unfold Str.strip.
  change (Str.lstrip ("# " ++ title ++ body)) with ("# " ++ title ++ body)%string.
  rewrite <- (append_assoc "# " title body). now apply rstrip_append_fixed.
Qed.

Section OneChunkPerSection.
Variable count_tokens : string -> nat.
Variable max_tokens : nat.

Lemma chunk_section_one_chunk (s : HierarchicalChunker.section) :
  section_ok s ->
  HierarchicalChunker._chunk_section count_tokens max_tokens s
  = [section_chunk count_tokens max_tokens s].
Proof.
  intros (_ & _ & Htitle & Hlines).
  unfold HierarchicalChunker._chunk_section, section_chunk, section_text.
  set (title := HierarchicalChunker.title s) in *.
  set (body := Str.join Str.nl (HierarchicalChunker.content s)).
  assert (Hsplit : Str.split Str.nlnl body = [body])
    by (apply split_without_separator, body_has_no_blank_line, Hlines).
  assert (Hpack : HierarchicalChunker.pack_parts count_tokens max_tokens title [body] []
                    (HierarchicalChunker.title_prefix title)
                  = [Str.strip (HierarchicalChunker.title_prefix title ++ body ++ Str.nlnl)]).
  { cbn [HierarchicalChunker.pack_parts]. rewrite String.eqb_refl. cbn [negb].
    assert (Hneq : String.eqb (HierarchicalChunker.title_prefix title ++ body ++ Str.nlnl)
                     (HierarchicalChunker.title_prefix title) = false).
    { destruct (String.eqb _ _) eqn:E; [|reflexivity].
      apply (buffer_is_prefix title [body]) in E. discriminate. }
    destruct (count_tokens _ <=? max_tokens); cbn [HierarchicalChunker.pack_parts];
      now rewrite Hneq. }
  rewrite Hsplit, Hpack. clear Hsplit Hpack.
  assert (Htrim : Str.rstrip title = title /\ title <> "")
    by (split; [now apply line_ok_rstrip | apply Htitle]).
  destruct Htrim as [Ht1 Ht2].
  destruct (HierarchicalChunker.content s) as [|l tl] eqn:Hc.
  - subst body. cbn [Str.join String.concat]. rewrite append_empty_r.
    destruct (count_tokens _ <=? max_tokens); [reflexivity|]. f_equal.
    unfold HierarchicalChunker.title_prefix.
    change ("" ++ Str.nlnl)%string with Str.nlnl.
    replace (("# " ++ title ++ Str.nlnl) ++ Str.nlnl)%string
      with (("# " ++ title) ++ (Str.nlnl ++ Str.nlnl))%string
      by (now rewrite !append_assoc).
    unfold Str.strip.
    change (Str.lstrip (("# " ++ title) ++ Str.nlnl ++ Str.nlnl))
      with (("# " ++ title) ++ Str.nlnl ++ Str.nlnl)%string.
    rewrite rstrip_append_blank by reflexivity.
    now apply rstrip_append_fixed.
  - destruct (body_trimmed (l :: tl)) as [Hb1 Hb2]; [exact Hlines | discriminate|].
    fold body in Hb1, Hb2.
    destruct (count_tokens _ <=? max_tokens); [reflexivity|]. f_equal.
    unfold HierarchicalChunker.title_prefix.
    replace (("# " ++ title ++ Str.nlnl) ++ body ++ Str.nlnl)%string
      with (("# " ++ title ++ Str.nlnl ++ body) ++ Str.nlnl)%string
      by (now rewrite !append_assoc).
    unfold Str.strip.
    change (Str.lstrip (("# " ++ title ++ Str.nlnl ++ body) ++ Str.nlnl))
      with (("# " ++ title ++ Str.nlnl ++ body) ++ Str.nlnl)%string.
    rewrite rstrip_append_blank by reflexivity.
    replace ("# " ++ title ++ Str.nlnl ++ body)%string
      with (("# " ++ title ++ Str.nlnl) ++ body)%string
      by (now rewrite !append_assoc).
    now apply rstrip_append_fixed.
Qed.

Lemma hierarchical_chunk_map (text : string) (doc_type : DocumentType) :
  HierarchicalChunker.chunk count_tokens max_tokens text doc_type
  = map (section_chunk count_tokens max_tokens) (HierarchicalChunker._parse_structure text).
Proof.
  unfold HierarchicalChunker.chunk.
  destruct (parse_structure_ok text) as (Hs & _).
  induction Hs as [|s tl Hs _ IH]; [reflexivity|].
  cbn [flat_map map]. now rewrite chunk_section_one_chunk, IH.
Qed.

End OneChunkPerSection.

(** X12.  The hierarchical chunker returns exactly one chunk per parsed
    section, in order, and never splits a section: a section with a body
    comes back as its heading line, a blank line and the body, whatever the
    token budget and the tokenizer; only a section without body depends on
    the budget (the title prefix, or the bare heading line). *)
Theorem hierarchical_one_chunk_per_section
    (count_tokens : string -> nat) (max_tokens : nat)
    (text : string) (doc_type : DocumentType) :
  HierarchicalChunker.chunk count_tokens max_tokens text doc_type
  = map (fun s =>
           match HierarchicalChunker.content s with
           | [] =>
               if count_tokens (HierarchicalChunker.title_prefix (HierarchicalChunker.title s))
                  <=? max_tokens
               then HierarchicalChunker.title_prefix (HierarchicalChunker.title s)
               else ("# " ++ HierarchicalChunker.title s)%string
           | _ => ("# " ++ HierarchicalChunker.title s ++ Str.nlnl
                   ++ Str.join Str.nl (HierarchicalChunker.content s))%string
           end)
      (HierarchicalChunker._parse_structure text)
  /\ List.length (HierarchicalChunker.chunk count_tokens max_tokens text doc_type)
     = List.length (HierarchicalChunker._parse_structure text).
Proof.
  rewrite hierarchical_chunk_map, length_map. split; [|reflexivity].
  apply map_ext. intros s. unfold section_chunk, section_text.
  destruct (HierarchicalChunker.content s); [reflexivity|].
  unfold HierarchicalChunker.title_prefix. now rewrite !append_assoc.
Qed.

(** The budget has no effect on a document whose sections all have a body:
    a budget of one token and one of 512 give the same chunks. *)
Example hierarchical_ignores_budget :
  let text := ("# A" ++ Str.nl ++ "first line" ++ Str.nl ++ Str.nl ++ "second line"
               ++ Str.nl ++ "## B" ++ Str.nl ++ "body of b")%string in
  HierarchicalChunker.chunk char_tokens 1 text POLICY
  = [ ("# A" ++ Str.nlnl ++ "first line" ++ Str.nl ++ "second line")%string;
      ("# B" ++ Str.nlnl ++ "body of b")%string ]
  /\ HierarchicalChunker.chunk char_tokens 512 text POLICY
     = HierarchicalChunker.chunk char_tokens 1 text POLICY.
Proof. split; reflexivity. Qed.

(** ** Section titles of hierarchical chunks *)

Lemma split_char_first_line (a rest : string) :
  all_chars not_newline a = true ->
  Str.split_char Str.newline (a ++ Str.nl ++ rest)
  = a :: Str.split_char Str.newline rest.
Proof.
  intros Ha. induction a as [|c a IH].
  - change ("" ++ Str.nl ++ rest)%string with (String Str.newline rest).
    cbn [Str.split_char]. now rewrite Ascii.eqb_refl.
  - cbn in Ha. apply andb_true_iff in Ha as [Hc Ha].
    change ((String c a) ++ Str.nl ++ rest)%string with (String c (a ++ Str.nl ++ rest)).
    cbn [Str.split_char]. rewrite (IH Ha).
    unfold not_newline in Hc. apply negb_true_iff in Hc. now rewrite Hc.
Qed.

Lemma split_char_one_line (a : string) :
  all_chars not_newline a = true -> Str.split_char Str.newline a = [a].
Proof.
  intros Ha. induction a as [|c a IH]; [reflexivity|].
  cbn in Ha. apply andb_true_iff in Ha as [Hc Ha].
  cbn [Str.split_char]. rewrite (IH Ha).
  unfold not_newline in Hc. apply negb_true_iff in Hc. now rewrite Hc.
Qed.

Lemma first_heading_of_heading_line (title : string) (rest : list string) :
  line_ok title ->
  IntelligentChunker.first_heading (("# " ++ title)%string :: rest) = Some title.
Proof.
  intros Hok. pose proof (line_ok_rstrip title Hok) as Hr.
  destruct Hok as (Hne & Hs & _).
  cbn [IntelligentChunker.first_heading].
  assert (Hline : Str.strip ("# " ++ title) = ("# " ++ title)%string).
  { unfold Str.strip. change (Str.lstrip ("# " ++ title)) with ("# " ++ title)%string.
    now apply rstrip_append_fixed. }
  rewrite Hline.
  change (Str.startswith "#" ("# " ++ title)) with true.
  change (Str.lstrip_char "#" ("# " ++ title)) with (String " " title).
  apply f_equal. unfold Str.strip.
  change (Str.lstrip (String " " title)) with (Str.lstrip title). exact Hs.
Qed.

Lemma heading_line_no_newline (title : string) :
  line_ok title -> all_chars not_newline ("# " ++ title) = true.
Proof. intros (_ & _ & H). exact H. Qed.

Lemma section_chunk_title (count_tokens : string -> nat) (max_tokens : nat)
    (s : HierarchicalChunker.section) :
  section_ok s ->
  IntelligentChunker._extract_section_title (section_chunk count_tokens max_tokens s)
  = Some (HierarchicalChunker.title s).
Proof.
  intros (_ & _ & Htitle & _).
  pose proof (heading_line_no_newline _ Htitle) as Hnl.
  set (title := HierarchicalChunker.title s) in *.
  assert (Hlong : forall rest,
            IntelligentChunker._extract_section_title
              (HierarchicalChunker.title_prefix title ++ rest) = Some title).
  { intros rest. unfold IntelligentChunker._extract_section_title,
      HierarchicalChunker.title_prefix.
    replace (("# " ++ title ++ Str.nlnl) ++ rest)%string
      with (("# " ++ title) ++ Str.nl ++ (Str.nl ++ rest))%string
      by (unfold Str.nlnl, Str.nl; rewrite !append_assoc; reflexivity).
    rewrite split_char_first_line by exact Hnl.
    now apply first_heading_of_heading_line. }
  unfold section_chunk, section_text. fold title.
  destruct (HierarchicalChunker.content s).
  - destruct (count_tokens _ <=? max_tokens).
    + rewrite <- (append_empty_r (HierarchicalChunker.title_prefix title)). apply Hlong.
    + unfold IntelligentChunker._extract_section_title.
      rewrite split_char_one_line by exact Hnl.
      now apply first_heading_of_heading_line.
  - apply Hlong.
Qed.

Lemma hierarchical_chunk_titles (count_tokens : string -> nat) (max_tokens : nat)
    (text : string) (doc_type : DocumentType) :
  map IntelligentChunker._extract_section_title
    (HierarchicalChunker.chunk count_tokens max_tokens text doc_type)
  = map (fun s => Some (HierarchicalChunker.title s))
      (HierarchicalChunker._parse_structure text).
Proof.
  rewrite hierarchical_chunk_map, map_map.
  destruct (parse_structure_ok text) as (Hs & _).
  induction Hs as [|s tl Hs _ IH]; [reflexivity|].
  cbn [map]. now rewrite section_chunk_title, IH.
Qed.

Lemma metadata_section_titles
    (count_tokens : string -> nat) (md5_hexdigest : string -> string) (now : string)
    (content filename : string) (doc_id : option string) :
  map IntelligentChunker.m_section_title
    (IntelligentChunker.r_metadata
       (IntelligentChunker.process_document count_tokens md5_hexdigest now
          content filename doc_id))
  = map IntelligentChunker._extract_section_title
      (IntelligentChunker.r_chunks
         (IntelligentChunker.process_document count_tokens md5_hexdigest now
            content filename doc_id)).
Proof.
  unfold IntelligentChunker.process_document.
  cbn [IntelligentChunker.r_metadata IntelligentChunker.r_chunks].
  set (chunks := IntelligentChunker.chunkers count_tokens _ content _).
  set (mk := IntelligentChunker.make_metadata count_tokens _ _ _).
  rewrite !map_map.
  rewrite (map_ext _ (fun x => IntelligentChunker._extract_section_title (snd x)))
    by (intros [i c]; reflexivity).
  rewrite <- (map_map snd IntelligentChunker._extract_section_title).
  unfold enumerate. now rewrite enumerate_snd.
Qed.

(** X13.  When the hierarchical strategy is selected, the metadata entries
    carry the titles of the parsed sections, one per section and in order:
    each chunk starts with its section's heading line, and
    [_extract_section_title] reads the title back from it; no entry of such
    a result lacks a section title. *)
Theorem hierarchical_metadata_titles
    (count_tokens : string -> nat) (md5_hexdigest : string -> string) (now : string)
    (content filename : string) (doc_id : option string) :
  IntelligentChunker.strategy_map (DocumentClassifier.classify content filename)
  = HIERARCHICAL ->
  map IntelligentChunker.m_section_title
    (IntelligentChunker.r_metadata
       (IntelligentChunker.process_document count_tokens md5_hexdigest now
          content filename doc_id))
  = map (fun s => Some (HierarchicalChunker.title s))
      (HierarchicalChunker._parse_structure content).
Proof.
  intros Hst. rewrite metadata_section_titles.
  unfold IntelligentChunker.process_document. cbn [IntelligentChunker.r_chunks].
  rewrite Hst. cbn [IntelligentChunker.chunkers].
  apply hierarchical_chunk_titles.
Qed.

Lemma hierarchical_metadata_titles_witness :
  map IntelligentChunker.m_section_title
    (IntelligentChunker.r_metadata
       (IntelligentChunker.process_document char_tokens md5_table "2026-01-01T00:00:00"
          ("preface" ++ Str.nl ++ "# Leave" ++ Str.nl ++ "ask first"
           ++ Str.nl ++ "## Sick days")
          "policy.md" None))
  = [Some "Introduction"; Some "Leave"; Some "Sick days"].
Proof.
  apply (hierarchical_metadata_titles char_tokens md5_table "2026-01-01T00:00:00"
           ("preface" ++ Str.nl ++ "# Leave" ++ Str.nl ++ "ask first"
            ++ Str.nl ++ "## Sick days")
           "policy.md" None).
  vm_compute. reflexivity.
Defined.

(** ** Splitting an oversized code block (CodeAwareChunker._split_code_block) *)

Lemma split_char_nonempty (sep : ascii) (s : string) : Str.split_char sep s <> [].
Proof.
  induction s as [|c s IH]; cbn [Str.split_char]; [discriminate|].
  destruct (Ascii.eqb c sep); [discriminate|].
  destruct (Str.split_char sep s); [congruence | discriminate].
Qed.

Lemma split_char_append (sep : ascii) (a b : string) :
  Str.split_char sep (a ++ String sep b)
  = Str.split_char sep a ++ Str.split_char sep b.
Proof.
  induction a as [|c a IH].
  - cbn [append Str.split_char app]. now rewrite Ascii.eqb_refl.
  - cbn [append Str.split_char]. rewrite IH.
    destruct (Ascii.eqb c sep); [reflexivity|].
    pose proof (split_char_nonempty sep a) as Hne.
    destruct (Str.split_char sep a); [congruence | reflexivity].
Qed.

Section PackLines.
Variable count_tokens : string -> nat.
Variable max_tokens : nat.

Lemma pack_lines_groups :
  forall lines chunks cur,
    Forall (fun l => all_chars not_newline l = true) lines ->
    exists bodies,
      CodeAwareChunker.pack_lines count_tokens max_tokens lines chunks cur
      = chunks ++ map CodeAwareChunker.wrap bodies
      /\ Forall (fun b => b <> "") bodies
      /\ filter Str.truthy (flat_map (Str.split_char Str.newline) bodies)
         = filter Str.truthy (Str.split_char Str.newline cur ++ lines)
      /\ Forall (fun b => count_tokens b <= max_tokens \/ In b lines \/ b = cur) bodies.
Proof.
  induction lines as [|line tl IH]; intros chunks cur Hnl.
  - cbn [CodeAwareChunker.pack_lines]. destruct cur as [|c cur].
    + exists []. cbn. rewrite app_nil_r. repeat split; constructor.
    + exists [String c cur]. cbn [Str.truthy Str.is_empty negb map flat_map].
      repeat split.
      * constructor; [discriminate | constructor].
      * constructor; [now right; right | constructor].
  - inversion Hnl as [|? ? Hline Htl]; subst.
    cbn [CodeAwareChunker.pack_lines]. destruct cur as [|c cur].
    + cbn [Str.truthy Str.is_empty negb].
      assert (Hboth : exists bodies,
                CodeAwareChunker.pack_lines count_tokens max_tokens tl chunks line
                = chunks ++ map CodeAwareChunker.wrap bodies
                /\ Forall (fun b => b <> "") bodies
                /\ filter Str.truthy (flat_map (Str.split_char Str.newline) bodies)
                   = filter Str.truthy (Str.split_char Str.newline "" ++ line :: tl)
                /\ Forall (fun b => count_tokens b <= max_tokens
                                    \/ In b (line :: tl) \/ b = "") bodies).
      { destruct (IH chunks line Htl) as (bodies & E & Hne & Hf & Hb).
        exists bodies. repeat split; auto.
        - rewrite Hf, (split_char_one_line line Hline). reflexivity.
        - eapply Forall_impl; [|exact Hb]. cbn. intros b [H | [H | H]]; auto. }
      destruct (count_tokens line <=? max_tokens); exact Hboth.
    + cbn [Str.truthy Str.is_empty negb].
      set (cur' := String c cur) in *.
      destruct (count_tokens (cur' ++ Str.nl ++ line) <=? max_tokens) eqn:Hfit.
      * destruct (IH chunks (cur' ++ Str.nl ++ line)%string Htl)
          as (bodies & E & Hne & Hf & Hb).
        exists bodies. repeat split; auto.
        -- rewrite Hf.
           change (cur' ++ Str.nl ++ line)%string
             with (cur' ++ String Str.newline line)%string.
           rewrite split_char_append, (split_char_one_line line Hline), <- app_assoc.
           reflexivity.
        -- eapply Forall_impl; [|exact Hb]. cbn. intros b [H | [H | H]]; auto.
           left. subst b. now apply Nat.leb_le.
      * destruct (IH (chunks ++ [CodeAwareChunker.wrap cur']) line Htl)
          as (bodies & E & Hne & Hf & Hb).
        exists (cur' :: bodies). repeat split.
        -- rewrite E, <- app_assoc. reflexivity.
        -- constructor; [unfold cur'; discriminate | exact Hne].
        -- cbn [flat_map]. rewrite filter_app, Hf, (split_char_one_line line Hline).
           rewrite (filter_app _ (Str.split_char Str.newline cur') (line :: tl)).
           reflexivity.
        -- constructor; [now right; right|].
           eapply Forall_impl; [|exact Hb]. cbn. intros b [H | [H | H]]; auto.
Qed.

End PackLines.

(** X14.  When no declaration pattern matches the unfenced text of a code
    block, [_split_code_block] packs its lines: every fragment is a fenced
    non-empty body, the non-empty lines of the bodies are the non-empty
    lines of the unfenced text in the same order (no code line is lost,
    repeated or moved), and a body is over the budget only when it is a
    single line of the text. *)
Theorem split_code_block_by_lines
    (count_tokens : string -> nat) (max_tokens : nat) (code_block : string) :
  CodeAwareChunker.structure_matches CodeAwareChunker.patterns
    (CodeAwareChunker.strip_markers code_block) = [] ->
  exists bodies,
    CodeAwareChunker._split_code_block count_tokens max_tokens code_block
    = map CodeAwareChunker.wrap bodies
    /\ Forall (fun b => b <> "") bodies
    /\ filter Str.truthy (flat_map (Str.split_char Str.newline) bodies)
       = filter Str.truthy
           (Str.split_char Str.newline (CodeAwareChunker.strip_markers code_block))
    /\ Forall (fun b => count_tokens b <= max_tokens
                        \/ In b (Str.split_char Str.newline
                                   (CodeAwareChunker.strip_markers code_block)))
         bodies.
Proof.
  intros Hno. unfold CodeAwareChunker._split_code_block. rewrite Hno.
  destruct (pack_lines_groups count_tokens max_tokens
              (Str.split_char Str.newline (CodeAwareChunker.strip_markers code_block))
              [] "" (split_char_no_newline _))
    as (bodies & E & Hne & Hf & Hb).
  exists bodies. repeat split; auto.
  rewrite Forall_forall in *. intros b Hin.
  destruct (Hb b Hin) as [H | [H | H]]; auto.
  subst b. now destruct (Hne "" Hin).
Qed.

Lemma split_code_block_by_lines_witness :
  exists bodies,
    CodeAwareChunker._split_code_block char_tokens 8
      (CodeAwareChunker.fence ++ "sql" ++ Str.nl ++ "select a" ++ Str.nl ++ Str.nl
       ++ "from t" ++ Str.nl ++ "where a > 100" ++ Str.nl ++ CodeAwareChunker.fence)
    = map CodeAwareChunker.wrap bodies
    /\ Forall (fun b => b <> "") bodies
    /\ filter Str.truthy (flat_map (Str.split_char Str.newline) bodies)
       = filter Str.truthy
           (Str.split_char Str.newline
              (CodeAwareChunker.strip_markers
                 (CodeAwareChunker.fence ++ "sql" ++ Str.nl ++ "select a" ++ Str.nl ++ Str.nl
                  ++ "from t" ++ Str.nl ++ "where a > 100" ++ Str.nl
                  ++ CodeAwareChunker.fence)))
    /\ Forall (fun b => char_tokens b <= 8
                        \/ In b (Str.split_char Str.newline
                                   (CodeAwareChunker.strip_markers
                                      (CodeAwareChunker.fence ++ "sql" ++ Str.nl ++ "select a"
                                       ++ Str.nl ++ Str.nl ++ "from t" ++ Str.nl
                                       ++ "where a > 100" ++ Str.nl
                                       ++ CodeAwareChunker.fence))))
         bodies.
Proof.
  apply (split_code_block_by_lines char_tokens 8
           (CodeAwareChunker.fence ++ "sql" ++ Str.nl ++ "select a" ++ Str.nl ++ Str.nl
            ++ "from t" ++ Str.nl ++ "where a > 100" ++ Str.nl ++ CodeAwareChunker.fence)).
  vm_compute. reflexivity.
Defined.

(** The line packing on that block: the blank line is dropped from the
    start of the group it would open, and the line that is over the budget
    on its own is emitted alone. *)
Example split_code_block_lines_scenario :
  CodeAwareChunker._split_code_block char_tokens 8
    (CodeAwareChunker.fence ++ "sql" ++ Str.nl ++ "select a" ++ Str.nl ++ Str.nl
     ++ "from t" ++ Str.nl ++ "where a > 100" ++ Str.nl ++ CodeAwareChunker.fence)
  = [ CodeAwareChunker.wrap "select a";
      CodeAwareChunker.wrap "from t";
      CodeAwareChunker.wrap "where a > 100" ].
Proof. vm_compute. reflexivity. Qed.

(** A match of a case-sensitive pattern [^lit...] starts with [lit]. *)
Lemma bol_lit_match_starts f lit body ma p s h :
  re.IGNORECASE f = false ->
  re.match_here f (re.Seq re.Bol (re.Seq (re.Lit lit) body)) ma p s = Some h ->
  exists u, re.h_text h = (lit ++ u)%string.
Proof.
  intros Hf. unfold re.match_here. cbn [re.run].
  destruct (re.at_bol f _); [|discriminate].
  cbn [re.prev re.rest re.groups].
  destruct (re.eat_lit f lit p s) as [[p' t]|] eqn:He; [|discriminate].
  destruct (eat_lit_through _ _ _ _ _ _ He) as (u0 & -> & _ & Hu).
  rewrite (Hu Hf) in *. clear Hu.
  destruct (re.run f body _ _) as [st'|] eqn:Hrun; [|discriminate].
  intros [= <-]. cbn [re.h_text].
  destruct (run_through _ _ _ _ _ Hrun) as (st1 & Hfin & u & E).
  unfold re.finish in Hfin. cbn [re.rest] in E.
  destruct (ma && _)%bool; [discriminate|].
  injection Hfin as ->. subst t.
  exists u. rewrite <- append_assoc. apply take_append_length.
Qed.

Lemma findall_decl_starts (kw code : string) :
  Forall (fun b => exists u, b = (kw ++ u)%string)
    (re.findall re.flag_ms (CodeAwareChunker.decl_pattern kw) code).
Proof.
  unfold re.findall, re.finditer. apply Forall_map.
  apply (scan_hits re.flag_ms (CodeAwareChunker.decl_pattern kw)
           (fun h => exists u, re.h_text h = (kw ++ u)%string)).
  intros ma p s h. apply bol_lit_match_starts. reflexivity.
Qed.

Lemma structure_matches_keyword (kws : list string) (code : string) :
  CodeAwareChunker.structure_matches (map CodeAwareChunker.decl_pattern kws) code <> [] ->
  exists kw, In kw kws
    /\ CodeAwareChunker.structure_matches (map CodeAwareChunker.decl_pattern kws) code
       = re.findall re.flag_ms (CodeAwareChunker.decl_pattern kw) code.
Proof.
  induction kws as [|kw tl IH]; cbn [map CodeAwareChunker.structure_matches]; [congruence|].
  destruct (re.findall re.flag_ms (CodeAwareChunker.decl_pattern kw) code) eqn:E.
  - intros H. destruct (IH H) as (kw' & Hin & E'). exists kw'. split; [now right | exact E'].
  - intros _. exists kw. split; [now left | now rewrite E].
Qed.

Lemma structure_matches_first (kws : list string) (code : string) :
  CodeAwareChunker.structure_matches (map CodeAwareChunker.decl_pattern kws) code <> [] ->
  exists pre kw post,
    kws = pre ++ kw :: post
    /\ Forall (fun k => re.findall re.flag_ms (CodeAwareChunker.decl_pattern k) code = []) pre
    /\ re.findall re.flag_ms (CodeAwareChunker.decl_pattern kw) code <> []
    /\ CodeAwareChunker.structure_matches (map CodeAwareChunker.decl_pattern kws) code
       = re.findall re.flag_ms (CodeAwareChunker.decl_pattern kw) code.
Proof.
  induction kws as [|kw tl IH]; cbn [map CodeAwareChunker.structure_matches]; [congruence|].
  destruct (re.findall re.flag_ms (CodeAwareChunker.decl_pattern kw) code) eqn:E.
  - intros H. destruct (IH H) as (pre & kw' & post & -> & Hpre & Hne & E').
    exists (kw :: pre), kw', post. repeat split; auto.
  - intros _. exists [], kw, tl. rewrite E. repeat split; [constructor | discriminate].
Qed.

(** X15.  When a declaration pattern matches the unfenced text of a code
    block, the fragments of [_split_code_block] are all the matches of the
    first pattern that has a match, in order, each put between fences: the
    patterns for the keywords before it in def, class, function, public
    have no match, every fragment's body starts with that keyword, there is
    at least one fragment, and the tokenizer and the budget are not
    consulted (the fragments may exceed the budget). *)
Theorem split_code_block_by_declarations
    (count_tokens : string -> nat) (max_tokens : nat) (code_block : string) :
  CodeAwareChunker.structure_matches CodeAwareChunker.patterns
    (CodeAwareChunker.strip_markers code_block) <> [] ->
  (exists pre kw post,
     ["def"; "class"; "function"; "public"] = pre ++ kw :: post
     /\ Forall (fun k =>
                  re.findall re.flag_ms (CodeAwareChunker.decl_pattern k)
                    (CodeAwareChunker.strip_markers code_block) = []) pre
     /\ re.findall re.flag_ms (CodeAwareChunker.decl_pattern kw)
          (CodeAwareChunker.strip_markers code_block) <> []
     /\ CodeAwareChunker._split_code_block count_tokens max_tokens code_block
        = map CodeAwareChunker.wrap
            (re.findall re.flag_ms (CodeAwareChunker.decl_pattern kw)
               (CodeAwareChunker.strip_markers code_block))
     /\ Forall (fun b => exists u, b = (kw ++ u)%string)
          (re.findall re.flag_ms (CodeAwareChunker.decl_pattern kw)
             (CodeAwareChunker.strip_markers code_block)))
  /\ (exists kw bodies,
        In kw ["def"; "class"; "function"; "public"]
        /\ bodies <> []
        /\ CodeAwareChunker._split_code_block count_tokens max_tokens code_block
           = map CodeAwareChunker.wrap bodies
        /\ Forall (fun b => exists u, b = (kw ++ u)%string) bodies)
  /\ forall count_tokens' max_tokens',
       CodeAwareChunker._split_code_block count_tokens' max_tokens' code_block
       = CodeAwareChunker._split_code_block count_tokens max_tokens code_block.
Proof.
  intros Hsome.
  change CodeAwareChunker.patterns
    with (map CodeAwareChunker.decl_pattern ["def"; "class"; "function"; "public"])
    in Hsome.
  destruct (structure_matches_first _ _ Hsome) as (pre & kw & post & Ekws & Hpre & Hne & E).
  assert (Hsplit : forall count_tokens0 max_tokens0,
            CodeAwareChunker._split_code_block count_tokens0 max_tokens0 code_block
            = map CodeAwareChunker.wrap
                (re.findall re.flag_ms (CodeAwareChunker.decl_pattern kw)
                   (CodeAwareChunker.strip_markers code_block))).
  { intros count_tokens0 max_tokens0. unfold CodeAwareChunker._split_code_block.
    change CodeAwareChunker.patterns
      with (map CodeAwareChunker.decl_pattern ["def"; "class"; "function"; "public"]).
    rewrite E.
    destruct (re.findall re.flag_ms (CodeAwareChunker.decl_pattern kw)
                (CodeAwareChunker.strip_markers code_block)); [congruence | reflexivity]. }
  split; [|split].
  - exists pre, kw, post. repeat split; auto. apply findall_decl_starts.
  - exists kw, (re.findall re.flag_ms (CodeAwareChunker.decl_pattern kw)
                  (CodeAwareChunker.strip_markers code_block)).
    repeat split; auto; [|apply findall_decl_starts].
    rewrite Ekws. apply in_or_app. right. now left.
  - intros count_tokens' max_tokens'. now rewrite !Hsplit.
Qed.

Lemma split_code_block_by_declarations_witness :
  let code_block :=
    (CodeAwareChunker.fence ++ "python" ++ Str.nl ++ "import os" ++ Str.nl
        ++ "class A:" ++ Str.nl ++ "  x = 1" ++ Str.nl
        ++ "class B(A):" ++ Str.nl ++ "  y = 2" ++ Str.nl ++ CodeAwareChunker.fence)%string in
  exists pre kw post,
    ["def"; "class"; "function"; "public"] = pre ++ kw :: post
    /\ Forall (fun k =>
                 re.findall re.flag_ms (CodeAwareChunker.decl_pattern k)
                   (CodeAwareChunker.strip_markers code_block) = []) pre
    /\ re.findall re.flag_ms (CodeAwareChunker.decl_pattern kw)
         (CodeAwareChunker.strip_markers code_block) <> []
    /\ CodeAwareChunker._split_code_block char_tokens 5 code_block
       = map CodeAwareChunker.wrap
           (re.findall re.flag_ms (CodeAwareChunker.decl_pattern kw)
              (CodeAwareChunker.strip_markers code_block))
    /\ Forall (fun b => exists u, b = (kw ++ u)%string)
         (re.findall re.flag_ms (CodeAwareChunker.decl_pattern kw)
            (CodeAwareChunker.strip_markers code_block)).
Proof.
  apply (proj1 (split_code_block_by_declarations char_tokens 5
           (CodeAwareChunker.fence ++ "python" ++ Str.nl ++ "import os" ++ Str.nl
        ++ "class A:" ++ Str.nl ++ "  x = 1" ++ Str.nl
        ++ "class B(A):" ++ Str.nl ++ "  y = 2" ++ Str.nl ++ CodeAwareChunker.fence)
           ltac:(vm_compute; discriminate))).
Defined.

(** The split by declarations on that block: the text before the first
    declaration (here the import line) is in no fragment. *)
Example split_code_block_declarations_scenario :
  CodeAwareChunker._split_code_block char_tokens 5
    (CodeAwareChunker.fence ++ "python" ++ Str.nl ++ "import os" ++ Str.nl
     ++ "class A:" ++ Str.nl ++ "  x = 1" ++ Str.nl
     ++ "class B(A):" ++ Str.nl ++ "  y = 2" ++ Str.nl ++ CodeAwareChunker.fence)
  = [ CodeAwareChunker.wrap ("class A:" ++ Str.nl ++ "  x = 1" ++ Str.nl);
      CodeAwareChunker.wrap ("class B(A):" ++ Str.nl ++ "  y = 2" ++ Str.nl) ].
Proof. vm_compute. reflexivity. Qed.

(** ** The dashboard on results of the engine (app.py) *)

Lemma metadata_token_counts
    (count_tokens : string -> nat) (md5_hexdigest : string -> string) (now : string)
    (content filename : string) (doc_id : option string) :
  map IntelligentChunker.m_token_count
    (IntelligentChunker.r_metadata
       (IntelligentChunker.process_document count_tokens md5_hexdigest now
          content filename doc_id))
  = map count_tokens
      (IntelligentChunker.r_chunks
         (IntelligentChunker.process_document count_tokens md5_hexdigest now
            content filename doc_id)).
Proof.
  unfold IntelligentChunker.process_document.
  cbn [IntelligentChunker.r_metadata IntelligentChunker.r_chunks].
  set (chunks := IntelligentChunker.chunkers count_tokens _ content _).
  set (mk := IntelligentChunker.make_metadata count_tokens _ _ _).
  rewrite !map_map.
  rewrite (map_ext _ (fun x => count_tokens (snd x))) by (intros [i c]; reflexivity).
  rewrite <- (map_map snd count_tokens).
  unfold enumerate. now rewrite enumerate_snd.
Qed.

(** X16.  The average shown by [display_metrics] on a result of
    [process_document]: with at least one chunk it is the sum of the token
    counts of the chunks over their number; on a result without chunks the
    division raises ZeroDivisionError.  A whitespace-only document (which
    the file upload sends without a check) gives such a result. *)
Theorem display_metrics_average
    (count_tokens : string -> nat) (md5_hexdigest : string -> string) (now : string)
    (content filename : string) (doc_id : option string) :
  let r := IntelligentChunker.process_document count_tokens md5_hexdigest now
             content filename doc_id in
  App.avg_tokens (IntelligentChunker.r_metadata r)
  = match IntelligentChunker.r_chunks r with
    | [] => Raises "ZeroDivisionError"
    | _ => Returns (list_sum (map count_tokens (IntelligentChunker.r_chunks r)),
                    List.length (IntelligentChunker.r_chunks r))
    end
  /\ (Str.has_non_space content = false ->
      App.avg_tokens (IntelligentChunker.r_metadata r) = Raises "ZeroDivisionError").
Proof.
  intros r.
  assert (Hmain : App.avg_tokens (IntelligentChunker.r_metadata r)
                  = match IntelligentChunker.r_chunks r with
                    | [] => Raises "ZeroDivisionError"
                    | _ => Returns (list_sum (map count_tokens (IntelligentChunker.r_chunks r)),
                                    List.length (IntelligentChunker.r_chunks r))
                    end).
  { unfold App.avg_tokens. subst r. rewrite metadata_token_counts.
    assert (Hlen : List.length
                     (IntelligentChunker.r_metadata
                        (IntelligentChunker.process_document count_tokens md5_hexdigest now
                           content filename doc_id))
                   = List.length
                       (IntelligentChunker.r_chunks
                          (IntelligentChunker.process_document count_tokens md5_hexdigest now
                             content filename doc_id))).
    { rewrite <- (length_map IntelligentChunker.m_token_count), metadata_token_counts.
      apply length_map. }
    rewrite Hlen.
    destruct (IntelligentChunker.r_chunks _); reflexivity. }
  split; [exact Hmain|].
  intros Hb. rewrite Hmain. subst r.
  unfold IntelligentChunker.process_document. cbn [IntelligentChunker.r_chunks].
  now rewrite (chunkers_blank count_tokens _ content _ Hb).
Qed.

Lemma display_metrics_average_witness :
  App.avg_tokens
    (IntelligentChunker.r_metadata
       (IntelligentChunker.process_document char_tokens md5_table "2026-01-01T00:00:00"
          ("  " ++ Str.nl ++ " ") "notes.md" None))
  = Raises "ZeroDivisionError".
Proof.
  apply (proj2 (display_metrics_average char_tokens md5_table "2026-01-01T00:00:00"
                  ("  " ++ Str.nl ++ " ") "notes.md" None)).
  reflexivity.
Defined.

Lemma enumerate_nth {A : Type} (l : list A) :
  forall a i x, nth_error l i = Some x ->
    nth_error (combine (seq a (List.length l)) l) i = Some (a + i, x).
Proof.
  induction l as [|y l IH]; intros a [|i] x H; try discriminate.
  - injection H as <-. cbn. now rewrite Nat.add_0_r.
  - cbn [List.length seq combine nth_error]. rewrite (IH (S a) i x H).
    now rewrite Nat.add_succ_r.
Qed.

Lemma join_nth (sep : string) (l : list string) :
  forall i x, nth_error l i = Some x ->
    exists pre post, Str.join sep l = (pre ++ x ++ post)%string.
Proof.
  unfold Str.join. induction l as [|y l IH]; intros [|i] x H; try discriminate.
  - injection H as <-. exists "". destruct l as [|z l].
    + exists "". cbn [String.concat append]. now rewrite append_empty_r.
    + exists (sep ++ String.concat sep (z :: l))%string. reflexivity.
  - cbn [nth_error] in H. destruct (IH i x H) as (pre & post & E).
    destruct l as [|z l]; [now destruct i|].
    exists (y ++ sep ++ pre)%string, post.
    change (String.concat sep (y :: z :: l))
      with (y ++ sep ++ String.concat sep (z :: l))%string.
    now rewrite E, !append_assoc.
Qed.

Lemma join_cons (sep x : string) (l : list string) :
  Str.join sep (x :: l)
  = (x ++ String.concat "" (map (fun y => (sep ++ y)%string) l))%string.
Proof.
  unfold Str.join. revert x. induction l as [|y l IH]; intros x.
  - cbn. now rewrite append_empty_r.
  - change (String.concat sep (x :: y :: l))
      with (x ++ sep ++ String.concat sep (y :: l))%string.
    cbn [map]. rewrite concat_empty_cons, IH, append_assoc. reflexivity.
Qed.

Lemma join_split (sep x : string) (l1 l2 : list string) :
  Str.join sep (l1 ++ x :: l2)
  = (Str.join sep l1 ++ match l1 with [] => "" | _ => sep end ++ x
     ++ String.concat "" (map (fun y => (sep ++ y)%string) l2))%string.
Proof.
  induction l1 as [|a l1 IH].
  - cbn [app]. rewrite join_cons. reflexivity.
  - destruct l1 as [|b l1].
    + cbn [app]. rewrite (join_cons sep a (x :: l2)). cbn [map].
      rewrite concat_empty_cons. unfold Str.join. cbn [String.concat].
      now rewrite !append_assoc.
    + change (Str.join sep ((a :: b :: l1) ++ x :: l2))
        with (a ++ sep ++ Str.join sep ((b :: l1) ++ x :: l2))%string.
      rewrite IH.
      change (Str.join sep (a :: b :: l1))
        with (a ++ sep ++ Str.join sep (b :: l1))%string.
      now rewrite !append_assoc.
Qed.

Lemma combine_app_seq {A : Type} (l1 l2 : list A) (a : nat) :
  combine (seq a (List.length (l1 ++ l2))) (l1 ++ l2)
  = combine (seq a (List.length l1)) l1
    ++ combine (seq (a + List.length l1) (List.length l2)) l2.
Proof.
  revert a. induction l1 as [|x l1 IH]; intros a.
  - cbn. now rewrite Nat.add_0_r.
  - cbn [app List.length seq combine]. rewrite IH.
    now rewrite Nat.add_succ_r.
Qed.

(** X17.  The text export of the dashboard is pinned chunk by chunk.  For
    no chunk it is two newlines and the rule of fifty "=" characters.  The
    chunk of index i (counted from 0, as in its metadata) stands verbatim
    under the label "CHUNK i+1:": the export is the export of the chunks
    before it, then a blank line unless the chunk is the first, the label
    and the chunk, and then every later chunk after a blank line under its
    own label.  So the rule is written once, directly before the first
    label, and never between the chunks. *)
Theorem export_labels_every_chunk (chunks : list string) (i : nat) (c : string) :
  nth_error chunks i = Some c ->
  App.chunks_text chunks
  = (App.chunks_text (firstn i chunks)
     ++ (if Nat.eqb i 0 then "" else Str.nlnl)
     ++ ("CHUNK " ++ Str.of_nat (i + 1) ++ ":" ++ Str.nl ++ c)
     ++ String.concat ""
          (map (fun x => (Str.nlnl ++ "CHUNK " ++ Str.of_nat (fst x + 1) ++ ":"
                          ++ Str.nl ++ snd x)%string)
             (combine (seq (S i) (List.length chunks - S i)) (skipn (S i) chunks))))%string
  /\ App.chunks_text [] = (Str.nlnl ++ repeat_string "=" 50)%string
  /\ (exists pre post,
        App.chunks_text chunks
        = (Str.nlnl ++ repeat_string "=" 50 ++ pre
           ++ ("CHUNK " ++ Str.of_nat (i + 1) ++ ":" ++ Str.nl ++ c) ++ post)%string)
  /\ (i = 0 ->
      exists post,
        App.chunks_text chunks
        = (Str.nlnl ++ repeat_string "=" 50
           ++ ("CHUNK 1:" ++ Str.nl ++ c) ++ post)%string).
Proof.
  intros H.
  assert (Hexact :
    App.chunks_text chunks
    = (App.chunks_text (firstn i chunks)
       ++ (if Nat.eqb i 0 then "" else Str.nlnl)
       ++ ("CHUNK " ++ Str.of_nat (i + 1) ++ ":" ++ Str.nl ++ c)
       ++ String.concat ""
            (map (fun x => (Str.nlnl ++ "CHUNK " ++ Str.of_nat (fst x + 1) ++ ":"
                            ++ Str.nl ++ snd x)%string)
               (combine (seq (S i) (List.length chunks - S i)) (skipn (S i) chunks))))%string).
  { destruct (nth_error_split _ _ H) as (l1 & l2 & -> & Hlen). subst i.
    rewrite firstn_app, Nat.sub_diag, firstn_all. cbn [firstn]. rewrite app_nil_r.
    replace (skipn (S (List.length l1)) (l1 ++ c :: l2)) with l2
      by (change (c :: l2) with ([c] ++ l2); rewrite app_assoc;
          replace (S (List.length l1)) with (List.length (l1 ++ [c]))
            by (rewrite length_app; cbn; lia);
          now rewrite skipn_app, Nat.sub_diag, skipn_all).
    replace (List.length (l1 ++ c :: l2) - S (List.length l1)) with (List.length l2)
      by (rewrite length_app; cbn; lia).
    unfold App.chunks_text, enumerate.
    rewrite combine_app_seq. cbn [List.length seq combine Nat.add].
    rewrite map_app. cbn [map]. rewrite join_split.
    rewrite map_map.
    replace (match map App.labelled (combine (seq 0 (List.length l1)) l1) with
             | [] => ""
             | _ :: _ => Str.nlnl
             end) with (if Nat.eqb (List.length l1) 0 then "" else Str.nlnl)
      by (destruct l1; reflexivity).
    unfold App.labelled. cbn [fst snd]. rewrite !append_assoc. reflexivity. }
  split; [exact Hexact | split; [reflexivity | split]].
  - unfold App.chunks_text.
    pose proof (enumerate_nth chunks 0 i c H) as Hn.
    apply (map_nth_error App.labelled) in Hn.
    destruct (join_nth Str.nlnl _ _ _ Hn) as (pre & post & E).
    exists pre, post. unfold enumerate. rewrite E. reflexivity.
  - unfold App.chunks_text.
    intros ->. destruct chunks as [|c0 tl]; [discriminate|]. injection H as ->.
    destruct tl as [|c1 tl].
    + exists "". cbn [enumerate List.length seq combine map Str.join String.concat].
      unfold App.labelled. cbn [fst snd]. now rewrite append_empty_r.
    + exists (Str.nlnl ++ Str.join Str.nlnl
                (map App.labelled (combine (seq 1 (List.length (c1 :: tl))) (c1 :: tl))))%string.
      reflexivity.
Qed.

Lemma export_labels_every_chunk_witness :
  App.chunks_text ["alpha"; "beta"; "gamma"]
  = (App.chunks_text ["alpha"] ++ Str.nlnl ++ ("CHUNK 2:" ++ Str.nl ++ "beta")
     ++ (Str.nlnl ++ "CHUNK 3:" ++ Str.nl ++ "gamma"))%string.
Proof.
  exact (proj1 (export_labels_every_chunk ["alpha"; "beta"; "gamma"] 1 "beta" eq_refl)).
Defined.

(** The export of two chunks: the rule runs into the first label. *)
Example export_run :
  App.chunks_text ["alpha"; "beta"]
  = (Str.nlnl ++ "==================================================CHUNK 1:" ++ Str.nl
     ++ "alpha" ++ Str.nlnl ++ "CHUNK 2:" ++ Str.nl ++ "beta")%string.
Proof. reflexivity. Qed.

(** ** No visible text is lost by the semantic chunker *)

Lemma visible_append (a b : string) :
  visible (a ++ b) = (visible a ++ visible b)%string.
Proof.
  induction a as [|c a IH]; [reflexivity|].
  cbn [append visible]. rewrite IH. now destruct (Str.is_space c).
Qed.

Lemma visible_blank (s : string) :
  all_chars Str.is_space s = true -> visible s = "".
Proof.
  induction s as [|c s IH]; [reflexivity|]. cbn [all_chars visible].
  intros H. apply andb_true_iff in H as [Hc Hs]. rewrite Hc. now apply IH.
Qed.

Lemma visible_lstrip (s : string) : visible (Str.lstrip s) = visible s.
Proof.
  induction s as [|c s IH]; [reflexivity|]. cbn [Str.lstrip visible].
  destruct (Str.is_space c) eqn:Hc; [exact IH|]. cbn [visible]. now rewrite Hc.
Qed.

Lemma visible_rstrip (s : string) : visible (Str.rstrip s) = visible s.
Proof.
  induction s as [|c s IH]; [reflexivity|]. cbn [Str.rstrip visible].
  destruct (Str.is_space c) eqn:Hc; cbn [andb].
  - destruct (Str.rstrip s) eqn:Hr; cbn [Str.is_empty].
    + exact IH.
    + cbn [visible] in *. now rewrite Hc.
  - cbn [visible]. now rewrite Hc, IH.
Qed.

Lemma visible_strip (s : string) : visible (Str.strip s) = visible s.
Proof. unfold Str.strip. now rewrite visible_rstrip, visible_lstrip. Qed.

Lemma visible_strip_nonempty (l : list string) :
  visible (String.concat "" (strip_nonempty l)) = visible (String.concat "" l).
Proof.
  unfold strip_nonempty. induction l as [|c l IH]; [reflexivity|].
  cbn [filter]. rewrite concat_empty_cons, visible_append, <- IH.
  destruct (Str.truthy (Str.strip c)) eqn:Ht.
  - cbn [map]. now rewrite concat_empty_cons, visible_append, visible_strip.
  - rewrite <- (visible_strip c).
    destruct (Str.strip c); [reflexivity | discriminate].
Qed.

Lemma visible_flat_map (f : string -> list string) (l : list string) :
  (forall s, visible (String.concat "" (f s)) = visible s) ->
  visible (String.concat "" (flat_map f l)) = visible (String.concat "" l).
Proof.
  intros Hf. induction l as [|s l IH]; [reflexivity|].
  cbn [flat_map]. now rewrite concat_empty_app, concat_empty_cons, !visible_append, Hf, IH.
Qed.

(** When the matches are whitespace, the pieces of a split hold the visible
    text of the subject. *)
Lemma visible_pieces (x : string * list (re.hit * string)) :
  Forall (fun y => all_chars Str.is_space (re.h_text (fst y)) = true) (snd x) ->
  visible (String.concat "" (fst x :: map snd (snd x))) = visible (reassemble x).
Proof.
  destruct x as [g0 l]. unfold reassemble. cbn [fst snd].
  rewrite concat_empty_cons, !visible_append. intros Hall. f_equal.
  induction Hall as [|y l Hy _ IH]; [reflexivity|].
  cbn [map]. rewrite !concat_empty_cons, !visible_append, IH.
  now rewrite (visible_blank _ Hy).
Qed.

Lemma visible_sentences (section : string) :
  visible (String.concat "" (re.split re.no_flags SemanticChunker.sentence_pattern section))
  = visible section.
Proof.
  unfold re.split. rewrite visible_pieces.
  - unfold re.finditer. now rewrite (scan_reassemble _ _ section 0 None).
  - apply (scan_hits re.no_flags SemanticChunker.sentence_pattern
             (fun h => all_chars Str.is_space (re.h_text h) = true)).
    intros ma p s h. apply sentence_match_space.
Qed.

Section VisibleText.
Variable count_tokens : string -> nat.
Variable max_tokens : nat.

Lemma visible_pack_sentences :
  forall sentences chunks cur,
    visible (String.concat ""
               (SemanticChunker.pack_sentences count_tokens max_tokens sentences chunks cur))
    = visible (String.concat "" chunks ++ cur ++ String.concat "" sentences).
Proof.
  induction sentences as [|sentence tl IH]; intros chunks cur.
  - cbn [SemanticChunker.pack_sentences]. destruct cur as [|c cur].
    + cbn [Str.truthy Str.is_empty negb]. now rewrite append_empty_r.
    + cbn [Str.truthy Str.is_empty negb].
      rewrite concat_empty_app. cbn [String.concat].
      now rewrite (append_empty_r (String c cur)).
  - cbn [SemanticChunker.pack_sentences]. rewrite concat_empty_cons.
    destruct cur as [|c cur]; cbn [Str.truthy Str.is_empty negb].
    + destruct (count_tokens sentence <=? max_tokens); now rewrite IH.
    + set (cur' := String c cur).
      destruct (count_tokens _ <=? max_tokens); rewrite IH.
      * rewrite !visible_append. change (visible " ") with "".
        cbn [append]. now rewrite !append_assoc.
      * rewrite concat_empty_app. cbn [String.concat].
        now rewrite !visible_append, !append_assoc.
Qed.

Lemma visible_split_by_sentences (section : string) :
  visible (String.concat ""
             (SemanticChunker._split_by_sentences count_tokens max_tokens section))
  = visible section.
Proof.
  unfold SemanticChunker._split_by_sentences.
  rewrite visible_pack_sentences. cbn [String.concat append].
  apply visible_sentences.
Qed.

Lemma visible_semantic_chunk (content : string) (doc_type : DocumentType) :
  visible (String.concat ""
             (SemanticChunker.chunk count_tokens max_tokens content doc_type))
  = visible content.
Proof.
  unfold SemanticChunker.chunk.
  rewrite visible_strip_nonempty, visible_flat_map.
  - now rewrite sections_reassemble.
  - intros s. destruct (count_tokens s <=? max_tokens).
    + cbn [String.concat]. reflexivity.
    + apply visible_split_by_sentences.
Qed.

Lemma walk_cons (code_blocks : list string) (i : nat) (part : string)
    (tl : list string) :
  CodeAwareChunker.walk count_tokens max_tokens code_blocks i (part :: tl)
  = (if Str.truthy (Str.strip part)
     then CodeAwareChunker._semantic_split count_tokens max_tokens part else [])
    ++ match nth_error code_blocks i with
       | Some code_chunk =>
           if count_tokens code_chunk <=? max_tokens then [code_chunk]
           else CodeAwareChunker._split_code_block count_tokens max_tokens code_chunk
       | None => []
       end
    ++ CodeAwareChunker.walk count_tokens max_tokens code_blocks (S i) tl.
Proof. reflexivity. Qed.

(** The walk of the code-aware chunker over the pieces and the blocks of a
    split, when every block is within the budget. *)
Lemma visible_walk :
  forall (hits : list (re.hit * string)) (pre : list string) (g : string),
    Forall (fun y => count_tokens (re.h_text (fst y)) <= max_tokens) hits ->
    visible (String.concat ""
               (CodeAwareChunker.walk count_tokens max_tokens
                  (pre ++ map (fun y => re.h_text (fst y)) hits)
                  (List.length pre) (g :: map snd hits)))
    = visible (reassemble (g, hits)).
Proof.
  assert (Hpart : forall g,
            visible (String.concat ""
                       (if Str.truthy (Str.strip g)
                        then CodeAwareChunker._semantic_split count_tokens max_tokens g
                        else []))
            = visible g).
  { intros g. destruct (Str.truthy (Str.strip g)) eqn:Ht.
    - apply visible_semantic_chunk.
    - rewrite <- (visible_strip g). destruct (Str.strip g); [reflexivity | discriminate]. }
  unfold reassemble. cbn [fst snd].
  induction hits as [|[h g'] tl IH]; intros pre g Hfit.
  - cbn [map CodeAwareChunker.walk]. rewrite !app_nil_r.
    assert (Hnone : nth_error pre (List.length pre) = None)
      by (apply nth_error_None; lia).
    rewrite Hnone, app_nil_r, Hpart. cbn [String.concat]. now rewrite append_empty_r.
  - inversion Hfit as [|? ? Hh Htl]; subst. cbn [fst] in Hh.
    cbn [map fst snd]. rewrite walk_cons.
    rewrite nth_error_app2 by lia. rewrite Nat.sub_diag. cbn [nth_error].
    apply Nat.leb_le in Hh. rewrite Hh.
    specialize (IH (pre ++ [re.h_text h]) g' Htl).
    rewrite <- app_assoc in IH. cbn [app] in IH.
    rewrite length_app in IH. cbn [List.length] in IH. rewrite Nat.add_1_r in IH.
    rewrite !concat_empty_app, !concat_empty_cons, !visible_append, Hpart, IH.
    change (String.concat "" []) with "". change (visible "") with "".
    now rewrite visible_append, append_empty_r, !append_assoc.
Qed.

End VisibleText.

(** X18.  The semantic chunker loses no visible text: with whitespace left
    out, the chunks in order spell the content, whatever the tokenizer and
    the budget.  (Sections over the budget are cut at whitespace only, and
    a sentence over the budget is kept whole.) *)
Theorem semantic_chunks_keep_visible_text
    (count_tokens : string -> nat) (max_tokens : nat)
    (content : string) (doc_type : DocumentType) :
  visible (String.concat ""
             (SemanticChunker.chunk count_tokens max_tokens content doc_type))
  = visible content.
Proof. apply visible_semantic_chunk. Qed.

(** X19.  The code-aware chunker loses no visible text when every fenced
    block of the content is within the budget: with whitespace left out,
    the chunks in order spell the content. *)
Theorem code_aware_chunks_keep_visible_text
    (count_tokens : string -> nat) (max_tokens : nat)
    (content : string) (doc_type : DocumentType) :
  Forall (fun b => count_tokens b <= max_tokens)
    (CodeAwareChunker._extract_code_blocks content) ->
  visible (String.concat ""
             (CodeAwareChunker.chunk count_tokens max_tokens content doc_type))
  = visible content.
Proof.
  intros Hfit. unfold CodeAwareChunker.chunk, CodeAwareChunker._extract_code_blocks,
    re.findall, re.split in *.
  rewrite visible_strip_nonempty.
  pose proof (scan_reassemble re.no_flags CodeAwareChunker.fence_pattern content 0 None) as R.
  fold (re.finditer re.no_flags CodeAwareChunker.fence_pattern content) in R.
  change (Str.drop 0 content) with content in R.
  destruct (re.finditer re.no_flags CodeAwareChunker.fence_pattern content) as [g0 hits].
  cbn [fst snd] in *. rewrite <- R.
  apply (visible_walk count_tokens max_tokens hits [] g0).
  rewrite Forall_map in Hfit. exact Hfit.
Qed.

Lemma code_aware_chunks_keep_visible_text_witness :
  visible (String.concat ""
             (CodeAwareChunker.chunk char_tokens 40
                ("Run it:" ++ Str.nl ++ CodeAwareChunker.fence ++ Str.nl ++ "make all"
                 ++ Str.nl ++ CodeAwareChunker.fence ++ Str.nl ++ "Then wait.")
                API_REFERENCE))
  = visible ("Run it:" ++ Str.nl ++ CodeAwareChunker.fence ++ Str.nl ++ "make all"
             ++ Str.nl ++ CodeAwareChunker.fence ++ Str.nl ++ "Then wait.").
Proof.
  apply (code_aware_chunks_keep_visible_text char_tokens 40
           ("Run it:" ++ Str.nl ++ CodeAwareChunker.fence ++ Str.nl ++ "make all"
            ++ Str.nl ++ CodeAwareChunker.fence ++ Str.nl ++ "Then wait.")
           API_REFERENCE).
  vm_compute. repeat constructor.
Defined.

(** ** The hierarchical parser keeps every line *)

Lemma parse_line_keeps_lines st raw :
  all_chars not_newline raw = true ->
  parser_ok st ->
  flat_map HierarchicalChunker.content (all_sections (HierarchicalChunker.parse_line st raw))
  = flat_map HierarchicalChunker.content (all_sections st) ++ body_line raw
  /\ flat_map headings (all_sections (HierarchicalChunker.parse_line st raw))
     = flat_map headings (all_sections st) ++ heading_line raw.
Proof.
  intros Hnl. destruct st as [structure current]. unfold parser_ok. cbn [fst snd].
  intros (_ & _ & _ & Hcur).
  unfold HierarchicalChunker.parse_line, body_line, heading_line, heading_of.
  destruct (Str.is_empty (Str.strip raw)) eqn:Hne; [now rewrite !app_nil_r|].
  pose proof (strip_line_ok raw Hnl Hne) as Hline.
  destruct (re.match_ re.no_flags HierarchicalChunker.header_pattern (Str.strip raw))
    as [hm|] eqn:Hm.
  - destruct (header_match_spec _ _ Hm) as (hashes & rest & _ & E1 & Hlev & _).
    { unfold Str.strip. apply rstrip_involutive. }
    { apply Hline. }
    unfold all_sections. cbn [fst snd]. rewrite !flat_map_app.
    cbn [flat_map HierarchicalChunker.content app]. unfold headings at 2 4.
    cbn [HierarchicalChunker.level HierarchicalChunker.title].
    rewrite E1. destruct (String.length hashes =? 0) eqn:E0;
      [apply Nat.eqb_eq in E0; lia|].
    destruct current as [cs|]; split; rewrite ?flat_map_app, ?app_nil_r; reflexivity.
  - unfold all_sections. destruct current as [cs|]; cbn [fst snd].
    + rewrite !flat_map_app. cbn [flat_map HierarchicalChunker.add_line
                                    HierarchicalChunker.content].
      rewrite !app_nil_r. split; [now rewrite app_assoc|reflexivity].
    + destruct Hcur as [Hlen Hzero].
      destruct structure as [|s [|s' tl]]; [| |cbn in Hlen; lia].
      * cbn. split; reflexivity.
      * apply Forall_inv in Hzero.
        unfold HierarchicalChunker.needs_introduction. cbn [map last].
        rewrite Hzero. cbn [Nat.eqb negb HierarchicalChunker.append_to_last app flat_map].
        unfold headings. cbn [HierarchicalChunker.add_line HierarchicalChunker.content
                               HierarchicalChunker.level HierarchicalChunker.title].
        rewrite Hzero. cbn [Nat.eqb]. rewrite !app_nil_r. split; reflexivity.
Qed.

Lemma parse_lines_keep_lines lines :
  Forall (fun line => all_chars not_newline line = true) lines ->
  forall st, parser_ok st ->
    flat_map HierarchicalChunker.content
      (all_sections (fold_left HierarchicalChunker.parse_line lines st))
    = flat_map HierarchicalChunker.content (all_sections st) ++ flat_map body_line lines
    /\ flat_map headings
         (all_sections (fold_left HierarchicalChunker.parse_line lines st))
       = flat_map headings (all_sections st) ++ flat_map heading_line lines.
Proof.
  induction 1 as [|l tl Hl _ IH]; intros st Hst; cbn [fold_left flat_map].
  - now rewrite !app_nil_r.
  - destruct (IH _ (parse_line_ok st l Hl Hst)) as [IH1 IH2].
    destruct (parse_line_keeps_lines st l Hl Hst) as [E1 E2].
    rewrite IH1, IH2, E1, E2, <- !app_assoc. split; reflexivity.
Qed.

Lemma parse_structure_all_sections (text : string) :
  HierarchicalChunker._parse_structure text
  = all_sections (fold_left HierarchicalChunker.parse_line
                    (Str.split_char Str.newline text) ([], None)).
Proof.
  unfold HierarchicalChunker._parse_structure, all_sections.
  destruct (fold_left _ _ _) as [structure [cs|]]; cbn [fst snd];
    [reflexivity | now rewrite app_nil_r].
Qed.

(** X20.  The hierarchical parser keeps every line of the document in
    order: the body lines of the sections, one section after the other,
    are the lines of the text that are neither blank nor headings, trimmed;
    and the sections of level 1 to 6 are, in order, the heading lines of
    the text with their levels and titles. *)
Theorem parse_structure_keeps_lines (text : string) :
  flat_map HierarchicalChunker.content (HierarchicalChunker._parse_structure text)
  = flat_map body_line (Str.split_char Str.newline text)
  /\ flat_map headings (HierarchicalChunker._parse_structure text)
     = flat_map heading_line (Str.split_char Str.newline text).
Proof.
  rewrite parse_structure_all_sections.
  apply (parse_lines_keep_lines _ (split_char_no_newline text) ([], None)).
  unfold parser_ok. cbn. repeat split; auto; constructor.
Qed.

Example parse_structure_run :
  let text := ("intro line" ++ Str.nl ++ "#  One  " ++ Str.nl ++ "  a  " ++ Str.nl
               ++ Str.nl ++ "#no heading" ++ Str.nl ++ "### Two")%string in
  HierarchicalChunker._parse_structure text
  = [ {| HierarchicalChunker.level := 0; HierarchicalChunker.title := "Introduction";
         HierarchicalChunker.content := ["intro line"] |};
      {| HierarchicalChunker.level := 1; HierarchicalChunker.title := "One";
         HierarchicalChunker.content := ["a"; "#no heading"] |};
      {| HierarchicalChunker.level := 3; HierarchicalChunker.title := "Two";
         HierarchicalChunker.content := [] |} ].
Proof. vm_compute. reflexivity. Qed.

(** ** The chunks of the code-aware chunker, slot by slot *)

Lemma strip_nonempty_app (l1 l2 : list string) :
  strip_nonempty (l1 ++ l2) = strip_nonempty l1 ++ strip_nonempty l2.
Proof. unfold strip_nonempty. now rewrite filter_app, map_app. Qed.

Lemma scan_hits_fenced (content : string) :
  Forall (fun y => exists inner,
              re.h_text (fst y)
              = (CodeAwareChunker.fence ++ inner ++ CodeAwareChunker.fence)%string)
    (snd (re.finditer re.no_flags CodeAwareChunker.fence_pattern content)).
Proof.
  apply (scan_hits re.no_flags CodeAwareChunker.fence_pattern
           (fun h => exists inner,
                re.h_text h
                = (CodeAwareChunker.fence ++ inner ++ CodeAwareChunker.fence)%string)).
  intros ma p s h. apply fence_match_shape.
Qed.

Section Slots.
Variable count_tokens : string -> nat.
Variable max_tokens : nat.

Lemma prose_part_chunks (part : string) :
  strip_nonempty
    (if Str.truthy (Str.strip part)
     then CodeAwareChunker._semantic_split count_tokens max_tokens part else [])
  = prose_chunks count_tokens max_tokens part.
Proof.
  unfold prose_chunks. destruct (Str.truthy (Str.strip part)) eqn:Ht.
  - unfold CodeAwareChunker._semantic_split, SemanticChunker.chunk.
    apply strip_nonempty_involutive.
  - rewrite truthy_strip in Ht. now rewrite semantic_chunk_blank.
Qed.

Lemma block_part_chunks (b : string) :
  (exists inner, b = (CodeAwareChunker.fence ++ inner ++ CodeAwareChunker.fence)%string) ->
  strip_nonempty
    (if count_tokens b <=? max_tokens then [b]
     else CodeAwareChunker._split_code_block count_tokens max_tokens b)
  = block_chunks count_tokens max_tokens b.
Proof.
  intros (inner & ->). unfold block_chunks.
  destruct (count_tokens _ <=? max_tokens); [|reflexivity].
  apply strip_nonempty_fixed. intros c [<- | []].
  destruct (fenced_text_fixed inner) as (Hs & Ht & _). auto.
Qed.

Lemma walk_slots :
  forall (hits : list (re.hit * string)) (pre : list string) (g : string),
    Forall (fun y => exists inner,
                re.h_text (fst y)
                = (CodeAwareChunker.fence ++ inner ++ CodeAwareChunker.fence)%string) hits ->
    strip_nonempty
      (CodeAwareChunker.walk count_tokens max_tokens
         (pre ++ map (fun y => re.h_text (fst y)) hits)
         (List.length pre) (g :: map snd hits))
    = prose_chunks count_tokens max_tokens g
      ++ flat_map (slot_chunks count_tokens max_tokens) hits.
Proof.
  induction hits as [|[h g'] tl IH]; intros pre g Hf.
  - cbn [map flat_map]. rewrite walk_cons, !app_nil_r.
    assert (Hnone : nth_error pre (List.length pre) = None)
      by (apply nth_error_None; lia).
    rewrite Hnone. cbn [CodeAwareChunker.walk]. rewrite !app_nil_r.
    apply prose_part_chunks.
  - inversion Hf as [|? ? Hh Htl]; subst. cbn [fst] in Hh.
    cbn [map fst snd flat_map]. rewrite walk_cons.
    rewrite nth_error_app2 by lia. rewrite Nat.sub_diag. cbn [nth_error].
    specialize (IH (pre ++ [re.h_text h]) g' Htl).
    rewrite <- app_assoc in IH. cbn [app] in IH.
    rewrite length_app in IH. cbn [List.length] in IH. rewrite Nat.add_1_r in IH.
    rewrite !strip_nonempty_app, prose_part_chunks, (block_part_chunks _ Hh), IH.
    unfold slot_chunks at 2. cbn [fst snd]. now rewrite <- !app_assoc.
Qed.

Lemma code_aware_chunk_slots (content : string) (doc_type : DocumentType) :
  CodeAwareChunker.chunk count_tokens max_tokens content doc_type
  = prose_chunks count_tokens max_tokens
      (fst (re.finditer re.no_flags CodeAwareChunker.fence_pattern content))
    ++ flat_map (slot_chunks count_tokens max_tokens)
         (snd (re.finditer re.no_flags CodeAwareChunker.fence_pattern content)).
Proof.
  unfold CodeAwareChunker.chunk, CodeAwareChunker._extract_code_blocks, re.findall, re.split.
  pose proof (scan_hits_fenced content) as Hf.
  destruct (re.finditer re.no_flags CodeAwareChunker.fence_pattern content) as [g0 hits].
  cbn [fst snd] in *. exact (walk_slots hits [] g0 Hf).
Qed.

End Slots.

(** C2, amended.  The code-aware chunker works slot by slot.  The fenced
    blocks of the content and the prose parts between them alternate and
    make up the content; the chunks are those of the first prose part,
    then for every block in order the chunks of the block followed by the
    chunks of the prose part after it.  A block within the budget fills its
    slot with exactly one chunk, the block itself, whole and unchanged with
    its fences: it stands once, between the chunks of what comes before it
    and the chunks of what comes after it.  (A block over the budget is
    handed to [_split_code_block], and its text is then in no single
    chunk.) *)
Theorem fitting_code_block_is_emitted
    (count_tokens : string -> nat) (max_tokens : nat) (content : string)
    (doc_type : DocumentType) :
  let x := re.finditer re.no_flags CodeAwareChunker.fence_pattern content in
  let prose := fun part => SemanticChunker.chunk count_tokens max_tokens part TECHNICAL_DOC in
  let slot := fun y : re.hit * string =>
    (if count_tokens (re.h_text (fst y)) <=? max_tokens then [re.h_text (fst y)]
     else strip_nonempty
            (CodeAwareChunker._split_code_block count_tokens max_tokens (re.h_text (fst y))))
    ++ prose (snd y) in
  CodeAwareChunker._extract_code_blocks content = map (fun y => re.h_text (fst y)) (snd x)
  /\ content
     = (fst x ++ String.concat ""
                   (map (fun y => (re.h_text (fst y) ++ snd y)%string) (snd x)))%string
  /\ CodeAwareChunker.chunk count_tokens max_tokens content doc_type
     = prose (fst x) ++ flat_map slot (snd x)
  /\ (forall pre y post,
        snd x = pre ++ y :: post ->
        count_tokens (re.h_text (fst y)) <= max_tokens ->
        CodeAwareChunker.chunk count_tokens max_tokens content doc_type
        = (prose (fst x) ++ flat_map slot pre)
          ++ [re.h_text (fst y)]
          ++ (prose (snd y) ++ flat_map slot post)
        /\ exists inner,
             re.h_text (fst y)
             = (CodeAwareChunker.fence ++ inner ++ CodeAwareChunker.fence)%string)
  /\ (forall b,
        In b (CodeAwareChunker._extract_code_blocks content) ->
        count_tokens b <= max_tokens ->
        In b (CodeAwareChunker.chunk count_tokens max_tokens content doc_type)
        /\ exists inner, b = (CodeAwareChunker.fence ++ inner ++ CodeAwareChunker.fence)%string).
Proof.
  cbn zeta.
  pose proof (code_aware_chunk_slots count_tokens max_tokens content doc_type) as Hslots.
  pose proof (scan_hits_fenced content) as Hf.
  pose proof (scan_reassemble re.no_flags CodeAwareChunker.fence_pattern content 0 None) as R.
  fold (re.finditer re.no_flags CodeAwareChunker.fence_pattern content) in R.
  change (Str.drop 0 content) with content in R. unfold reassemble in R.
  unfold CodeAwareChunker._extract_code_blocks, re.findall.
  set (x := re.finditer re.no_flags CodeAwareChunker.fence_pattern content) in *.
  change (fun y : re.hit * string =>
            (if count_tokens (re.h_text (fst y)) <=? max_tokens then [re.h_text (fst y)]
             else strip_nonempty
                    (CodeAwareChunker._split_code_block count_tokens max_tokens
                       (re.h_text (fst y))))
            ++ SemanticChunker.chunk count_tokens max_tokens (snd y) TECHNICAL_DOC)
    with (slot_chunks count_tokens max_tokens).
  change (fun part => SemanticChunker.chunk count_tokens max_tokens part TECHNICAL_DOC)
    with (prose_chunks count_tokens max_tokens).
  assert (Hpos : forall pre y post,
            snd x = pre ++ y :: post ->
            count_tokens (re.h_text (fst y)) <= max_tokens ->
            CodeAwareChunker.chunk count_tokens max_tokens content doc_type
            = (prose_chunks count_tokens max_tokens (fst x)
               ++ flat_map (slot_chunks count_tokens max_tokens) pre)
              ++ [re.h_text (fst y)]
              ++ (prose_chunks count_tokens max_tokens (snd y)
                  ++ flat_map (slot_chunks count_tokens max_tokens) post)
            /\ exists inner,
                 re.h_text (fst y)
                 = (CodeAwareChunker.fence ++ inner ++ CodeAwareChunker.fence)%string).
  { intros pre y post E Hfit. split.
    - rewrite Hslots, E, flat_map_app. cbn [flat_map].
      unfold slot_chunks at 2. unfold block_chunks.
      apply Nat.leb_le in Hfit. rewrite Hfit.
      rewrite <- !app_assoc. reflexivity.
    - rewrite E in Hf. apply Forall_app in Hf as [_ Hf]. now apply Forall_inv in Hf. }
  split; [reflexivity | split; [now rewrite R | split; [exact Hslots | split; [exact Hpos|]]]].
  intros b Hin Hfit. apply in_map_iff in Hin as (y & <- & Hy).
  destruct (in_split _ _ Hy) as (pre & post & E).
  destruct (Hpos pre y post E Hfit) as [Hc Hin]. split; [|exact Hin].
  rewrite Hc. apply in_or_app. right. now left.
Qed.

Lemma fitting_code_block_is_emitted_witness :
  let b := (CodeAwareChunker.fence ++ "x = 1" ++ CodeAwareChunker.fence)%string in
  In b (CodeAwareChunker.chunk char_tokens 20 ("Intro. " ++ b ++ " Outro.") API_REFERENCE)
  /\ exists inner, b = (CodeAwareChunker.fence ++ inner ++ CodeAwareChunker.fence)%string.
Proof.
  apply (proj2 (proj2 (proj2 (proj2
           (fitting_code_block_is_emitted char_tokens 20
              ("Intro. " ++ CodeAwareChunker.fence ++ "x = 1" ++ CodeAwareChunker.fence
               ++ " Outro.") API_REFERENCE))))).
  - left. reflexivity.
  - unfold char_tokens. simpl. lia.
Defined.

(** The slots at work: two equal blocks within the budget are two chunks,
    each at its own place. *)
Example code_aware_slots_run :
  let b := (CodeAwareChunker.fence ++ "x = 1" ++ CodeAwareChunker.fence)%string in
  CodeAwareChunker.chunk char_tokens 20 ("Intro. " ++ b ++ " Then. " ++ b ++ " Outro.")
    API_REFERENCE
  = ["Intro."; b; "Then."; b; "Outro."].
Proof. vm_compute. reflexivity. Qed.

(** ** Which documents yield no chunk *)

Lemma only_newlines_hits f r (code : string) :
  only_newlines code = true ->
  Forall (fun y => only_newlines (re.h_text (fst y)) = true)
    (snd (re.finditer f r code)).
Proof.
  intros H.
  pose proof (scan_reassemble f r code 0 None) as R.
  fold (re.finditer f r code) in R. change (Str.drop 0 code) with code in R.
  rewrite <- R in H. clear R. unfold reassemble, only_newlines in *.
  destruct (re.finditer f r code) as [g0 hits]. cbn [fst snd] in *.
  apply all_chars_append_true in H as [_ H].
  induction hits as [|y tl IH]; [constructor|].
  cbn [map] in H. rewrite concat_empty_cons in H.
  apply all_chars_append_true in H as [Hy H].
  apply all_chars_append_true in Hy as [Hy _].
  constructor; [exact Hy | now apply IH].
Qed.

Lemma only_newlines_no_declaration (kw code : string) :
  only_newlines kw = false ->
  only_newlines code = true ->
  re.findall re.flag_ms (CodeAwareChunker.decl_pattern kw) code = [].
Proof.
  intros Hkw Hcode.
  pose proof (findall_decl_starts kw code) as Hs.
  pose proof (only_newlines_hits re.flag_ms (CodeAwareChunker.decl_pattern kw) code Hcode)
    as Hn.
  unfold re.findall in *.
  destruct (snd (re.finditer re.flag_ms (CodeAwareChunker.decl_pattern kw) code))
    as [|y tl]; [reflexivity|]. exfalso.
  apply Forall_inv in Hn. cbn [map] in Hs. apply Forall_inv in Hs.
  destruct Hs as (u & E). rewrite E in Hn. unfold only_newlines in *.
  apply all_chars_append_true in Hn as [Hn _]. congruence.
Qed.

Lemma only_newlines_lines (s : string) :
  only_newlines s = true ->
  Forall (fun line => line = "") (Str.split_char Str.newline s).
Proof.
  unfold only_newlines. induction s as [|c s IH]; [repeat constructor|].
  cbn [all_chars Str.split_char]. intros H. apply andb_true_iff in H as [Hc Hs].
  rewrite Hc. constructor; [reflexivity | now apply IH].
Qed.

Section EmptyResults.
Variable count_tokens : string -> nat.
Variable max_tokens : nat.

Lemma pack_lines_empty_lines :
  forall lines chunks,
    Forall (fun line => line = "") lines ->
    CodeAwareChunker.pack_lines count_tokens max_tokens lines chunks "" = chunks.
Proof.
  induction lines as [|l tl IH]; intros chunks H; cbn [CodeAwareChunker.pack_lines];
    [reflexivity|].
  inversion H as [|? ? Hl Htl]; subst.
  cbn [Str.truthy Str.is_empty negb].
  destruct (count_tokens "" <=? max_tokens); now apply IH.
Qed.

Lemma split_code_block_empty (b : string) :
  only_newlines (CodeAwareChunker.strip_markers b) = true ->
  CodeAwareChunker._split_code_block count_tokens max_tokens b = [].
Proof.
  intros H. unfold CodeAwareChunker._split_code_block.
  assert (Hno : CodeAwareChunker.structure_matches CodeAwareChunker.patterns
                  (CodeAwareChunker.strip_markers b) = []).
  { unfold CodeAwareChunker.patterns. cbn [CodeAwareChunker.structure_matches].
    now rewrite !only_newlines_no_declaration. }
  rewrite Hno. apply pack_lines_empty_lines. now apply only_newlines_lines.
Qed.

Lemma block_chunks_empty_iff (b : string) :
  block_chunks count_tokens max_tokens b = [] <-> block_vanishes count_tokens max_tokens b.
Proof.
  unfold block_chunks, block_vanishes.
  destruct (count_tokens b <=? max_tokens) eqn:Hfit.
  - apply Nat.leb_le in Hfit. split; [discriminate | intros [H _]; lia].
  - apply Nat.leb_gt in Hfit. split.
    + intros He. split; [exact Hfit|].
      destruct (only_newlines (CodeAwareChunker.strip_markers b)) eqn:Hn; [reflexivity|].
      exfalso.
      pose proof (split_code_block_inhabited count_tokens max_tokens b Hn) as Hne.
      pose proof (split_code_block_not_blank count_tokens max_tokens b) as Hnb.
      destruct (CodeAwareChunker._split_code_block count_tokens max_tokens b) as [|c cs];
        [congruence|].
      apply (strip_nonempty_inhabited (c :: cs) c); [now left | | exact He].
      now apply Forall_inv in Hnb.
    + intros [_ Hn]. now rewrite split_code_block_empty.
Qed.

Lemma prose_chunks_empty_iff (part : string) :
  prose_chunks count_tokens max_tokens part = [] <-> Str.has_non_space part = false.
Proof.
  unfold prose_chunks. split.
  - intros He. destruct (Str.has_non_space part) eqn:Hns; [|reflexivity].
    now elim (semantic_chunk_inhabited count_tokens max_tokens part TECHNICAL_DOC Hns).
  - apply semantic_chunk_blank.
Qed.

Lemma flat_map_nil {A B : Type} (f : A -> list B) (l : list A) :
  flat_map f l = [] <-> Forall (fun a => f a = []) l.
Proof.
  induction l as [|a l IH]; cbn [flat_map]; [split; [constructor | reflexivity]|].
  split.
  - intros H. apply app_eq_nil in H as [Ha Hl]. constructor; [exact Ha | now apply IH].
  - intros H. inversion H as [|? ? Ha Hl]; subst. rewrite Ha. now apply IH.
Qed.

Lemma code_aware_chunk_empty_iff (content : string) (doc_type : DocumentType) :
  CodeAwareChunker.chunk count_tokens max_tokens content doc_type = []
  <-> Forall (fun part => Str.has_non_space part = false)
        (re.split re.no_flags CodeAwareChunker.fence_pattern content)
      /\ Forall (block_vanishes count_tokens max_tokens)
           (CodeAwareChunker._extract_code_blocks content).
Proof.
  rewrite code_aware_chunk_slots.
  unfold re.split, CodeAwareChunker._extract_code_blocks, re.findall.
  destruct (re.finditer re.no_flags CodeAwareChunker.fence_pattern content) as [g0 hits].
  cbn [fst snd]. rewrite !Forall_map. split.
  - intros H. apply app_eq_nil in H as [Hg Hs].
    apply prose_chunks_empty_iff in Hg. apply flat_map_nil in Hs.
    split.
    + constructor; [exact Hg|]. rewrite Forall_map. eapply Forall_impl; [|exact Hs].
      intros y Hy. unfold slot_chunks in Hy. apply app_eq_nil in Hy as [_ Hy].
      now apply prose_chunks_empty_iff.
    + eapply Forall_impl; [|exact Hs].
      intros y Hy. unfold slot_chunks in Hy. apply app_eq_nil in Hy as [Hy _].
      now apply block_chunks_empty_iff.
  - intros [Hparts Hblocks]. inversion Hparts as [|? ? Hg Hgaps]; subst.
    rewrite Forall_map in Hgaps.
    rewrite (proj2 (prose_chunks_empty_iff g0) Hg). cbn [app].
    apply flat_map_nil. rewrite Forall_forall in *. intros y Hy.
    unfold slot_chunks.
    rewrite (proj2 (block_chunks_empty_iff _) (Hblocks y Hy)).
    now rewrite (proj2 (prose_chunks_empty_iff _) (Hgaps y Hy)).
Qed.

End EmptyResults.

(** C7, amended.  [count_tokens] is a function here: the statement is
    about the calls in which the tokenizer returns a count for every text
    it is given.  For a document with a character that is not whitespace:
    no returned chunk is blank; under the semantic and the hierarchical
    strategy there is at least one chunk; under the code-aware strategy the
    result has no chunk exactly when every prose part between the fenced
    blocks is blank and every fenced block is over the budget of 512 and
    leaves nothing but newlines once its fence lines are removed (and then
    the document holds such a block). *)
Theorem not_blank_document_yields_a_chunk
    (count_tokens : string -> nat) (md5_hexdigest : string -> string) (now : string)
    (content filename : string) (doc_id : option string) :
  Str.has_non_space content = true ->
  let r := IntelligentChunker.process_document count_tokens md5_hexdigest now
             content filename doc_id in
  let strategy :=
    IntelligentChunker.strategy_map (DocumentClassifier.classify content filename) in
  Forall (fun c => Str.has_non_space c = true) (IntelligentChunker.r_chunks r)
  /\ IntelligentChunker.r_total_chunks r = List.length (IntelligentChunker.r_chunks r)
  /\ (strategy <> CODE_AWARE ->
      1 <= IntelligentChunker.r_total_chunks r /\ IntelligentChunker.r_chunks r <> [])
  /\ (strategy = CODE_AWARE ->
      (IntelligentChunker.r_chunks r = []
       <-> Forall (fun part => Str.has_non_space part = false)
             (re.split re.no_flags CodeAwareChunker.fence_pattern content)
           /\ Forall (fun b => 512 < count_tokens b
                               /\ only_newlines (CodeAwareChunker.strip_markers b) = true)
                (CodeAwareChunker._extract_code_blocks content))
      /\ (IntelligentChunker.r_chunks r = [] ->
          CodeAwareChunker._extract_code_blocks content <> [])).
Proof.
  intros Hns. cbn zeta.
  unfold IntelligentChunker.process_document.
  cbn [IntelligentChunker.r_chunks IntelligentChunker.r_total_chunks].
  set (doc_type := DocumentClassifier.classify content filename) in *.
  set (strategy := IntelligentChunker.strategy_map doc_type) in *.
  split; [|split; [reflexivity|split]].
  - destruct strategy; cbn [IntelligentChunker.chunkers].
    + apply Forall_forall. intros c. apply strip_nonempty_not_blank.
    + apply Forall_forall. intros c. apply strip_nonempty_not_blank.
    + apply hierarchical_chunks_not_blank.
    + apply Forall_forall. intros c. apply strip_nonempty_not_blank.
  - intros Hst.
    assert (Hne : IntelligentChunker.chunkers count_tokens strategy content doc_type <> []).
    { destruct strategy; cbn [IntelligentChunker.chunkers]; try congruence.
      - now apply semantic_chunk_inhabited.
      - now apply hierarchical_chunk_inhabited.
      - now apply semantic_chunk_inhabited. }
    split; [|exact Hne].
    destruct (IntelligentChunker.chunkers count_tokens strategy content doc_type);
      [congruence | simpl; lia].
  - intros ->. cbn [IntelligentChunker.chunkers].
    pose proof (code_aware_chunk_empty_iff count_tokens 512 content doc_type) as Hiff.
    unfold block_vanishes in Hiff. split; [exact Hiff|].
    intros He. apply Hiff in He as [Hparts _]. intros Hnone.
    pose proof (code_aware_no_fence count_tokens 512 content doc_type TECHNICAL_DOC Hnone)
      as Hsem.
    pose proof (semantic_chunk_inhabited count_tokens 512 content TECHNICAL_DOC Hns) as Hin.
    apply Hin. rewrite <- Hsem.
    apply (proj2 (code_aware_chunk_empty_iff count_tokens 512 content doc_type)).
    split; [exact Hparts|]. rewrite Hnone. constructor.
Qed.

Lemma not_blank_document_yields_a_chunk_witness :
  let content := ("Hello " ++ CodeAwareChunker.fence ++ repeat_string " a" 600 ++ Str.nl
                  ++ CodeAwareChunker.fence)%string in
  let r := IntelligentChunker.process_document char_tokens md5_table "2026-01-01T00:00:00"
             content "notes.py" None in
  let strategy :=
    IntelligentChunker.strategy_map (DocumentClassifier.classify content "notes.py") in
  Forall (fun c => Str.has_non_space c = true) (IntelligentChunker.r_chunks r)
  /\ IntelligentChunker.r_total_chunks r = List.length (IntelligentChunker.r_chunks r)
  /\ (strategy <> CODE_AWARE ->
      1 <= IntelligentChunker.r_total_chunks r /\ IntelligentChunker.r_chunks r <> [])
  /\ (strategy = CODE_AWARE ->
      (IntelligentChunker.r_chunks r = []
       <-> Forall (fun part => Str.has_non_space part = false)
             (re.split re.no_flags CodeAwareChunker.fence_pattern content)
           /\ Forall (fun b => 512 < char_tokens b
                               /\ only_newlines (CodeAwareChunker.strip_markers b) = true)
                (CodeAwareChunker._extract_code_blocks content))
      /\ (IntelligentChunker.r_chunks r = [] ->
          CodeAwareChunker._extract_code_blocks content <> [])).
Proof.
  apply (not_blank_document_yields_a_chunk char_tokens md5_table "2026-01-01T00:00:00").
  vm_compute. reflexivity.
Defined.

(** A prose part that is not blank yields its chunk even when the block
    beside it is over the budget and leaves nothing. *)
Example prose_beside_vanishing_block :
  IntelligentChunker.r_chunks
    (IntelligentChunker.process_document char_tokens md5_table "2026-01-01T00:00:00"
       ("Hello " ++ CodeAwareChunker.fence ++ repeat_string " a" 600 ++ Str.nl
        ++ CodeAwareChunker.fence) "notes.py" None)
  = ["Hello"].
Proof. vm_compute. reflexivity. Qed.

(** ** Token budget of the emitted chunks *)




